(** * Cleanliness validation of extracted documents

    A shallow embedding of [full_cleaniness_validation.py]: the metric
    helpers ([shannon_entropy], [is_non_ascii_heavy], [punctuation_density],
    [newline_count]) and the report printed by [validate_docs].

    Conventions of the embedding.
    - A Python [str] is the list of its code points ([ord c] is the
      element itself), so that the tests [ord(c) > 127] and the patterns
      on U+FB01, U+FB02 and U+FFFD read as in the source.
    - A Python [int] is a [Z]; positions produced by [enumerate] are [nat].
    - A Python [float] is read as the real number it denotes, and the
      arithmetic on floats (division, product, sum and [math.log2]) is
      carried out exactly, without rounding.  The entropy scan, whose
      threshold a rounded entropy can cross, is embedded a second time
      over an arbitrary arithmetic ([arith]).
    - An exception is a value of [exn]; code that can raise returns a
      [result].
    - [print] appends one entry to the standard output held in the
      [world]; an entry carries the values interpolated in the f-string,
      their rendering as text is not represented. *)

From Stdlib Require Import ZArith List Bool Reals Lra Lia Permutation Sorted.
Import ListNotations.

Local Open Scope Z_scope.

(** ** Strings *)

Definition char := Z.
Definition str := list char.

Definition ord (c : char) : Z := c.
Definition len {A : Type} (l : list A) : Z := Z.of_nat (length l).

(** [not text] for a string: true exactly on the empty one. *)
Definition is_empty {A : Type} (l : list A) : bool :=
  match l with [] => true | _ :: _ => false end.

Definition NEWLINE : char := 10.
Definition SPACE : char := 32.
Definition HYPHEN : char := 45.
Definition LIGATURE_FI : char := 64257.   (* U+FB01 *)
Definition LIGATURE_FL : char := 64258.   (* U+FB02 *)
Definition REPLACEMENT : char := 65533.   (* U+FFFD *)

(** [string.punctuation]: the 32 ASCII punctuation characters, by code
    point (33 to 47, 58 to 64, 91 to 96 and 123 to 126). *)
Definition punctuation : str :=
  [33; 34; 35; 36; 37; 38; 39; 40; 41; 42; 43; 44; 45; 46; 47;
   58; 59; 60; 61; 62; 63; 64;
   91; 92; 93; 94; 95; 96;
   123; 124; 125; 126].

(** [c in s] for a character [c] and a string [s]. *)
Definition char_in (c : char) (s : str) : bool := existsb (Z.eqb c) s.

(** ** Exceptions *)

Inductive exn : Set :=
| AttributeError
| ValueError
| ZeroDivisionError
| StatisticsError.

Inductive result (A : Type) : Type :=
| Ok (a : A)
| Raised (e : exn).
Arguments Ok {A} a.
Arguments Raised {A} e.

Module Res.
Definition bind {A B : Type} (m : result A) (f : A -> result B) : result B :=
  match m with
  | Ok a => f a
  | Raised e => Raised e
  end.

(** A list comprehension whose body can raise: elements are evaluated
    left to right and the first exception escapes. *)
Fixpoint mapM {A B : Type} (f : A -> result B) (l : list A) : result (list B) :=
  match l with
  | [] => Ok []
  | a :: l' =>
      bind (f a) (fun b => bind (mapM f l') (fun bs => Ok (b :: bs)))
  end.
End Res.

Declare Scope res_scope.
Delimit Scope res_scope with res.
Notation "x <- m ;; k" := (Res.bind m (fun x => k))
  (at level 61, m at next level, right associativity) : res_scope.

(** ** Numbers *)

Definition Rltb (x y : R) : bool := if Rlt_dec x y then true else false.

(** [a / b] on two ints (true division). *)
Definition truediv (a b : Z) : result R :=
  if b =? 0 then Raised ZeroDivisionError else Ok (IZR a / IZR b)%R.

(** [math.log2]: raises [ValueError] outside the positive reals. *)
Definition math_log2 (x : R) : result R :=
  if Rltb 0 x then Ok (ln x / ln 2)%R else Raised ValueError.

(** [sum] over floats: starts from 0 and adds left to right. *)
Definition fsum (l : list R) : R := fold_left Rplus l 0%R.

(** [sum] over ints. *)
Definition isum (l : list Z) : Z := fold_left Z.add l 0.

(** ** collections.Counter

    A [Counter] is a dict: keys are kept in order of first insertion, and
    [items()] and [values()] enumerate in that order. *)

Section Counter.
Context {K : Type} (eqb : K -> K -> bool).

Fixpoint counter_incr (k : K) (c : list (K * Z)) : list (K * Z) :=
  match c with
  | [] => [(k, 1)]
  | (k', n) :: c' =>
      if eqb k k' then (k', n + 1) :: c' else (k', n) :: counter_incr k c'
  end.

Definition Counter (l : list K) : list (K * Z) :=
  fold_left (fun c k => counter_incr k c) l [].

Definition items (c : list (K * Z)) : list (K * Z) := c.
Definition values (c : list (K * Z)) : list Z := map snd c.

(** Number of elements of [l] equal to [k]. *)
Definition occurrences (k : K) (l : list K) : Z :=
  len (filter (eqb k) l).
End Counter.

(** ** Metrics / helpers *)

Section Metrics.
Local Open Scope res_scope.

Definition shannon_entropy (text : str) : result R :=
  if is_empty text then Ok 0%R
  else
    let freq := Counter Z.eqb text in
    let total := len text in
    probs <- Res.mapM (fun count => truediv count total) (values freq) ;;
    terms <- Res.mapM (fun p => l <- math_log2 p ;; Ok (p * l)%R)
                      (filter (fun p => Rltb 0 p) probs) ;;
    Ok (- fsum terms)%R.

Definition is_non_ascii_heavy (text : str) (threshold_ratio : R) : result bool :=
  if is_empty text then Ok false
  else
    let non_ascii := isum (map (fun _ => 1) (filter (fun c => 127 <? ord c) text)) in
    ratio <- truediv non_ascii (len text) ;;
    Ok (Rltb threshold_ratio ratio).

(** The default of [threshold_ratio]. *)
Definition default_threshold_ratio : R := 0.05%R.

Definition punctuation_density (text : str) : result R :=
  if is_empty text then Ok 0%R
  else
    let punct := isum (map (fun _ => 1) (filter (fun c => char_in c punctuation) text)) in
    truediv punct (len text).

(** [text.count("\n")]. *)
Definition newline_count (text : str) : Z :=
  len (filter (Z.eqb NEWLINE) text).
End Metrics.

(** ** Built-ins used by the validator *)

(** [sorted(l, key=key)]: ascending in the key and stable (elements with
    equal keys keep their order in [l]). *)
Fixpoint insert_by {A : Type} (key : A -> Z) (x : A) (l : list A) : list A :=
  match l with
  | [] => [x]
  | y :: l' => if key x <? key y then x :: l else y :: insert_by key x l'
  end.

Definition sorted {A : Type} (key : A -> Z) (l : list A) : list A :=
  fold_left (fun acc x => insert_by key x acc) l [].

(** [enumerate(l)]. *)
Definition enumerate {A : Type} (l : list A) : list (nat * A) :=
  combine (seq 0 (length l)) l.

(** [[i for i, x in enumerate(l) if f(x)]]. *)
Definition indices_where {A : Type} (f : A -> bool) (l : list A) : list nat :=
  map fst (filter (fun p => f (snd p)) (enumerate l)).

(** [min(l)] and [max(l)] raise [ValueError] on an empty list. *)
Definition py_min (l : list Z) : result Z :=
  match l with
  | [] => Raised ValueError
  | x :: l' => Ok (fold_left Z.min l' x)
  end.

Definition py_max (l : list Z) : result Z :=
  match l with
  | [] => Raised ValueError
  | x :: l' => Ok (fold_left Z.max l' x)
  end.

(** [statistics.median]: the middle element of the sorted data, or the
    mean of the two middle elements when their number is even. *)
Definition median (data : list Z) : result R :=
  let data := sorted (fun x => x) data in
  let n := length data in
  if (n =? 0)%nat then Raised StatisticsError
  else if (n mod 2 =? 1)%nat then Ok (IZR (nth (n / 2) data 0))
  else
    let i := (n / 2)%nat in
    let two_middle := nth (i - 1)%nat data 0 + nth i data 0 in
    Ok (IZR two_middle / 2)%R.

(** [s.replace(old, new)] for one-character [old] and [new]. *)
Definition replace (old new : char) (s : str) : str :=
  map (fun c => if c =? old then new else c) s.

(** The method call [txt.replace(old, new)] on a value that may be
    [None]: [None] has no such attribute. *)
Definition call_replace (txt : option str) (old new : char) : result str :=
  match txt with
  | Some s => Ok (replace old new s)
  | None => Raised AttributeError
  end.

(** The three compiled patterns are a character class or a literal;
    [re_search] tells whether [pattern.search(text)] finds a match. *)
Inductive pattern : Type :=
| CharClass (cs : list char)
| Literal (s : str).

Fixpoint starts_with (p s : str) : bool :=
  match p, s with
  | [], _ => true
  | _ :: _, [] => false
  | a :: p', b :: s' => (a =? b) && starts_with p' s'
  end.

Fixpoint find_literal (p s : str) : bool :=
  starts_with p s ||
  match s with
  | [] => false
  | _ :: s' => find_literal p s'
  end.

Definition re_search (p : pattern) (text : str) : bool :=
  match p with
  | CharClass cs => existsb (fun c => char_in c cs) text
  | Literal s => find_literal s text
  end.

Definition ligature_pattern : pattern := CharClass [LIGATURE_FI; LIGATURE_FL].
Definition replacement_char_pattern : pattern := CharClass [REPLACEMENT].
Definition hyphen_break_pattern : pattern := Literal [HYPHEN; NEWLINE].

(** ** Documents *)

Record Document : Type := {
  page_content : option str;
  metadata : list (str * str)
}.

(** [d.page_content or ""]. *)
Definition content_or_empty (d : Document) : str :=
  match page_content d with
  | Some s => if is_empty s then [] else s
  | None => []
  end.

Fixpoint str_eqb (a b : str) : bool :=
  match a, b with
  | [], [] => true
  | x :: a', y :: b' => (x =? y) && str_eqb a' b'
  | _, _ => false
  end.

(** Equality of two [page_content] values as dict keys: [None] equals
    only itself. *)
Definition content_eqb (a b : option str) : bool :=
  match a, b with
  | None, None => true
  | Some s, Some t => str_eqb s t
  | _, _ => false
  end.

(** ** The printed report

    One constructor per [print] call of [validate_docs], with the values
    it interpolates. *)

Inductive line : Type :=
| Banner                                        (* ========== CLEANLINESS VALIDATION ========== *)
| WarnNoDocs                                    (* [WARN] No documents loaded; nothing to validate. *)
| StatsHeader                                   (* [STATS] Chunk length (characters) *)
| StatsCount (n : Z)
| StatsMin (n : Z)
| StatsMax (n : Z)
| StatsAvg (x : R)
| StatsMedian (x : R)
| WarnVeryShort (n : Z) (examples : list nat)   (* [WARN] n chunks are very short (< 50 chars). *)
| WarnVeryLong (n : Z) (examples : list nat)    (* [WARN] n chunks are very long (> 8000 chars). *)
| DupHeader                                     (* [DUPLICATES] Checking for repeated chunks *)
| DupNone                                       (* No highly repeated chunks found (good). *)
| DupFound (n : Z)                              (* Found n chunk texts that repeat > 3 times. *)
| DupHint                                       (* This may indicate headers/footers ... *)
| DupEntry (rank : nat) (repeat_count : Z) (preview : str)
| EntropyHeader                                 (* [ENTROPY] Checking for low-entropy chunks *)
| EntropyLow (n : Z) (examples : list nat)      (* n chunks have low entropy (< 2.5). *)
| EntropyNone                                   (* No obviously low-entropy chunks detected. *)
| CharsHeader                                   (* [CHARS] Checking for weird characters *)
| CharsLigature (n : Z)                         (* [WARN] n chunks contain ligature characters *)
| CharsReplacement (n : Z)                      (* [WARN] n chunks contain the replacement char *)
| CharsHyphenBreak (n : Z)                      (* [WARN] n chunks contain hyphen line-break patterns *)
| CharsNonAscii (n : Z)                         (* [WARN] n chunks have a high proportion of non-ASCII *)
| CharsNone                                     (* No major weird-character issues detected. *)
| StructureHeader                               (* [STRUCTURE] Checking newline and punctuation patterns *)
| WarnManyNewlines (n : Z) (examples : list nat)
| WarnLowPunct (n : Z) (examples : list nat)
| PunctNormal                                   (* Punctuation patterns look normal for most chunks. *)
| WarnNearEmpty (n : Z) (examples : list nat)   (* [WARN] n chunks are empty or near-empty (< 5 chars). *)
| Complete                                      (* ========== VALIDATION COMPLETE ========== *)
| Interpretation                                (* Interpretation: *)
| Guidance (k : nat).                           (* the four fixed bullet lines *)

(** The part of the report a line belongs to, in the order of the
    comment banners of the source. *)
Inductive part : Set :=
| PBanner | PStats | PDuplicates | PEntropy | PChars | PStructure
| PNearEmpty | PClosing.

Definition part_rank (p : part) : nat :=
  match p with
  | PBanner => 0 | PStats => 1 | PDuplicates => 2 | PEntropy => 3
  | PChars => 4 | PStructure => 5 | PNearEmpty => 6 | PClosing => 7
  end%nat.

Definition part_of (l : line) : part :=
  match l with
  | Banner | WarnNoDocs => PBanner
  | StatsHeader | StatsCount _ | StatsMin _ | StatsMax _ | StatsAvg _
  | StatsMedian _ | WarnVeryShort _ _ | WarnVeryLong _ _ => PStats
  | DupHeader | DupNone | DupFound _ | DupHint | DupEntry _ _ _ => PDuplicates
  | EntropyHeader | EntropyLow _ _ | EntropyNone => PEntropy
  | CharsHeader | CharsLigature _ | CharsReplacement _ | CharsHyphenBreak _
  | CharsNonAscii _ | CharsNone => PChars
  | StructureHeader | WarnManyNewlines _ _ | WarnLowPunct _ _ | PunctNormal => PStructure
  | WarnNearEmpty _ _ => PNearEmpty
  | Complete | Interpretation | Guidance _ => PClosing
  end.

(** Lines whose text carries the [WARN] tag. *)
Definition is_warning (l : line) : bool :=
  match l with
  | WarnNoDocs | WarnVeryShort _ _ | WarnVeryLong _ _
  | CharsLigature _ | CharsReplacement _ | CharsHyphenBreak _ | CharsNonAscii _
  | WarnManyNewlines _ _ | WarnLowPunct _ _ | WarnNearEmpty _ _ => true
  | _ => false
  end.

(** Lines that report a computed figure: everything except the banner,
    the no-documents warning and the fixed closing text. *)
Definition is_statistic (l : line) : bool :=
  match part_of l with
  | PBanner | PClosing => false
  | _ => true
  end.

(** ** Running the validator

    [validate_docs] receives a reference to the caller's list of
    documents and prints; the [world] holds that list (which the callee
    could assign to) and the standard output.  What was printed before an
    exception escapes stays printed. *)

Record world : Type := {
  heap : list Document;
  stdout : list line
}.

Definition M (A : Type) : Type := world -> result A * world.

Module IO.
Definition ret {A : Type} (a : A) : M A := fun w => (Ok a, w).

Definition bind {A B : Type} (m : M A) (f : A -> M B) : M B :=
  fun w =>
    match m w with
    | (Ok a, w') => f a w'
    | (Raised e, w') => (Raised e, w')
    end.

Definition print (l : line) : M unit :=
  fun w => (Ok tt, {| heap := heap w; stdout := stdout w ++ [l] |}).

(** Reading the collection through the reference [docs]. *)
Definition get_docs : M (list Document) := fun w => (Ok (heap w), w).

(** Assigning through the reference: item or attribute assignment on
    the collection.  [validate_docs] has no such statement. *)
Definition set_docs (ds : list Document) : M unit :=
  fun w => (Ok tt, {| heap := ds; stdout := stdout w |}).

(** An expression that can raise, evaluated in a statement. *)
Definition lift {A : Type} (r : result A) : M A := fun w => (r, w).

(** [if b: body]. *)
Definition when (b : bool) (body : M unit) : M unit :=
  if b then body else ret tt.

(** [for x in l: body]. *)
Fixpoint for_each {A : Type} (l : list A) (body : A -> M unit) : M unit :=
  match l with
  | [] => ret tt
  | x :: l' => bind (body x) (fun _ => for_each l' body)
  end.
End IO.

Declare Scope io_scope.
Delimit Scope io_scope with io.
Notation "x <- m ;; k" := (IO.bind m (fun x => k))
  (at level 61, m at next level, right associativity) : io_scope.
Notation "m ;; k" := (IO.bind m (fun _ => k))
  (at level 61, right associativity) : io_scope.

(** ** Main validator *)

Record hits : Type := {
  ligature_hits : Z;
  replacement_hits : Z;
  hyphen_break_hits : Z;
  non_ascii_heavy_hits : Z
}.

Definition no_hits : hits :=
  {| ligature_hits := 0; replacement_hits := 0;
     hyphen_break_hits := 0; non_ascii_heavy_hits := 0 |}.

(** [any([a, b, c, d])] on four ints. *)
Definition any_hits (h : hits) : bool :=
  negb (ligature_hits h =? 0) || negb (replacement_hits h =? 0)
  || negb (hyphen_break_hits h =? 0) || negb (non_ascii_heavy_hits h =? 0).

(** The body of the loop [for d in docs] of the character checks. *)
Definition scan_doc (h : hits) (d : Document) : result hits :=
  let text := content_or_empty d in
  let l := if re_search ligature_pattern text
           then ligature_hits h + 1 else ligature_hits h in
  let r := if re_search replacement_char_pattern text
           then replacement_hits h + 1 else replacement_hits h in
  let b := if re_search hyphen_break_pattern text
           then hyphen_break_hits h + 1 else hyphen_break_hits h in
  Res.bind (is_non_ascii_heavy text default_threshold_ratio) (fun heavy =>
  let n := if heavy then non_ascii_heavy_hits h + 1 else non_ascii_heavy_hits h in
  Ok {| ligature_hits := l; replacement_hits := r;
        hyphen_break_hits := b; non_ascii_heavy_hits := n |}).

Fixpoint scan_docs (h : hits) (docs : list Document) : result hits :=
  match docs with
  | [] => Ok h
  | d :: docs' => Res.bind (scan_doc h d) (fun h' => scan_docs h' docs')
  end.

(** [lengths], [content_counts], [repeated], [entropies] and the index
    lists are the local variables of the same names. *)
Definition lengths_of (docs : list Document) : list Z :=
  map (fun d => len (content_or_empty d)) docs.

Definition content_counts (docs : list Document) : list (option str * Z) :=
  Counter content_eqb (map page_content docs).

Definition repeated (docs : list Document) : list (option str * Z) :=
  filter (fun x => 3 <? snd x) (items (content_counts docs)).

(** [sorted(repeated, key=lambda x: -x[1])[:5]]. *)
Definition top_repeated (docs : list Document) : list (option str * Z) :=
  firstn 5 (sorted (fun x => - snd x) (repeated docs)).

Definition entropies (docs : list Document) : result (list R) :=
  Res.mapM (fun d => shannon_entropy (content_or_empty d)) docs.

Definition low_entropy_indices (es : list R) : list nat :=
  indices_where (fun e => Rltb 0 e && Rltb e 2.5) es.

Section Validator.
Local Open Scope io_scope.
Import IO.

(** Basic length stats. *)
Definition length_stats : M (list Z) :=
  docs <- get_docs ;;
  let lengths := lengths_of docs in
  min_len <- lift (py_min lengths) ;;
  max_len <- lift (py_max lengths) ;;
  avg_len <- lift (truediv (isum lengths) (len lengths)) ;;
  median_len <- lift (median lengths) ;;
  print StatsHeader ;;
  print (StatsCount (len docs)) ;;
  print (StatsMin min_len) ;;
  print (StatsMax max_len) ;;
  print (StatsAvg avg_len) ;;
  print (StatsMedian median_len) ;;
  let very_short := indices_where (fun L => L <? 50) lengths in
  let very_long := indices_where (fun L => 8000 <? L) lengths in
  when (negb (is_empty very_short))
       (print (WarnVeryShort (len very_short) (firstn 10 very_short))) ;;
  when (negb (is_empty very_long))
       (print (WarnVeryLong (len very_long) (firstn 10 very_long))) ;;
  ret lengths.

(** Duplicate content detection. *)
Definition duplicate_detection : M unit :=
  print DupHeader ;;
  docs <- get_docs ;;
  if is_empty (repeated docs) then print DupNone
  else
    print (DupFound (len (repeated docs))) ;;
    print DupHint ;;
    for_each (enumerate (top_repeated docs))
      (fun '(i, (txt, c)) =>
         replaced <- lift (call_replace txt NEWLINE SPACE) ;;
         let preview := firstn 120 replaced in
         print (DupEntry (S i) c preview)).

(** Entropy analysis. *)
Definition entropy_analysis : M unit :=
  print EntropyHeader ;;
  docs <- get_docs ;;
  es <- lift (entropies docs) ;;
  let low := low_entropy_indices es in
  if negb (is_empty low)
  then print (EntropyLow (len low) (firstn 10 low))
  else print EntropyNone.

(** Weird character / OCR artifact checks. *)
Definition char_checks : M unit :=
  print CharsHeader ;;
  docs <- get_docs ;;
  h <- lift (scan_docs no_hits docs) ;;
  when (negb (ligature_hits h =? 0)) (print (CharsLigature (ligature_hits h))) ;;
  when (negb (replacement_hits h =? 0)) (print (CharsReplacement (replacement_hits h))) ;;
  when (negb (hyphen_break_hits h =? 0)) (print (CharsHyphenBreak (hyphen_break_hits h))) ;;
  when (negb (non_ascii_heavy_hits h =? 0)) (print (CharsNonAscii (non_ascii_heavy_hits h))) ;;
  when (negb (any_hits h)) (print CharsNone).

(** Newline + punctuation diagnostics. *)
Definition structure_checks (lengths : list Z) : M unit :=
  print StructureHeader ;;
  docs <- get_docs ;;
  let newline_counts := map (fun d => newline_count (content_or_empty d)) docs in
  let high_newline_indices := indices_where (fun n => 30 <? n) newline_counts in
  when (negb (is_empty high_newline_indices))
       (print (WarnManyNewlines (len high_newline_indices)
                                (firstn 10 high_newline_indices))) ;;
  punct_densities <-
    lift (Res.mapM (fun d => punctuation_density (content_or_empty d)) docs) ;;
  let low_punct_indices :=
    indices_where (fun '(dens, L) => (300 <? L) && Rltb dens 0.001)
                  (combine punct_densities lengths) in
  if negb (is_empty low_punct_indices)
  then print (WarnLowPunct (len low_punct_indices) (firstn 10 low_punct_indices))
  else print PunctNormal.

(** Empty / near-empty chunks. *)
Definition near_empty_chunks (lengths : list Z) : M unit :=
  let empty_indices := indices_where (fun L => L <? 5) lengths in
  when (negb (is_empty empty_indices))
       (print (WarnNearEmpty (len empty_indices) (firstn 10 empty_indices))).

Definition closing : M unit :=
  print Complete ;;
  print Interpretation ;;
  print (Guidance 1) ;;
  print (Guidance 2) ;;
  print (Guidance 3) ;;
  print (Guidance 4).

Definition validate_docs : M unit :=
  print Banner ;;
  docs <- get_docs ;;
  if is_empty docs then
    print WarnNoDocs                 (* return *)
  else
    lengths <- length_stats ;;
    duplicate_detection ;;
    entropy_analysis ;;
    char_checks ;;
    structure_checks lengths ;;
    near_empty_chunks lengths ;;
    closing.
End Validator.

(** A call of [validate_docs(docs)] from a fresh standard output. *)
Definition run {A : Type} (m : M A) (docs : list Document) : result A * world :=
  m {| heap := docs; stdout := [] |}.

Definition outcome (docs : list Document) : result unit :=
  fst (run validate_docs docs).

Definition report (docs : list Document) : list line :=
  stdout (snd (run validate_docs docs)).

Definition docs_after (docs : list Document) : list Document :=
  heap (snd (run validate_docs docs)).

(** ** The entropy scan in floating point

    The definitions above carry out the arithmetic of [shannon_entropy]
    exactly, whereas the interpreter rounds every division, logarithm,
    product and sum; a document whose exact entropy is 2.5 can so be
    computed just below 2.5 and flagged.  An [arith] gives the four
    operations as the interpreter performs them, on floats read as the
    real numbers they denote; nothing is assumed of them.  What involves
    no rounding is kept as it is: the early return on the empty text, the
    start of [sum] from 0, the negation, and the comparisons with 0 and
    2.5. *)
Record arith : Type := {
  fdiv : Z -> Z -> R;       (* a / b on two ints *)
  flog2 : R -> R;           (* math.log2(x) *)
  fmul : R -> R -> R;       (* x * y *)
  fadd : R -> R -> R        (* x + y *)
}.

(** The arithmetic without rounding. *)
Definition exact : arith :=
  {| fdiv := fun a b => (IZR a / IZR b)%R;
     flog2 := fun x => (ln x / ln 2)%R;
     fmul := Rmult;
     fadd := Rplus |}.

Section Rounded.
Variable F : arith.

Definition truediv_in (a b : Z) : result R :=
  if b =? 0 then Raised ZeroDivisionError else Ok (fdiv F a b).

Definition math_log2_in (x : R) : result R :=
  if Rltb 0 x then Ok (flog2 F x) else Raised ValueError.

Definition fsum_in (l : list R) : R := fold_left (fadd F) l 0%R.

Definition shannon_entropy_in (text : str) : result R :=
  if is_empty text then Ok 0%R
  else
    let freq := Counter Z.eqb text in
    let total := len text in
    (probs <- Res.mapM (fun count => truediv_in count total) (values freq) ;;
     terms <- Res.mapM (fun p => l <- math_log2_in p ;; Ok (fmul F p l))
                       (filter (fun p => Rltb 0 p) probs) ;;
     Ok (- fsum_in terms)%R)%res.

Definition entropies_in (docs : list Document) : result (list R) :=
  Res.mapM (fun d => shannon_entropy_in (content_or_empty d)) docs.

Import IO.
Local Open Scope io_scope.

Definition entropy_analysis_in : M unit :=
  print EntropyHeader ;;
  docs <- get_docs ;;
  es <- lift (entropies_in docs) ;;
  let low := low_entropy_indices es in
  if negb (is_empty low)
  then print (EntropyLow (len low) (firstn 10 low))
  else print EntropyNone.

Definition validate_docs_in : M unit :=
  print Banner ;;
  docs <- get_docs ;;
  if is_empty docs then
    print WarnNoDocs                 (* return *)
  else
    lengths <- length_stats ;;
    duplicate_detection ;;
    entropy_analysis_in ;;
    char_checks ;;
    structure_checks lengths ;;
    near_empty_chunks lengths ;;
    closing.
End Rounded.

Definition outcome_in (F : arith) (docs : list Document) : result unit :=
  fst (run (validate_docs_in F) docs).

Definition report_in (F : arith) (docs : list Document) : list line :=
  stdout (snd (run (validate_docs_in F) docs)).

(** The lines of one part of a report, in order. *)
Definition lines_of (p : part) (ls : list line) : list line :=
  filter (fun l => (part_rank (part_of l) =? part_rank p)%nat) ls.

(** [c[k]] on a Counter: the stored count, 0 for a missing key. *)
Definition count_of {K : Type} (eqb : K -> K -> bool) (k : K) (c : list (K * Z)) : Z :=
  match find (fun kv => eqb k (fst kv)) c with
  | Some kv => snd kv
  | None => 0
  end.

(** The text of the example of the specification: c a f e-acute, a
    space, n a i-diaeresis v e. *)
Definition cafe_naive : str := [99; 97; 102; 233; 32; 110; 97; 239; 118; 101].

(** [m] run on [docs] from an empty standard output: its result and what
    it printed. *)
Definition exec {A : Type} (m : M A) (docs : list Document) : result A * list line :=
  (fst (run m docs), stdout (snd (run m docs))).

(** [m] leaves the collection as it found it, appends to the standard
    output, and neither its result nor what it prints depends on what was
    printed before. *)
Definition reads_only {A : Type} (m : M A) : Prop :=
  forall w : world,
    m w = (fst (exec m (heap w)),
           {| heap := heap w; stdout := stdout w ++ snd (exec m (heap w)) |}).

(** ** Vocabulary of the statements *)

(** The order in which [sorted] leaves the keys. *)
Definition key_le {A : Type} (key : A -> Z) (a b : A) : Prop := key a <= key b.

(** What [m] prints on [docs]. *)
Definition printed {A : Type} (m : M A) (docs : list Document) : list line :=
  snd (exec m docs).

(** The order of the parts, on lines. *)
Definition rank_le (a b : line) : Prop :=
  (part_rank (part_of a) <= part_rank (part_of b))%nat.

Definition all_of (p : part) (ls : list line) : Prop :=
  Forall (fun l => part_of l = p) ls.

(** The contents of the documents, as the keys of [content_counts]. *)
Definition contents (docs : list Document) : list (option str) := map page_content docs.

(** *** The lines of each part, from the values they show *)

(** The two warnings on extreme lengths. *)
Definition stats_warnings (lengths : list Z) : list line :=
  let very_short := indices_where (fun L => L <? 50) lengths in
  let very_long := indices_where (fun L => 8000 <? L) lengths in
  (if negb (is_empty very_short)
   then [WarnVeryShort (len very_short) (firstn 10 very_short)] else [])
  ++ (if negb (is_empty very_long)
      then [WarnVeryLong (len very_long) (firstn 10 very_long)] else []).

(** The preview of a repeated text. *)
Definition preview_of (s : str) : str := firstn 120 (replace NEWLINE SPACE s).

Definition entry_line (x : nat * (option str * Z)) : line :=
  DupEntry (S (fst x)) (snd (snd x))
           (preview_of (match fst (snd x) with Some s => s | None => [] end)).

Definition dup_lines (docs : list Document) : list line :=
  if is_empty (repeated docs) then [DupNone]
  else DupFound (len (repeated docs)) :: DupHint
       :: map entry_line (enumerate (top_repeated docs)).

(** The four detectors of the character checks, on one document. *)
Definition trips_ligature (d : Document) : bool :=
  re_search ligature_pattern (content_or_empty d).
Definition trips_replacement (d : Document) : bool :=
  re_search replacement_char_pattern (content_or_empty d).
Definition trips_hyphen_break (d : Document) : bool :=
  re_search hyphen_break_pattern (content_or_empty d).
Definition trips_non_ascii (d : Document) : bool :=
  match is_non_ascii_heavy (content_or_empty d) default_threshold_ratio with
  | Ok b => b
  | Raised _ => false
  end.

Definition count_docs (f : Document -> bool) (docs : list Document) : Z :=
  len (filter f docs).

Definition tally (docs : list Document) : hits :=
  {| ligature_hits := count_docs trips_ligature docs;
     replacement_hits := count_docs trips_replacement docs;
     hyphen_break_hits := count_docs trips_hyphen_break docs;
     non_ascii_heavy_hits := count_docs trips_non_ascii docs |}.

Definition chars_lines (h : hits) : list line :=
  (if negb (ligature_hits h =? 0) then [CharsLigature (ligature_hits h)] else [])
  ++ (if negb (replacement_hits h =? 0) then [CharsReplacement (replacement_hits h)] else [])
  ++ (if negb (hyphen_break_hits h =? 0) then [CharsHyphenBreak (hyphen_break_hits h)] else [])
  ++ (if negb (non_ascii_heavy_hits h =? 0) then [CharsNonAscii (non_ascii_heavy_hits h)] else [])
  ++ (if negb (any_hits h) then [CharsNone] else []).

Definition entropy_lines (es : list R) : list line :=
  let low := low_entropy_indices es in
  [if negb (is_empty low) then EntropyLow (len low) (firstn 10 low) else EntropyNone].

Definition near_empty_lines (lengths : list Z) : list line :=
  let empty_indices := indices_where (fun L => L <? 5) lengths in
  if negb (is_empty empty_indices)
  then [WarnNearEmpty (len empty_indices) (firstn 10 empty_indices)] else [].

Definition structure_lines (docs : list Document) (ds : list R) (lengths : list Z) : list line :=
  let high := indices_where (fun n => 30 <? n)
                (map (fun d => newline_count (content_or_empty d)) docs) in
  let low := indices_where (fun '(dens, L) => (300 <? L) && Rltb dens 0.001)
                (combine ds lengths) in
  (if negb (is_empty high) then [WarnManyNewlines (len high) (firstn 10 high)] else [])
  ++ [if negb (is_empty low) then WarnLowPunct (len low) (firstn 10 low) else PunctNormal].

(** Lines of rank at least [n]. *)
Definition from_rank (n : nat) (ls : list line) : Prop :=
  Forall (fun l => (n <= part_rank (part_of l))%nat) ls.

(** What [closing] prints. *)
Definition closing_lines : list line :=
  [Complete; Interpretation; Guidance 1; Guidance 2; Guidance 3; Guidance 4].

(** Documents used as examples: one whose content is missing, one whose
    content is the empty string, and one holding a given text. *)
Definition missing : Document := {| page_content := None; metadata := [] |}.
Definition blank : Document := {| page_content := Some []; metadata := [] |}.
Definition doc (s : str) : Document := {| page_content := Some s; metadata := [] |}.

(** ** Vocabulary of the further properties *)

(** Number of characters of [text] above code point 127. *)
Definition non_ascii_count (text : str) : Z :=
  len (filter (fun c => 127 <? ord c) text).

(** Number of punctuation characters of [text]. *)
Definition punct_count (text : str) : Z :=
  len (filter (fun c => char_in c punctuation) text).

(** A document with more than 30 newlines. *)
Definition many_newlines (d : Document) : bool :=
  30 <? newline_count (content_or_empty d).

(** A document of more than 300 characters with fewer than one
    punctuation character per thousand. *)
Definition low_punct (d : Document) : bool :=
  (300 <? len (content_or_empty d))
  && (1000 * punct_count (content_or_empty d) <? len (content_or_empty d)).

(** The example indices shown by a line, and the number of flagged
    documents it announces. *)
Definition examples_of (l : line) : list nat :=
  match l with
  | WarnVeryShort _ ex | WarnVeryLong _ ex | EntropyLow _ ex
  | WarnManyNewlines _ ex | WarnLowPunct _ ex | WarnNearEmpty _ ex => ex
  | _ => []
  end.

Definition flagged_of (l : line) : Z :=
  match l with
  | WarnVeryShort n _ | WarnVeryLong n _ | EntropyLow n _
  | WarnManyNewlines n _ | WarnLowPunct n _ | WarnNearEmpty n _ => n
  | _ => 0
  end.

(** The examples of a line are positions below [n], increasing, at most
    10, and as many as the flagged documents up to 10. *)
Definition examples_ok (n : nat) (l : line) : Prop :=
  Forall (fun i => (i < n)%nat) (examples_of l)
  /\ StronglySorted lt (examples_of l)
  /\ len (examples_of l) = Z.min 10 (flagged_of l)
  /\ 0 <= flagged_of l <= Z.of_nat n.

(** ** Entry point

    Run as a script, the module loads the documents, validates them and
    then prints the content of the documents at positions 8 and 16.  The
    loader is outside the module: [main] takes the list it returned. *)

Inductive script_line : Type :=
| Loaded (n : Z)                  (* [LOAD] Loaded n documents from path *)
| Report (l : line)               (* a line printed by validate_docs *)
| Content (c : option str).       (* print(docs[i].page_content) *)

Inductive script_exn : Set :=
| Propagated (e : exn)            (* raised inside validate_docs *)
| IndexError.                     (* docs[i] out of range *)

(** [docs[i]] for a non-negative literal [i]. *)
Definition getitem {A : Type} (l : list A) (i : nat) : A + script_exn :=
  match nth_error l i with
  | Some a => inl a
  | None => inr IndexError
  end.

Definition main (loaded : list Document) : option script_exn * list script_line :=
  let out := [Loaded (len loaded)] in
  let (r, w) := run validate_docs loaded in
  let out := out ++ map Report (stdout w) in
  match r with
  | Raised e => (Some (Propagated e), out)
  | Ok _ =>
      match getitem (heap w) 8 with
      | inr e => (Some e, out)
      | inl d8 =>
          let out := out ++ [Content (page_content d8)] in
          match getitem (heap w) 16 with
          | inr e => (Some e, out)
          | inl d16 => (None, out ++ [Content (page_content d16)])
          end
      end
  end.

(** The document with a missing content replaced by the empty string. *)
Definition fill (d : Document) : Document :=
  {| page_content := Some (content_or_empty d); metadata := metadata d |}.

(** * Properties *)

(** ** Comparisons on reals *)

Lemma Rltb_true (x y : R) : Rltb x y = true <-> (x < y)%R.
Proof.
  unfold Rltb. destruct (Rlt_dec x y); split; intros; try discriminate; tauto.
Qed.

Lemma Rltb_false (x y : R) : Rltb x y = false <-> (y <= x)%R.
Proof.
  unfold Rltb. destruct (Rlt_dec x y); split; intros; try discriminate; try lra;
    reflexivity.
Qed.

Lemma len_nonneg {A : Type} (l : list A) : 0 <= len l.
Proof. unfold len. lia. Qed.

Lemma len_cons {A : Type} (x : A) (l : list A) : len (x :: l) = len l + 1.
Proof. unfold len. simpl length. lia. Qed.

Lemma len_app {A : Type} (l1 l2 : list A) : len (l1 ++ l2) = len l1 + len l2.
Proof. unfold len. rewrite length_app. lia. Qed.

Lemma is_empty_false_len {A : Type} (l : list A) : is_empty l = false <-> 0 < len l.
Proof.
  destruct l as [|a l]; simpl; split; intros H; try reflexivity.
  - discriminate.
  - unfold len in H. simpl in H. lia.
Qed.

(** ** The result monad *)

Lemma mapM_ok {A B : Type} (f : A -> result B) (g : A -> B) (l : list A) :
  (forall a, In a l -> f a = Ok (g a)) -> Res.mapM f l = Ok (map g l).
Proof.
  induction l as [|a l IH]; intros H; simpl.
  - reflexivity.
  - rewrite (H a (or_introl eq_refl)). simpl.
    rewrite IH by (intros; apply H; right; assumption).
    reflexivity.
Qed.

Lemma mapM_length {A B : Type} (f : A -> result B) (l : list A) (bs : list B) :
  Res.mapM f l = Ok bs -> length bs = length l.
Proof.
  revert bs. induction l as [|a l IH]; simpl; intros bs H.
  - inversion H. reflexivity.
  - destruct (f a) as [b|e]; simpl in H; [|discriminate].
    destruct (Res.mapM f l) as [bs'|e]; simpl in H; [|discriminate].
    inversion H. simpl. f_equal. apply IH. reflexivity.
Qed.

Lemma mapM_nth {A B : Type} (f : A -> result B) (l : list A) (bs : list B) :
  Res.mapM f l = Ok bs ->
  forall i a, nth_error l i = Some a ->
  exists b, nth_error bs i = Some b /\ f a = Ok b.
Proof.
  revert bs. induction l as [|x l IH]; simpl; intros bs H i a Hi.
  - destruct i; discriminate.
  - destruct (f x) as [b|e] eqn:Hx; simpl in H; [|discriminate].
    destruct (Res.mapM f l) as [bs'|e]; simpl in H; [|discriminate].
    inversion H; subst bs. destruct i as [|i]; simpl in *.
    + inversion Hi; subst a. exists b. split; [reflexivity | assumption].
    + apply (IH bs' eq_refl i a Hi).
Qed.

(** ** Counter *)

Section CounterFacts.
Context {K : Type} (eqb : K -> K -> bool).
Hypothesis eqb_spec : forall x y, reflect (x = y) (eqb x y).

Lemma eqb_refl_K (x : K) : eqb x x = true.
Proof. destruct (eqb_spec x x); [reflexivity | congruence]. Qed.

Lemma Counter_snoc (l : list K) (x : K) :
  Counter eqb (l ++ [x]) = counter_incr eqb x (Counter eqb l).
Proof. unfold Counter. rewrite fold_left_app. reflexivity. Qed.

Lemma count_of_incr (k x : K) (c : list (K * Z)) :
  count_of eqb k (counter_incr eqb x c)
  = count_of eqb k c + (if eqb k x then 1 else 0).
Proof.
  unfold count_of. induction c as [|[k' n] c IH]; simpl.
  - destruct (eqb k x); reflexivity.
  - destruct (eqb_spec x k') as [->|Hx]; simpl.
    + destruct (eqb_spec k k') as [->|Hk]; simpl; lia.
    + destruct (eqb_spec k k') as [->|Hk]; simpl.
      * destruct (eqb_spec k' x); [congruence | lia].
      * apply IH.
Qed.

Lemma occurrences_snoc (k x : K) (l : list K) :
  occurrences eqb k (l ++ [x])
  = occurrences eqb k l + (if eqb k x then 1 else 0).
Proof.
  unfold occurrences. rewrite filter_app, len_app. simpl.
  destruct (eqb k x); reflexivity.
Qed.

Lemma count_of_Counter (k : K) (l : list K) :
  count_of eqb k (Counter eqb l) = occurrences eqb k l.
Proof.
  induction l as [|x l IH] using rev_ind.
  - reflexivity.
  - rewrite Counter_snoc, count_of_incr, occurrences_snoc, IH. reflexivity.
Qed.

Lemma keys_incr (x : K) (c : list (K * Z)) :
  map fst (counter_incr eqb x c)
  = if existsb (eqb x) (map fst c) then map fst c else map fst c ++ [x].
Proof.
  induction c as [|[k' n] c IH]; simpl.
  - reflexivity.
  - destruct (eqb x k'); simpl; [reflexivity|].
    rewrite IH. destruct (existsb (eqb x) (map fst c)); reflexivity.
Qed.

Lemma existsb_eqb_In (x : K) (l : list K) :
  existsb (eqb x) l = true <-> In x l.
Proof.
  rewrite existsb_exists. split.
  - intros [y [Hy E]]. destruct (eqb_spec x y); [subst; assumption | discriminate].
  - intros H. exists x. split; [assumption | apply eqb_refl_K].
Qed.

Lemma keys_incr_NoDup (x : K) (c : list (K * Z)) :
  NoDup (map fst c) -> NoDup (map fst (counter_incr eqb x c)).
Proof.
  intros H. rewrite keys_incr.
  destruct (existsb (eqb x) (map fst c)) eqn:E; [assumption|].
  apply NoDup_app; [assumption | constructor; [intros [] | constructor] |].
  intros y Hy [<-|[]].
  apply existsb_eqb_In in Hy. congruence.
Qed.

Lemma values_incr_pos (x : K) (c : list (K * Z)) :
  Forall (fun kv => 0 < snd kv) c ->
  Forall (fun kv => 0 < snd kv) (counter_incr eqb x c).
Proof.
  induction 1 as [|[k' n] c Hn Hc IH]; simpl.
  - constructor; [simpl; lia | constructor].
  - destruct (eqb x k'); constructor; simpl in *; auto; lia.
Qed.

Lemma Counter_NoDup (l : list K) : NoDup (map fst (Counter eqb l)).
Proof.
  induction l as [|x l IH] using rev_ind.
  - constructor.
  - rewrite Counter_snoc. apply keys_incr_NoDup, IH.
Qed.

Lemma Counter_pos (l : list K) : Forall (fun kv => 0 < snd kv) (Counter eqb l).
Proof.
  induction l as [|x l IH] using rev_ind.
  - constructor.
  - rewrite Counter_snoc. apply values_incr_pos, IH.
Qed.

Lemma count_of_In (k : K) (n : Z) (c : list (K * Z)) :
  NoDup (map fst c) -> In (k, n) c -> count_of eqb k c = n.
Proof.
  unfold count_of. induction c as [|[k' m] c IH]; simpl; intros Hnd Hin.
  - contradiction.
  - inversion Hnd as [|? ? Hnotin Hnd']; subst.
    destruct Hin as [E|Hin].
    + inversion E; subst. rewrite eqb_refl_K. reflexivity.
    + destruct (eqb_spec k k') as [->|Hk]; simpl.
      * exfalso. apply Hnotin. apply (in_map fst) in Hin. exact Hin.
      * apply IH; assumption.
Qed.

Lemma count_of_pos_In (k : K) (c : list (K * Z)) :
  0 < count_of eqb k c -> In (k, count_of eqb k c) c.
Proof.
  unfold count_of. destruct (find _ c) as [[k' n]|] eqn:F; simpl; [|lia].
  intros _. apply find_some in F. destruct F as [Hin E]. simpl in E.
  destruct (eqb_spec k k'); [subst; assumption | discriminate].
Qed.

(** The items of a Counter are the distinct elements with their number
    of occurrences. *)
Lemma Counter_items (l : list K) (k : K) (n : Z) :
  In (k, n) (Counter eqb l) <-> n = occurrences eqb k l /\ 0 < n.
Proof.
  split.
  - intros H. pose proof (count_of_In k n _ (Counter_NoDup l) H) as E.
    rewrite count_of_Counter in E. split; [congruence|].
    pose proof (Counter_pos l) as P. rewrite Forall_forall in P.
    apply (P (k, n) H).
  - intros [-> Hpos]. rewrite <- count_of_Counter in *.
    apply count_of_pos_In. assumption.
Qed.

Lemma occurrences_le_len (k : K) (l : list K) : occurrences eqb k l <= len l.
Proof.
  unfold occurrences, len. pose proof (filter_length_le (eqb k) l). lia.
Qed.

Lemma occurrences_pos_In (k : K) (l : list K) :
  0 < occurrences eqb k l <-> In k l.
Proof.
  unfold occurrences, len. split.
  - intros H. destruct (filter (eqb k) l) as [|y f] eqn:F; [simpl in H; lia|].
    assert (Hy : In y (filter (eqb k) l)) by (rewrite F; left; reflexivity).
    apply filter_In in Hy. destruct Hy as [Hy E].
    destruct (eqb_spec k y); [subst; assumption | discriminate].
  - intros H.
    assert (Hk : In k (filter (eqb k) l)).
    { apply filter_In. split; [assumption | apply eqb_refl_K]. }
    destruct (filter (eqb k) l); [contradiction | simpl; lia].
Qed.
End CounterFacts.

(** ** Entropy *)

Lemma fold_left_Rplus_nonpos (l : list R) (acc : R) :
  Forall (fun t => t <= 0)%R l -> (acc <= 0)%R -> (fold_left Rplus l acc <= 0)%R.
Proof.
  intros H. revert acc. induction H as [|t l Ht Hl IH]; simpl; intros acc Hacc.
  - assumption.
  - apply IH. lra.
Qed.

Lemma log2_term_nonpos (p : R) :
  (0 < p <= 1)%R -> (p * (ln p / ln 2) <= 0)%R.
Proof.
  intros [Hp Hp1].
  assert (Hln : (ln p <= 0)%R).
  { rewrite <- ln_1. destruct Hp1 as [Hlt | Heq].
    - left. apply ln_increasing; assumption.
    - right. rewrite Heq. reflexivity. }
  assert (H2 : (0 < ln 2)%R).
  { rewrite <- ln_1. apply ln_increasing; lra. }
  assert (Hi : (0 < / ln 2)%R) by (apply Rinv_0_lt_compat; assumption).
  unfold Rdiv.
  pose proof (Rmult_le_pos (- ln p) (/ ln 2) ltac:(lra) ltac:(lra)) as Hq.
  pose proof (Rmult_le_pos p (- ln p * / ln 2) ltac:(lra) Hq) as Ht.
  lra.
Qed.

Lemma Z_eqb_reflect (x y : Z) : reflect (x = y) (x =? y).
Proof. apply Z.eqb_spec. Qed.

Lemma Counter_values_bounds (text : str) (v : Z) :
  In v (values (Counter Z.eqb text)) -> 0 < v <= len text.
Proof.
  unfold values. rewrite in_map_iff. intros [[k n] [E H]]. simpl in E. subst n.
  apply (Counter_items Z.eqb Z_eqb_reflect) in H. destruct H as [-> Hpos].
  split; [assumption | apply occurrences_le_len].
Qed.

Lemma prob_bounds (v total : Z) :
  0 < v <= total -> (0 < IZR v / IZR total <= 1)%R.
Proof.
  intros [Hv Ht].
  assert (Hv' : (0 < IZR v)%R) by (apply IZR_lt; assumption).
  assert (Ht' : (IZR v <= IZR total)%R) by (apply IZR_le; assumption).
  assert (Hpos : (0 < IZR total)%R) by lra.
  split.
  - apply Rdiv_lt_0_compat; assumption.
  - apply Rmult_le_reg_r with (r := IZR total); [assumption|].
    unfold Rdiv. rewrite Rmult_assoc, Rinv_l by lra. lra.
Qed.

Lemma filter_all {A : Type} (f : A -> bool) (l : list A) :
  (forall a, In a l -> f a = true) -> filter f l = l.
Proof.
  induction l as [|a l IH]; simpl; intros H; [reflexivity|].
  rewrite (H a (or_introl eq_refl)). f_equal. apply IH. intros; apply H; right; assumption.
Qed.

(** On a non-empty text, the entropy is minus the sum of p * log2 p over
    the relative frequencies of its characters; nothing raises. *)
Lemma shannon_entropy_eq (text : str) :
  is_empty text = false ->
  shannon_entropy text =
  Ok (- fsum (map (fun v => let p := IZR v / IZR (len text) in p * (ln p / ln 2))
                  (values (Counter Z.eqb text))))%R.
Proof.
  intros Hne. unfold shannon_entropy. rewrite Hne.
  apply is_empty_false_len in Hne.
  set (vs := values (Counter Z.eqb text)).
  assert (Hb : forall v, In v vs -> (0 < IZR v / IZR (len text) <= 1)%R).
  { intros v Hv. apply prob_bounds, Counter_values_bounds, Hv. }
  rewrite (mapM_ok _ (fun v => IZR v / IZR (len text))%R).
  2:{ intros v Hv. unfold truediv. destruct (Z.eqb_spec (len text) 0); [lia | reflexivity]. }
  simpl. rewrite filter_all.
  2:{ intros p Hp. apply in_map_iff in Hp. destruct Hp as [v [<- Hv]].
      apply Rltb_true. apply (Hb v Hv). }
  rewrite (mapM_ok _ (fun p => p * (ln p / ln 2))%R).
  2:{ intros p Hp. apply in_map_iff in Hp. destruct Hp as [v [<- Hv]].
      unfold math_log2. rewrite (proj2 (Rltb_true _ _) (proj1 (Hb v Hv))).
      reflexivity. }
  simpl. rewrite map_map. reflexivity.
Qed.

Lemma Counter_repeat (c : char) (n : nat) :
  Counter Z.eqb (repeat c (S n)) = [(c, Z.of_nat (S n))].
Proof.
  induction n as [|n IH].
  - reflexivity.
  - replace (repeat c (S (S n))) with (repeat c (S n) ++ [c]).
    + rewrite (Counter_snoc Z.eqb), IH. simpl counter_incr. rewrite Z.eqb_refl.
      f_equal. f_equal. lia.
    + change [c] with (repeat c 1). rewrite <- repeat_app. f_equal. lia.
Qed.

Lemma shannon_entropy_repeat (c : char) (n : nat) :
  shannon_entropy (repeat c (S n)) = Ok 0%R.
Proof.
  rewrite shannon_entropy_eq by reflexivity.
  assert (Hlen : len (repeat c (S n)) = Z.of_nat (S n))
    by (unfold len; rewrite repeat_length; reflexivity).
  rewrite Counter_repeat, Hlen.
  assert (Hp : (0 < IZR (Z.of_nat (S n)))%R) by (apply IZR_lt; lia).
  remember (Z.of_nat (S n)) as z eqn:Hz. clear Hz Hlen.
  unfold values, fsum. simpl.
  replace (IZR z / IZR z)%R with 1%R by (field; lra).
  rewrite ln_1. f_equal. lra.
Qed.

Lemma shannon_entropy_total (T : str) :
  exists e : R, shannon_entropy T = Ok e /\ (0 <= e)%R.
Proof.
  destruct (is_empty T) eqn:E.
  - exists 0%R. unfold shannon_entropy. rewrite E. split; [reflexivity | lra].
  - rewrite (shannon_entropy_eq T E). eexists. split; [reflexivity|].
    apply is_empty_false_len in E.
    assert (H : (fsum (map (fun v => let p := IZR v / IZR (len T) in p * (ln p / ln 2))
                   (values (Counter Z.eqb T))) <= 0)%R).
    { unfold fsum. apply fold_left_Rplus_nonpos; [|lra].
      apply Forall_forall. intros t Ht. apply in_map_iff in Ht.
      destruct Ht as [v [<- Hv]]. cbv zeta.
      apply log2_term_nonpos, prob_bounds, Counter_values_bounds, Hv. }
    lra.
Qed.

(** ** Statements of the validator *)

Section ReadsOnly.
Import IO.

Lemma world_eta (w : world) : {| heap := heap w; stdout := stdout w |} = w.
Proof. destruct w; reflexivity. Qed.

Lemma reads_only_ret {A : Type} (a : A) : reads_only (ret a).
Proof.
  intros w. unfold exec, run, ret. simpl. rewrite app_nil_r, world_eta. reflexivity.
Qed.

Lemma reads_only_print (l : line) : reads_only (print l).
Proof. intros w. reflexivity. Qed.

Lemma reads_only_get_docs : reads_only get_docs.
Proof.
  intros w. unfold exec, run, get_docs. simpl. rewrite app_nil_r, world_eta. reflexivity.
Qed.

Lemma reads_only_lift {A : Type} (r : result A) : reads_only (lift r).
Proof.
  intros w. unfold exec, run, lift. simpl. rewrite app_nil_r, world_eta. reflexivity.
Qed.

Lemma exec_bind {A B : Type} (m : M A) (f : A -> M B) (docs : list Document) :
  reads_only m -> (forall a, reads_only (f a)) ->
  exec (bind m f) docs =
  match exec m docs with
  | (Ok a, l1) => (fst (exec (f a) docs), l1 ++ snd (exec (f a) docs))
  | (Raised e, l1) => (Raised e, l1)
  end.
Proof.
  intros Hm Hf. unfold exec at 1. unfold run, bind.
  rewrite (Hm {| heap := docs; stdout := [] |}). cbn [heap stdout app].
  destruct (exec m docs) as [[a|e] l1]; cbn [fst snd]; [|reflexivity].
  rewrite (Hf a). reflexivity.
Qed.

Lemma reads_only_bind {A B : Type} (m : M A) (f : A -> M B) :
  reads_only m -> (forall a, reads_only (f a)) -> reads_only (bind m f).
Proof.
  intros Hm Hf w. rewrite (exec_bind m f (heap w) Hm Hf).
  unfold bind. rewrite (Hm w).
  destruct (exec m (heap w)) as [[a|e] l1]; cbn [fst snd]; [|reflexivity].
  rewrite (Hf a). cbn [heap stdout]. rewrite app_assoc. reflexivity.
Qed.

Lemma reads_only_if {A : Type} (b : bool) (m1 m2 : M A) :
  reads_only m1 -> reads_only m2 -> reads_only (if b then m1 else m2).
Proof. destruct b; auto. Qed.

Lemma reads_only_when (b : bool) (m : M unit) :
  reads_only m -> reads_only (when b m).
Proof. intros H. unfold when. apply reads_only_if; [assumption | apply reads_only_ret]. Qed.

Lemma reads_only_for_each {A : Type} (l : list A) (body : A -> M unit) :
  (forall x, reads_only (body x)) -> reads_only (for_each l body).
Proof.
  intros H. induction l as [|x l IH]; simpl.
  - apply reads_only_ret.
  - apply reads_only_bind; [apply H | intros _; apply IH].
Qed.
End ReadsOnly.

Ltac reads_only_tac :=
  repeat first
    [ apply reads_only_ret
    | apply reads_only_print
    | apply reads_only_get_docs
    | apply reads_only_lift
    | apply reads_only_when
    | apply reads_only_if
    | apply reads_only_for_each; intros [? [? ?]]
    | apply reads_only_bind; [ | intros ? ]
    | progress cbv zeta ].

Lemma reads_only_length_stats : reads_only length_stats.
Proof. unfold length_stats. reads_only_tac. Qed.

Lemma reads_only_duplicate_detection : reads_only duplicate_detection.
Proof. unfold duplicate_detection. reads_only_tac. Qed.

Lemma reads_only_entropy_analysis : reads_only entropy_analysis.
Proof. unfold entropy_analysis. reads_only_tac. Qed.

Lemma reads_only_char_checks : reads_only char_checks.
Proof. unfold char_checks. reads_only_tac. Qed.

Lemma reads_only_structure_checks (lengths : list Z) : reads_only (structure_checks lengths).
Proof. unfold structure_checks. reads_only_tac. Qed.

Lemma reads_only_near_empty_chunks (lengths : list Z) : reads_only (near_empty_chunks lengths).
Proof. unfold near_empty_chunks. reads_only_tac. Qed.

Lemma reads_only_closing : reads_only closing.
Proof. unfold closing. reads_only_tac. Qed.

Lemma reads_only_validate_docs : reads_only validate_docs.
Proof.
  unfold validate_docs.
  apply reads_only_bind; [apply reads_only_print | intros _].
  apply reads_only_bind; [apply reads_only_get_docs | intros docs].
  apply reads_only_if; [apply reads_only_print|].
  apply reads_only_bind; [apply reads_only_length_stats | intros lengths].
  apply reads_only_bind; [apply reads_only_duplicate_detection | intros _].
  apply reads_only_bind; [apply reads_only_entropy_analysis | intros _].
  apply reads_only_bind; [apply reads_only_char_checks | intros _].
  apply reads_only_bind; [apply reads_only_structure_checks | intros _].
  apply reads_only_bind; [apply reads_only_near_empty_chunks | intros _].
  apply reads_only_closing.
Qed.

Section Exec.
Import IO.

Lemma exec_ret {A : Type} (a : A) docs : exec (ret a) docs = (Ok a, []).
Proof. reflexivity. Qed.

Lemma exec_print (l : line) docs : exec (print l) docs = (Ok tt, [l]).
Proof. reflexivity. Qed.

Lemma exec_print_bind {B : Type} (l : line) (k : unit -> M B) docs :
  (forall u, reads_only (k u)) ->
  exec (bind (print l) k) docs = (fst (exec (k tt) docs), l :: snd (exec (k tt) docs)).
Proof.
  intros Hk. rewrite exec_bind by (auto using reads_only_print). reflexivity.
Qed.

Lemma exec_get_docs_bind {B : Type} (k : list Document -> M B) docs :
  (forall ds, reads_only (k ds)) ->
  exec (bind get_docs k) docs = exec (k docs) docs.
Proof.
  intros Hk. rewrite exec_bind by (auto using reads_only_get_docs).
  change (exec get_docs docs) with (Ok docs, @nil line). cbv beta iota.
  cbn [app]. symmetry. apply surjective_pairing.
Qed.

Lemma exec_lift_bind {A B : Type} (r : result A) (k : A -> M B) docs :
  (forall a, reads_only (k a)) ->
  exec (bind (lift r) k) docs =
  match r with
  | Ok a => exec (k a) docs
  | Raised e => (Raised e, [])
  end.
Proof.
  intros Hk. rewrite exec_bind by (auto using reads_only_lift).
  change (exec (lift r) docs) with (r, @nil line).
  destruct r as [a|e]; [|reflexivity]. cbv beta iota.
  cbn [app]. symmetry. apply surjective_pairing.
Qed.

Lemma exec_when_print (b : bool) (l : line) docs :
  exec (when b (print l)) docs = (Ok tt, if b then [l] else []).
Proof. destruct b; reflexivity. Qed.

Lemma exec_when_print_bind {B : Type} (b : bool) (l : line) (k : unit -> M B) docs :
  (forall u, reads_only (k u)) ->
  exec (bind (when b (print l)) k) docs
  = (fst (exec (k tt) docs), (if b then [l] else []) ++ snd (exec (k tt) docs)).
Proof.
  intros Hk. rewrite exec_bind by (auto using reads_only_when, reads_only_print).
  rewrite exec_when_print. reflexivity.
Qed.

Lemma exec_then {A B : Type} (m : M A) (k : A -> M B) docs (a : A) (ls : list line) :
  exec m docs = (Ok a, ls) ->
  reads_only m -> (forall x, reads_only (k x)) ->
  exec (bind m k) docs = (fst (exec (k a) docs), ls ++ snd (exec (k a) docs)).
Proof. intros E Hm Hk. rewrite exec_bind, E by assumption. reflexivity. Qed.

Lemma exec_then_raised {A B : Type} (m : M A) (k : A -> M B) docs (e : exn) (ls : list line) :
  exec m docs = (Raised e, ls) ->
  reads_only m -> (forall x, reads_only (k x)) ->
  exec (bind m k) docs = (Raised e, ls).
Proof. intros E Hm Hk. rewrite exec_bind, E by assumption. reflexivity. Qed.
End Exec.

Lemma outcome_exec docs : outcome docs = fst (exec validate_docs docs).
Proof. reflexivity. Qed.

Lemma report_exec docs : report docs = snd (exec validate_docs docs).
Proof. reflexivity. Qed.

(** ** sorted *)

Section Sorted.
Context {A : Type} (key : A -> Z).

Lemma insert_by_perm (x : A) (l : list A) : Permutation (insert_by key x l) (x :: l).
Proof.
  induction l as [|y l IH]; simpl.
  - reflexivity.
  - destruct (key x <? key y).
    + reflexivity.
    + rewrite IH. apply perm_swap.
Qed.

Lemma insert_by_sorted (x : A) (l : list A) :
  StronglySorted (key_le key) l -> StronglySorted (key_le key) (insert_by key x l).
Proof.
  induction 1 as [|y l Hl IH Hy]; simpl.
  - constructor; constructor.
  - destruct (Z.ltb_spec (key x) (key y)) as [Hlt|Hge].
    + constructor; [constructor; assumption|].
      constructor; [unfold key_le; lia|].
      rewrite Forall_forall in *. intros z Hz. specialize (Hy z Hz).
      unfold key_le in *. lia.
    + constructor; [assumption|].
      rewrite Forall_forall in *. intros z Hz.
      apply (Permutation_in _ (insert_by_perm x l)) in Hz.
      destruct Hz as [<-|Hz]; [unfold key_le; lia | apply Hy, Hz].
Qed.

Lemma fold_insert_perm (l acc : list A) :
  Permutation (fold_left (fun acc x => insert_by key x acc) l acc) (acc ++ l).
Proof.
  revert acc. induction l as [|x l IH]; intros acc; simpl.
  - rewrite app_nil_r. reflexivity.
  - rewrite IH, insert_by_perm. apply Permutation_middle.
Qed.

Lemma fold_insert_sorted (l acc : list A) :
  StronglySorted (key_le key) acc ->
  StronglySorted (key_le key) (fold_left (fun acc x => insert_by key x acc) l acc).
Proof.
  revert acc. induction l as [|x l IH]; intros acc H; simpl.
  - assumption.
  - apply IH, insert_by_sorted, H.
Qed.

Lemma sorted_perm (l : list A) : Permutation (sorted key l) l.
Proof. unfold sorted. apply (fold_insert_perm l []). Qed.

Lemma sorted_sorted (l : list A) : StronglySorted (key_le key) (sorted key l).
Proof. unfold sorted. apply fold_insert_sorted. constructor. Qed.

Lemma sorted_length (l : list A) : length (sorted key l) = length l.
Proof. apply Permutation_length, sorted_perm. Qed.
End Sorted.

(** ** Length statistics *)

Lemma median_ok (data : list Z) :
  data <> [] -> exists m, median data = Ok m.
Proof.
  intros H. unfold median. rewrite sorted_length.
  destruct data as [|x data]; [congruence|].
  change (length (x :: data) =? 0)%nat with false. cbv iota.
  destruct (length (x :: data) mod 2 =? 1)%nat; eexists; reflexivity.
Qed.

Ltac exec_step :=
  first
    [ rewrite exec_print_bind by (intros; reads_only_tac)
    | rewrite exec_get_docs_bind by (intros; reads_only_tac)
    | rewrite exec_when_print_bind by (intros; reads_only_tac)
    | rewrite exec_lift_bind by (intros; reads_only_tac) ].

Lemma exec_length_stats docs :
  docs <> [] ->
  exists mn mx avg med,
    exec length_stats docs =
    (Ok (lengths_of docs),
     [StatsHeader; StatsCount (len docs); StatsMin mn; StatsMax mx;
      StatsAvg avg; StatsMedian med] ++ stats_warnings (lengths_of docs)).
Proof.
  intros Hne.
  assert (Hl : lengths_of docs <> []).
  { destruct docs; [congruence | discriminate]. }
  destruct (median_ok _ Hl) as [med Hmed].
  assert (Hmin : exists mn, py_min (lengths_of docs) = Ok mn).
  { destruct (lengths_of docs); [congruence | eexists; reflexivity]. }
  assert (Hmax : exists mx, py_max (lengths_of docs) = Ok mx).
  { destruct (lengths_of docs); [congruence | eexists; reflexivity]. }
  destruct Hmin as [mn Hmin]. destruct Hmax as [mx Hmax].
  assert (Havg : truediv (isum (lengths_of docs)) (len (lengths_of docs))
                 = Ok (IZR (isum (lengths_of docs)) / IZR (len (lengths_of docs)))%R).
  { unfold truediv. destruct (Z.eqb_spec (len (lengths_of docs)) 0) as [E|E]; [|reflexivity].
    unfold len in E. destruct (lengths_of docs); [congruence | simpl in E; lia]. }
  exists mn, mx, (IZR (isum (lengths_of docs)) / IZR (len (lengths_of docs)))%R, med.
  unfold length_stats.
  exec_step. cbv zeta.
  exec_step. rewrite Hmin.
  exec_step. rewrite Hmax.
  exec_step. rewrite Havg.
  exec_step. rewrite Hmed.
  repeat exec_step.
  rewrite exec_ret. unfold stats_warnings. cbn [fst snd app]. 
  rewrite app_nil_r. reflexivity.
Qed.

(** ** Equality of contents *)

Lemma str_eqb_spec (a b : str) : reflect (a = b) (str_eqb a b).
Proof.
  revert b. induction a as [|x a IH]; intros [|y b]; simpl;
    try (constructor; congruence).
  destruct (Z.eqb_spec x y) as [->|Hxy]; simpl.
  - destruct (IH b) as [->|Hab]; constructor; congruence.
  - constructor. congruence.
Qed.

Lemma content_eqb_spec (a b : option str) : reflect (a = b) (content_eqb a b).
Proof.
  destruct a as [s|], b as [t|]; simpl; try (constructor; congruence).
  destruct (str_eqb_spec s t); constructor; congruence.
Qed.

(** ** Duplicate detection *)

Lemma repeated_spec docs (txt : option str) (c : Z) :
  In (txt, c) (repeated docs)
  <-> c = occurrences content_eqb txt (contents docs) /\ 3 < c.
Proof.
  unfold repeated, items, content_counts. rewrite filter_In. simpl.
  rewrite (Counter_items content_eqb content_eqb_spec). rewrite Z.ltb_lt.
  unfold contents. split; [intros [[H1 H2] H3] | intros [H1 H2]]; repeat split; auto; lia.
Qed.

Lemma repeated_NoDup docs : NoDup (map fst (repeated docs)).
Proof.
  unfold repeated, items, content_counts.
  pose proof (Counter_NoDup content_eqb content_eqb_spec (map page_content docs)) as H.
  induction (Counter content_eqb (map page_content docs)) as [|[k n] c IH]; simpl.
  - constructor.
  - inversion H as [|? ? Hk Hc]; subst.
    destruct (3 <? n); simpl; [|apply IH, Hc].
    constructor; [|apply IH, Hc].
    intros Hin. apply Hk. apply in_map_iff in Hin. destruct Hin as [[k' n'] [E Hin]].
    simpl in E. subst k'. apply filter_In in Hin. destruct Hin as [Hin _].
    apply (in_map fst) in Hin. exact Hin.
Qed.

Lemma In_firstn {A : Type} (n : nat) (l : list A) (x : A) :
  In x (firstn n l) -> In x l.
Proof.
  intros H. rewrite <- (firstn_skipn n l). apply in_or_app. left. exact H.
Qed.

Lemma top_repeated_incl docs x : In x (top_repeated docs) -> In x (repeated docs).
Proof.
  unfold top_repeated. intros H. apply In_firstn in H.
  apply (Permutation_in _ (sorted_perm _ _)) in H. exact H.
Qed.

Lemma repeated_no_None docs :
  occurrences content_eqb None (contents docs) <= 3 ->
  Forall (fun x => fst x <> None) (repeated docs).
Proof.
  intros H. apply Forall_forall. intros [txt c] Hin Htxt. simpl in Htxt. subst txt.
  apply repeated_spec in Hin. lia.
Qed.

Lemma enumerate_snd_In {A : Type} (l : list A) (x : nat * A) :
  In x (enumerate l) -> In (snd x) l.
Proof.
  unfold enumerate. destruct x as [i a]. intros H. apply in_combine_r in H. exact H.
Qed.

Section DupLoop.
Import IO.
Local Open Scope io_scope.

Lemma exec_for_each_cons {A : Type} (x : A) (l : list A) (body : A -> M unit) docs :
  (forall a, reads_only (body a)) ->
  exec (for_each (x :: l) body) docs =
  match exec (body x) docs with
  | (Ok _, l1) => (fst (exec (for_each l body) docs),
                   l1 ++ snd (exec (for_each l body) docs))
  | (Raised e, l1) => (Raised e, l1)
  end.
Proof.
  intros H. simpl for_each. rewrite exec_bind.
  - reflexivity.
  - apply H.
  - intros _. apply reads_only_for_each, H.
Qed.

(** The body of the loop over the most repeated texts. *)
Lemma exec_dup_body docs (i : nat) (txt : option str) (c : Z) :
  exec (replaced <- lift (call_replace txt NEWLINE SPACE) ;;
        let preview := firstn 120 replaced in
        print (DupEntry (S i) c preview)) docs
  = match txt with
    | Some s => (Ok tt, [entry_line (i, (Some s, c))])
    | None => (Raised AttributeError, [])
    end.
Proof.
  rewrite exec_lift_bind by (intros; reads_only_tac).
  destruct txt as [s|]; reflexivity.
Qed.

Lemma exec_dup_loop docs (l : list (nat * (option str * Z))) :
  Forall (fun x => fst (snd x) <> None) l ->
  exec (for_each l
          (fun '(i, (txt, c)) =>
             replaced <- lift (call_replace txt NEWLINE SPACE) ;;
             let preview := firstn 120 replaced in
             print (DupEntry (S i) c preview))) docs
  = (Ok tt, map entry_line l).
Proof.
  set (body := fun '(i, (txt, c)) => _).
  assert (Hb : forall a, reads_only (body a)).
  { intros [i [txt c]]. unfold body. reads_only_tac. }
  induction 1 as [|[i [[s|] c]] l Hx Hl IH].
  - reflexivity.
  - rewrite (exec_for_each_cons _ _ _ _ Hb), IH.
    unfold body at 1. rewrite exec_dup_body. reflexivity.
  - simpl in Hx. congruence.
Qed.

Lemma exec_dup_loop_raises docs (l : list (nat * (option str * Z))) :
  Exists (fun x => fst (snd x) = None) l ->
  exists ls,
    exec (for_each l
            (fun '(i, (txt, c)) =>
               replaced <- lift (call_replace txt NEWLINE SPACE) ;;
               let preview := firstn 120 replaced in
               print (DupEntry (S i) c preview))) docs
    = (Raised AttributeError, ls)
    /\ Forall (fun ln => part_of ln = PDuplicates) ls.
Proof.
  set (body := fun '(i, (txt, c)) => _).
  assert (Hb : forall a, reads_only (body a)).
  { intros [i [txt c]]. unfold body. reads_only_tac. }
  induction l as [|[i [[s|] c]] l IH]; intros H.
  - inversion H.
  - inversion H as [? ? Hx|? ? Hl]; subst; [simpl in Hx; discriminate|].
    destruct (IH Hl) as [ls [E F]].
    rewrite (exec_for_each_cons _ _ _ _ Hb), E.
    unfold body at 1. rewrite exec_dup_body. cbn [fst snd app].
    eexists. split; [reflexivity|]. constructor; [reflexivity | assumption].
  - rewrite (exec_for_each_cons _ _ _ _ Hb).
    unfold body at 1. rewrite exec_dup_body.
    exists []. split; [reflexivity | constructor].
Qed.
End DupLoop.

Lemma exec_duplicate_detection docs :
  ~ In None (map fst (top_repeated docs)) ->
  exec duplicate_detection docs = (Ok tt, DupHeader :: dup_lines docs).
Proof.
  intros H. unfold duplicate_detection, dup_lines.
  exec_step. exec_step.
  destruct (is_empty (repeated docs)) eqn:E.
  - reflexivity.
  - exec_step. exec_step. rewrite exec_dup_loop; [reflexivity|].
    apply Forall_forall. intros x Hx Hn. apply enumerate_snd_In in Hx.
    apply H. rewrite <- Hn. apply in_map. exact Hx.
Qed.

Lemma top_repeated_no_None docs :
  occurrences content_eqb None (contents docs) <= 3 ->
  ~ In None (map fst (top_repeated docs)).
Proof.
  intros H Hin. apply in_map_iff in Hin. destruct Hin as [x [Hn Hx]].
  apply top_repeated_incl in Hx.
  pose proof (repeated_no_None docs H) as F. rewrite Forall_forall in F.
  apply (F x Hx Hn).
Qed.

Lemma exec_duplicate_detection_raises docs :
  In None (map fst (top_repeated docs)) ->
  exists ls,
    exec duplicate_detection docs = (Raised AttributeError, DupHeader :: ls)
    /\ Forall (fun ln => part_of ln = PDuplicates) ls.
Proof.
  intros H. unfold duplicate_detection.
  assert (E : is_empty (repeated docs) = false).
  { apply in_map_iff in H. destruct H as [x [_ Hx]]. apply top_repeated_incl in Hx.
    destruct (repeated docs); [contradiction | reflexivity]. }
  destruct (exec_dup_loop_raises docs (enumerate (top_repeated docs))) as [ls [El F]].
  { apply Exists_exists. apply in_map_iff in H. destruct H as [[txt c] [Ht Hx]].
    simpl in Ht. subst txt.
    unfold enumerate.
    destruct (In_nth _ _ (None, c) Hx) as [i [Hi Hn]].
    exists (i, (None, c)). split; [|reflexivity].
    assert (Hc : nth i (combine (seq 0 (length (top_repeated docs))) (top_repeated docs)) (0%nat, (None, c)) = (i, (None, c))).
    { rewrite combine_nth by (apply length_seq). rewrite seq_nth by assumption. rewrite Hn. reflexivity. }
    rewrite <- Hc. apply nth_In. rewrite length_combine, length_seq. lia. }
  exec_step. exec_step. destruct (is_empty (repeated docs)); [discriminate|].
  exec_step. exec_step.
  match goal with
  | |- context [exec (IO.for_each ?l ?b) docs] =>
      replace (exec (IO.for_each l b) docs) with (@Raised unit AttributeError, ls)
        by (symmetry; exact El)
  end.
  eexists. split; [reflexivity|].
  constructor; [reflexivity|]. constructor; [reflexivity | assumption].
Qed.

(** ** Comprehensions over enumerate *)

Lemma indices_from_In {A : Type} (f : A -> bool) (l : list A) (s i : nat) :
  In i (map fst (filter (fun p => f (snd p)) (combine (seq s (length l)) l)))
  <-> (s <= i)%nat /\ exists a, nth_error l (i - s) = Some a /\ f a = true.
Proof.
  revert s. induction l as [|x l IH]; intros s; simpl.
  - split; [contradiction|]. intros [_ [a [H _]]]. destruct (i - s)%nat; discriminate.
  - destruct (f x) eqn:Fx; simpl; rewrite IH.
    + split.
      * intros [<-|[Hs [a [Ha Hf]]]].
        -- split; [lia|]. exists x. rewrite Nat.sub_diag. split; [reflexivity | assumption].
        -- split; [lia|]. exists a. replace (i - s)%nat with (S (i - S s)) by lia.
           split; assumption.
      * intros [Hs [a [Ha Hf]]]. destruct (Nat.eq_dec s i) as [E|E]; [left; assumption|].
        right. split; [lia|]. exists a.
        replace (i - s)%nat with (S (i - S s)) in Ha by lia. split; assumption.
    + split.
      * intros [Hs [a [Ha Hf]]]. split; [lia|]. exists a.
        replace (i - s)%nat with (S (i - S s)) by lia. split; assumption.
      * intros [Hs [a [Ha Hf]]]. destruct (Nat.eq_dec s i) as [E|E].
        -- subst i. rewrite Nat.sub_diag in Ha. simpl in Ha. congruence.
        -- split; [lia|]. exists a.
           replace (i - s)%nat with (S (i - S s)) in Ha by lia. split; assumption.
Qed.

Lemma indices_where_In {A : Type} (f : A -> bool) (l : list A) (i : nat) :
  In i (indices_where f l) <-> exists a, nth_error l i = Some a /\ f a = true.
Proof.
  unfold indices_where, enumerate. rewrite indices_from_In, Nat.sub_0_r.
  split; [intros [_ H]; exact H | intros H; split; [lia | exact H]].
Qed.

Lemma indices_from_sorted {A : Type} (f : A -> bool) (l : list A) (s : nat) :
  StronglySorted lt (map fst (filter (fun p => f (snd p)) (combine (seq s (length l)) l))).
Proof.
  revert s. induction l as [|x l IH]; intros s; simpl.
  - constructor.
  - destruct (f x); simpl; [|apply IH].
    constructor; [apply IH|].
    apply Forall_forall. intros i Hi. apply indices_from_In in Hi. lia.
Qed.

Lemma indices_where_sorted {A : Type} (f : A -> bool) (l : list A) :
  StronglySorted lt (indices_where f l).
Proof. apply indices_from_sorted. Qed.

(** ** Entropy analysis *)

Lemma mapM_total {A B : Type} (f : A -> result B) (l : list A) :
  (forall a, exists b, f a = Ok b) -> exists bs, Res.mapM f l = Ok bs.
Proof.
  intros H. induction l as [|a l [bs IH]]; simpl.
  - eexists; reflexivity.
  - destruct (H a) as [b Hb]. rewrite Hb, IH. eexists; reflexivity.
Qed.

Lemma entropies_ok docs : exists es, entropies docs = Ok es.
Proof.
  apply mapM_total. intros d.
  destruct (shannon_entropy_total (content_or_empty d)) as [e [He _]].
  exists e. exact He.
Qed.

Lemma exec_entropy_analysis docs es :
  entropies docs = Ok es ->
  exec entropy_analysis docs = (Ok tt, EntropyHeader :: entropy_lines es).
Proof.
  intros E. unfold entropy_analysis, entropy_lines.
  exec_step. exec_step. exec_step. rewrite E. cbv zeta.
  destruct (negb (is_empty (low_entropy_indices es))); reflexivity.
Qed.

(** ** Character checks *)

Lemma is_non_ascii_heavy_total (text : str) (t : R) :
  exists b, is_non_ascii_heavy text t = Ok b.
Proof.
  unfold is_non_ascii_heavy. destruct (is_empty text) eqn:E; [eexists; reflexivity|].
  apply is_empty_false_len in E. unfold truediv.
  destruct (Z.eqb_spec (len text) 0); [lia|]. eexists. reflexivity.
Qed.

Lemma hits_ext (a b c d a' b' c' d' : Z) :
  a = a' -> b = b' -> c = c' -> d = d' ->
  @Ok hits {| ligature_hits := a; replacement_hits := b;
              hyphen_break_hits := c; non_ascii_heavy_hits := d |}
  = Ok {| ligature_hits := a'; replacement_hits := b';
          hyphen_break_hits := c'; non_ascii_heavy_hits := d' |}.
Proof. intros; subst; reflexivity. Qed.

Lemma scan_doc_spec (h : hits) (d : Document) :
  scan_doc h d =
  Ok {| ligature_hits := ligature_hits h + (if trips_ligature d then 1 else 0);
        replacement_hits := replacement_hits h + (if trips_replacement d then 1 else 0);
        hyphen_break_hits := hyphen_break_hits h + (if trips_hyphen_break d then 1 else 0);
        non_ascii_heavy_hits := non_ascii_heavy_hits h + (if trips_non_ascii d then 1 else 0) |}.
Proof.
  unfold scan_doc, trips_ligature, trips_replacement, trips_hyphen_break, trips_non_ascii.
  destruct (is_non_ascii_heavy_total (content_or_empty d) default_threshold_ratio) as [b Hb].
  rewrite Hb. unfold Res.bind.
  destruct (re_search ligature_pattern _), (re_search replacement_char_pattern _),
    (re_search hyphen_break_pattern _), b; apply hits_ext; lia.
Qed.

Lemma count_docs_cons (f : Document -> bool) (d : Document) docs :
  count_docs f (d :: docs) = (if f d then 1 else 0) + count_docs f docs.
Proof.
  unfold count_docs. simpl. destruct (f d); [rewrite len_cons; lia | lia].
Qed.

Lemma scan_docs_spec (h : hits) docs :
  scan_docs h docs =
  Ok {| ligature_hits := ligature_hits h + count_docs trips_ligature docs;
        replacement_hits := replacement_hits h + count_docs trips_replacement docs;
        hyphen_break_hits := hyphen_break_hits h + count_docs trips_hyphen_break docs;
        non_ascii_heavy_hits := non_ascii_heavy_hits h + count_docs trips_non_ascii docs |}.
Proof.
  revert h. induction docs as [|d docs IH]; intros h; simpl scan_docs.
  - unfold count_docs, len. destruct h; simpl. apply hits_ext; lia.
  - rewrite scan_doc_spec. simpl Res.bind. rewrite IH. simpl.
    rewrite !count_docs_cons. apply hits_ext; lia.
Qed.

Lemma scan_docs_tally docs : scan_docs no_hits docs = Ok (tally docs).
Proof. rewrite scan_docs_spec. reflexivity. Qed.

Lemma exec_char_checks docs :
  exec char_checks docs = (Ok tt, CharsHeader :: chars_lines (tally docs)).
Proof.
  unfold char_checks, chars_lines.
  exec_step. exec_step. exec_step. rewrite scan_docs_tally.
  repeat exec_step. rewrite exec_when_print. reflexivity.
Qed.

(** ** Structure checks *)

Lemma punctuation_density_total (text : str) :
  exists r, punctuation_density text = Ok r.
Proof.
  unfold punctuation_density. destruct (is_empty text) eqn:E; [eexists; reflexivity|].
  apply is_empty_false_len in E. unfold truediv.
  destruct (Z.eqb_spec (len text) 0); [lia|]. eexists. reflexivity.
Qed.

Lemma exec_structure_checks docs (lengths : list Z) :
  exists ds,
    Res.mapM (fun d => punctuation_density (content_or_empty d)) docs = Ok ds
    /\ exec (structure_checks lengths) docs
       = (Ok tt, StructureHeader :: structure_lines docs ds lengths).
Proof.
  destruct (mapM_total (fun d => punctuation_density (content_or_empty d)) docs) as [ds E].
  { intros d. apply punctuation_density_total. }
  exists ds. split; [exact E|].
  unfold structure_checks, structure_lines.
  exec_step. exec_step. cbv zeta. exec_step. exec_step. rewrite E.
  match goal with
  | |- context [if ?b then IO.print _ else IO.print _] => destruct b
  end; reflexivity.
Qed.

Lemma exec_near_empty_chunks docs (lengths : list Z) :
  exec (near_empty_chunks lengths) docs = (Ok tt, near_empty_lines lengths).
Proof. unfold near_empty_chunks, near_empty_lines. cbv zeta. apply exec_when_print. Qed.

Lemma exec_closing docs :
  exec closing docs
  = (Ok tt, [Complete; Interpretation; Guidance 1; Guidance 2; Guidance 3; Guidance 4]).
Proof. reflexivity. Qed.

(** ** Parts of the report *)

Lemma all_of_app p l1 l2 : all_of p l1 -> all_of p l2 -> all_of p (l1 ++ l2).
Proof. intros H1 H2. apply Forall_app. split; assumption. Qed.

Lemma all_of_cons p l ls : part_of l = p -> all_of p ls -> all_of p (l :: ls).
Proof. intros H1 H2. constructor; assumption. Qed.

Lemma all_of_nil p : all_of p [].
Proof. constructor. Qed.

Lemma all_of_if p (b : bool) l1 l2 : all_of p l1 -> all_of p l2 -> all_of p (if b then l1 else l2).
Proof. destruct b; auto. Qed.

Ltac all_of_tac :=
  repeat first
    [ apply all_of_nil
    | apply all_of_app
    | apply all_of_if
    | apply all_of_cons; [reflexivity|]
    | match goal with
      | |- all_of _ [if ?b then _ else _] => destruct b
      end ].

Lemma all_of_stats_warnings lengths : all_of PStats (stats_warnings lengths).
Proof. unfold stats_warnings. cbv zeta. all_of_tac. Qed.

Lemma printed_length_stats docs :
  docs <> [] ->
  fst (exec length_stats docs) = Ok (lengths_of docs)
  /\ all_of PStats (printed length_stats docs)
  /\ exists rest, printed length_stats docs = StatsHeader :: rest.
Proof.
  intros H. destruct (exec_length_stats docs H) as (mn & mx & avg & med & E).
  unfold printed. rewrite E. cbn [fst snd]. split; [reflexivity|]. split.
  - apply all_of_app; [all_of_tac | apply all_of_stats_warnings].
  - eexists. reflexivity.
Qed.

Lemma all_of_dup_lines docs : all_of PDuplicates (dup_lines docs).
Proof.
  unfold dup_lines. all_of_tac.
  induction (enumerate (top_repeated docs)); simpl; all_of_tac. assumption.
Qed.

Lemma all_of_entropy_lines es : all_of PEntropy (entropy_lines es).
Proof. unfold entropy_lines. cbv zeta. all_of_tac. Qed.

Lemma all_of_chars_lines h : all_of PChars (chars_lines h).
Proof. unfold chars_lines. all_of_tac. Qed.

Lemma all_of_structure_lines docs ds lengths :
  all_of PStructure (structure_lines docs ds lengths).
Proof. unfold structure_lines. cbv zeta. all_of_tac. Qed.

Lemma all_of_near_empty_lines lengths : all_of PNearEmpty (near_empty_lines lengths).
Proof. unfold near_empty_lines. cbv zeta. all_of_tac. Qed.

Lemma lines_of_app p l1 l2 : lines_of p (l1 ++ l2) = lines_of p l1 ++ lines_of p l2.
Proof. apply filter_app. Qed.

Lemma lines_of_all p ls : all_of p ls -> lines_of p ls = ls.
Proof.
  induction 1 as [|l ls Hl Hls IH]; simpl; [reflexivity|].
  rewrite Hl, Nat.eqb_refl. f_equal. exact IH.
Qed.

Lemma part_rank_inj p q : part_rank p = part_rank q -> p = q.
Proof. destruct p, q; simpl; intros H; try reflexivity; discriminate. Qed.

Lemma lines_of_other p q ls : all_of q ls -> q <> p -> lines_of p ls = [].
Proof.
  intros H Hpq. induction H as [|l ls Hl Hls IH]; simpl; [reflexivity|].
  rewrite Hl. destruct (Nat.eqb_spec (part_rank q) (part_rank p)) as [E|E].
  - apply part_rank_inj in E. contradiction.
  - exact IH.
Qed.

(** ** The whole run *)

Lemma In_None_dec docs :
  {In None (map fst (top_repeated docs))} + {~ In None (map fst (top_repeated docs))}.
Proof.
  destruct (existsb (content_eqb None) (map fst (top_repeated docs))) eqn:E.
  - left. apply (existsb_eqb_In content_eqb content_eqb_spec). exact E.
  - right. intros H. apply (existsb_eqb_In content_eqb content_eqb_spec) in H. congruence.
Qed.

Lemma exec_validate_docs_empty : exec validate_docs [] = (Ok tt, [Banner; WarnNoDocs]).
Proof. reflexivity. Qed.

Ltac reads_only_stage :=
  repeat first
    [ apply reads_only_length_stats
    | apply reads_only_duplicate_detection
    | apply reads_only_entropy_analysis
    | apply reads_only_char_checks
    | apply reads_only_structure_checks
    | apply reads_only_near_empty_chunks
    | apply reads_only_closing
    | apply reads_only_print
    | apply reads_only_get_docs
    | apply reads_only_if
    | apply reads_only_bind; [ | intros ? ] ].

Ltac stage_step E :=
  rewrite (exec_then _ _ _ _ _ E) by (intros; reads_only_stage).

Lemma exec_validate_docs_raises docs :
  docs <> [] -> In None (map fst (top_repeated docs)) ->
  exec validate_docs docs
  = (Raised AttributeError,
     Banner :: printed length_stats docs ++ printed duplicate_detection docs).
Proof.
  intros Hne Hnone.
  destruct (printed_length_stats docs Hne) as (Hs & _ & _).
  destruct (exec_duplicate_detection_raises docs Hnone) as (ls & Hd & _).
  unfold validate_docs.
  rewrite exec_print_bind by (intros; reads_only_stage).
  rewrite exec_get_docs_bind by (intros; reads_only_stage).
  destruct docs as [|d docs]; [congruence|]. cbn [is_empty].
  rewrite exec_bind; [| reads_only_stage | intros; reads_only_stage].
  rewrite (surjective_pairing (exec length_stats (d :: docs))), Hs.
  rewrite (exec_then_raised _ _ _ _ _ Hd) by (intros; reads_only_stage).
  unfold printed. rewrite Hd. reflexivity.
Qed.

Lemma exec_validate_docs_completes docs :
  docs <> [] -> ~ In None (map fst (top_repeated docs)) ->
  exec validate_docs docs
  = (Ok tt,
     Banner :: printed length_stats docs
     ++ printed duplicate_detection docs
     ++ printed entropy_analysis docs
     ++ printed char_checks docs
     ++ printed (structure_checks (lengths_of docs)) docs
     ++ printed (near_empty_chunks (lengths_of docs)) docs
     ++ printed closing docs).
Proof.
  intros Hne Hnone.
  destruct (printed_length_stats docs Hne) as (Hs & _ & _).
  assert (Hd : exec duplicate_detection docs = (Ok tt, DupHeader :: dup_lines docs)).
  { apply exec_duplicate_detection. exact Hnone. }
  destruct (entropies_ok docs) as [es He].
  pose proof (exec_entropy_analysis docs es He) as Hen.
  pose proof (exec_char_checks docs) as Hc.
  destruct (exec_structure_checks docs (lengths_of docs)) as (ds & _ & Hst).
  pose proof (exec_near_empty_chunks docs (lengths_of docs)) as Hn.
  unfold validate_docs.
  rewrite exec_print_bind by (intros; reads_only_stage).
  rewrite exec_get_docs_bind by (intros; reads_only_stage).
  destruct docs as [|d docs]; [congruence|]. cbn [is_empty].
  rewrite exec_bind; [| reads_only_stage | intros; reads_only_stage].
  rewrite (surjective_pairing (exec length_stats (d :: docs))), Hs.
  stage_step Hd. stage_step Hen. stage_step Hc. stage_step Hst. stage_step Hn.
  unfold printed. rewrite Hd, Hen, Hc, Hst, Hn. reflexivity.
Qed.

(** ** The report of a run that completes *)

Lemma report_segments docs :
  docs <> [] -> ~ In None (map fst (top_repeated docs)) ->
  exists stats es ds,
    entropies docs = Ok es
    /\ Res.mapM (fun d => punctuation_density (content_or_empty d)) docs = Ok ds
    /\ all_of PStats stats
    /\ outcome docs = Ok tt
    /\ report docs =
       [Banner] ++ stats
       ++ (DupHeader :: dup_lines docs)
       ++ (EntropyHeader :: entropy_lines es)
       ++ (CharsHeader :: chars_lines (tally docs))
       ++ (StructureHeader :: structure_lines docs ds (lengths_of docs))
       ++ near_empty_lines (lengths_of docs)
       ++ closing_lines.
Proof.
  intros Hne Hnone.
  destruct (printed_length_stats docs Hne) as (_ & Hs & _).
  destruct (entropies_ok docs) as [es He].
  destruct (exec_structure_checks docs (lengths_of docs)) as (ds & Hds & Hst).
  exists (printed length_stats docs), es, ds.
  repeat split; try assumption.
  - rewrite outcome_exec, exec_validate_docs_completes by assumption. reflexivity.
  - rewrite report_exec, exec_validate_docs_completes by assumption.
    unfold printed at 2 3 4 5 6 7.
    rewrite (exec_duplicate_detection docs Hnone), (exec_entropy_analysis docs es He),
      exec_char_checks, Hst, exec_near_empty_chunks, exec_closing.
    reflexivity.
Qed.

Lemma all_of_closing_lines : all_of PClosing closing_lines.
Proof. unfold closing_lines. all_of_tac. Qed.

Section PickPart.
Variables (stats dups ents chars structs nears : list line).
Hypothesis Hstats : all_of PStats stats.
Hypothesis Hdups : all_of PDuplicates dups.
Hypothesis Hents : all_of PEntropy ents.
Hypothesis Hchars : all_of PChars chars.
Hypothesis Hstructs : all_of PStructure structs.
Hypothesis Hnears : all_of PNearEmpty nears.

Let whole : list line :=
  [Banner] ++ stats ++ dups ++ ents ++ chars ++ structs ++ nears ++ closing_lines.

Lemma all_of_banner : all_of PBanner [Banner].
Proof. repeat constructor. Qed.

Ltac pick p :=
  unfold whole; rewrite !lines_of_app;
  repeat match goal with
    | H : all_of ?q ?ls |- context [lines_of p ?ls] =>
        first [ rewrite (lines_of_all p ls H)
              | rewrite (lines_of_other p q ls H) by discriminate ]
    end;
  rewrite (lines_of_other p PBanner [Banner] all_of_banner) by discriminate;
  rewrite (lines_of_other p PClosing closing_lines all_of_closing_lines) by discriminate;
  rewrite ?app_nil_r; reflexivity.

Lemma pick_stats : lines_of PStats whole = stats.
Proof. pick PStats. Qed.

Lemma pick_duplicates : lines_of PDuplicates whole = dups.
Proof. pick PDuplicates. Qed.

Lemma pick_entropy : lines_of PEntropy whole = ents.
Proof. pick PEntropy. Qed.

Lemma pick_chars : lines_of PChars whole = chars.
Proof. pick PChars. Qed.

Lemma pick_structure : lines_of PStructure whole = structs.
Proof. pick PStructure. Qed.

Lemma pick_near_empty : lines_of PNearEmpty whole = nears.
Proof. pick PNearEmpty. Qed.

Lemma from_rank_all_of n p ls :
  (n <= part_rank p)%nat -> all_of p ls -> from_rank n ls.
Proof.
  intros Hn H. unfold from_rank. unfold all_of in H. rewrite Forall_forall in *.
  intros l Hl. rewrite (H l Hl). exact Hn.
Qed.

Lemma sorted_segment n p ls rest :
  all_of p ls -> (n <= part_rank p)%nat ->
  StronglySorted rank_le rest -> from_rank (part_rank p) rest ->
  StronglySorted rank_le (ls ++ rest) /\ from_rank n (ls ++ rest).
Proof.
  intros Hp Hn Hs Hr. split.
  - induction Hp as [|l ls Hl Hls IH]; simpl; [assumption|].
    constructor; [assumption|]. apply Forall_app. split.
    + unfold all_of in Hls. rewrite Forall_forall in *. intros x Hx.
      unfold rank_le. rewrite Hl, (Hls x Hx). lia.
    + unfold from_rank in Hr. rewrite Forall_forall in *. intros x Hx.
      unfold rank_le. rewrite Hl. apply Hr, Hx.
  - apply Forall_app. split.
    + apply (from_rank_all_of n p); assumption.
    + unfold from_rank in *. rewrite Forall_forall in *. intros x Hx.
      specialize (Hr x Hx). lia.
Qed.

Lemma whole_sorted : StronglySorted rank_le whole.
Proof.
  unfold whole.
  assert (H7 : StronglySorted rank_le (closing_lines ++ []) /\ from_rank 6 (closing_lines ++ [])).
  { apply (sorted_segment 6 PClosing); [apply all_of_closing_lines | simpl; lia | constructor | constructor]. }
  rewrite app_nil_r in H7. destruct H7 as [S7 R7].
  destruct (sorted_segment 5 PNearEmpty nears _ Hnears ltac:(simpl; lia) S7 R7) as [S6 R6].
  destruct (sorted_segment 4 PStructure structs _ Hstructs ltac:(simpl; lia) S6 R6) as [S5 R5].
  destruct (sorted_segment 3 PChars chars _ Hchars ltac:(simpl; lia) S5 R5) as [S4 R4].
  destruct (sorted_segment 2 PEntropy ents _ Hents ltac:(simpl; lia) S4 R4) as [S3 R3].
  destruct (sorted_segment 1 PDuplicates dups _ Hdups ltac:(simpl; lia) S3 R3) as [S2 R2].
  destruct (sorted_segment 0 PStats stats _ Hstats ltac:(simpl; lia) S2 R2) as [S1 R1].
  destruct (sorted_segment 0 PBanner [Banner] _ ltac:(repeat constructor) ltac:(simpl; lia) S1 R1) as [S0 _].
  exact S0.
Qed.
End PickPart.

Lemma report_parts docs :
  docs <> [] -> ~ In None (map fst (top_repeated docs)) ->
  exists stats es ds,
    entropies docs = Ok es
    /\ Res.mapM (fun d => punctuation_density (content_or_empty d)) docs = Ok ds
    /\ outcome docs = Ok tt
    /\ lines_of PStats (report docs) = stats
    /\ lines_of PDuplicates (report docs) = DupHeader :: dup_lines docs
    /\ lines_of PEntropy (report docs) = EntropyHeader :: entropy_lines es
    /\ lines_of PChars (report docs) = CharsHeader :: chars_lines (tally docs)
    /\ lines_of PStructure (report docs)
       = StructureHeader :: structure_lines docs ds (lengths_of docs)
    /\ lines_of PNearEmpty (report docs) = near_empty_lines (lengths_of docs)
    /\ StronglySorted rank_le (report docs).
Proof.
  intros Hne Hnone.
  destruct (report_segments docs Hne Hnone) as (stats & es & ds & He & Hd & Hs & Ho & Hr).
  exists stats, es, ds. rewrite Hr.
  assert (A2 : all_of PDuplicates (DupHeader :: dup_lines docs))
    by (apply all_of_cons; [reflexivity | apply all_of_dup_lines]).
  assert (A3 : all_of PEntropy (EntropyHeader :: entropy_lines es))
    by (apply all_of_cons; [reflexivity | apply all_of_entropy_lines]).
  assert (A4 : all_of PChars (CharsHeader :: chars_lines (tally docs)))
    by (apply all_of_cons; [reflexivity | apply all_of_chars_lines]).
  assert (A5 : all_of PStructure (StructureHeader :: structure_lines docs ds (lengths_of docs)))
    by (apply all_of_cons; [reflexivity | apply all_of_structure_lines]).
  pose proof (all_of_near_empty_lines (lengths_of docs)) as A6.
  repeat split; try assumption.
  - apply pick_stats; assumption.
  - apply pick_duplicates; assumption.
  - apply pick_entropy; assumption.
  - apply pick_chars; assumption.
  - apply pick_structure; assumption.
  - apply pick_near_empty; assumption.
  - apply whole_sorted; assumption.
Qed.

Lemma report_raises docs :
  docs <> [] -> In None (map fst (top_repeated docs)) ->
  outcome docs = Raised AttributeError
  /\ exists stats dups,
       all_of PStats stats /\ all_of PDuplicates dups
       /\ report docs = [Banner] ++ stats ++ dups.
Proof.
  intros Hne Hnone.
  destruct (printed_length_stats docs Hne) as (_ & Hs & _).
  destruct (exec_duplicate_detection_raises docs Hnone) as (ls & Hd & Hls).
  split.
  - rewrite outcome_exec, exec_validate_docs_raises by assumption. reflexivity.
  - exists (printed length_stats docs), (DupHeader :: ls). repeat split.
    + exact Hs.
    + apply all_of_cons; [reflexivity | exact Hls].
    + rewrite report_exec, exec_validate_docs_raises by assumption.
      unfold printed at 2. rewrite Hd. reflexivity.
Qed.

Lemma report_sorted docs : StronglySorted rank_le (report docs).
Proof.
  destruct docs as [|d docs].
  - change (report []) with [Banner; WarnNoDocs].
    repeat constructor.
  - assert (Hne : d :: docs <> []) by discriminate.
    destruct (In_None_dec (d :: docs)) as [Hn|Hn].
    + destruct (report_raises _ Hne Hn) as (_ & stats & dups & Hs & Hd & ->).
      destruct (sorted_segment 1 PDuplicates dups [] Hd ltac:(simpl; lia)
                  ltac:(constructor) ltac:(constructor)) as [S2 R2].
      rewrite app_nil_r in *.
      destruct (sorted_segment 0 PStats stats _ Hs ltac:(simpl; lia) S2 R2) as [S1 R1].
      destruct (sorted_segment 0 PBanner [Banner] _ ltac:(repeat constructor)
                  ltac:(simpl; lia) S1 R1) as [S0 _].
      exact S0.
    + destruct (report_parts _ Hne Hn) as (? & ? & ? & H). apply H.
Qed.

(** The run completes exactly when the preview loop meets no missing
    content; otherwise it raises [AttributeError]. *)
Lemma outcome_Ok_iff docs :
  outcome docs = Ok tt <-> ~ In None (map fst (top_repeated docs)).
Proof.
  destruct docs as [|d docs].
  - split; [intros _ [] | reflexivity].
  - assert (Hne : d :: docs <> []) by discriminate.
    destruct (In_None_dec (d :: docs)) as [Hn|Hn].
    + destruct (report_raises _ Hne Hn) as [Ho _]. rewrite Ho.
      split; [discriminate | contradiction].
    + destruct (report_parts _ Hne Hn) as (? & ? & ? & _ & _ & Ho & _).
      split; [intros _; exact Hn | intros _; exact Ho].
Qed.

(** ** Flagged indices *)

Lemma low_entropy_indices_In (es : list R) (i : nat) :
  In i (low_entropy_indices es)
  <-> exists e, nth_error es i = Some e /\ (0 < e < 2.5)%R.
Proof.
  unfold low_entropy_indices. rewrite indices_where_In.
  split; intros [e [Hi He]]; exists e; split; try assumption.
  - apply andb_true_iff in He. destruct He as [H1 H2].
    apply Rltb_true in H1. apply Rltb_true in H2. lra.
  - apply andb_true_iff. split; apply Rltb_true; lra.
Qed.

Lemma entropies_nth docs es :
  entropies docs = Ok es ->
  forall i e, nth_error es i = Some e
    <-> exists d, nth_error docs i = Some d
                  /\ shannon_entropy (content_or_empty d) = Ok e.
Proof.
  intros E i e. unfold entropies in E. split.
  - intros Hi.
    destruct (nth_error docs i) as [d|] eqn:Hd.
    + destruct (mapM_nth _ _ _ E i d Hd) as [e' [He' Hs]].
      exists d. split; [reflexivity|]. congruence.
    + apply nth_error_None in Hd. apply mapM_length in E.
      assert (Hn : nth_error es i = None) by (apply nth_error_None; lia).
      congruence.
  - intros [d [Hd Hs]]. destruct (mapM_nth _ _ _ E i d Hd) as [e' [He' Hs']].
    congruence.
Qed.

(** ** Detectors *)

Lemma trips_replacement_In (d : Document) :
  trips_replacement d = true <-> In REPLACEMENT (content_or_empty d).
Proof.
  unfold trips_replacement, replacement_char_pattern, re_search, char_in.
  rewrite existsb_exists. split.
  - intros [c [Hc E]]. simpl in E. rewrite orb_false_r in E.
    apply Z.eqb_eq in E. subst c. exact Hc.
  - intros H. exists REPLACEMENT. split; [exact H | reflexivity].
Qed.

Lemma count_docs_none (f : Document -> bool) docs :
  (forall d, In d docs -> f d = false) -> count_docs f docs = 0.
Proof.
  intros H. induction docs as [|d docs IH].
  - reflexivity.
  - rewrite count_docs_cons, (H d (or_introl eq_refl)), IH; [reflexivity|].
    intros d' Hd'. apply H. right. exact Hd'.
Qed.

(** ** The most repeated texts *)

Lemma StronglySorted_app_inv {A : Type} (R : A -> A -> Prop) (l1 l2 : list A) :
  StronglySorted R (l1 ++ l2) ->
  StronglySorted R l1 /\ forall x y, In x l1 -> In y l2 -> R x y.
Proof.
  induction l1 as [|a l1 IH]; simpl; intros H.
  - split; [constructor | intros x y []].
  - inversion H as [|? ? Hs Hf]; subst. destruct (IH Hs) as [H1 H2].
    rewrite Forall_forall in Hf. split.
    + constructor; [exact H1|]. apply Forall_forall. intros x Hx.
      apply Hf, in_or_app. left. exact Hx.
    + intros x y [<-|Hx] Hy; [apply Hf, in_or_app; right; exact Hy | apply H2; assumption].
Qed.

Lemma top_repeated_sorted docs :
  StronglySorted (fun a b => snd b <= snd a) (top_repeated docs).
Proof.
  unfold top_repeated.
  pose proof (sorted_sorted (fun x : option str * Z => - snd x) (repeated docs)) as H.
  rewrite <- (firstn_skipn 5 (sorted _ (repeated docs))) in H.
  apply StronglySorted_app_inv in H. destruct H as [H _].
  induction H as [|a l Hl IH Ha]; constructor; [exact IH|].
  eapply Forall_impl; [|exact Ha]. unfold key_le. simpl. intros b Hb. lia.
Qed.

Lemma top_repeated_length docs :
  length (top_repeated docs) = Nat.min 5 (length (repeated docs)).
Proof. unfold top_repeated. rewrite length_firstn, sorted_length. reflexivity. Qed.

Lemma top_repeated_top docs x y :
  In x (top_repeated docs) -> In y (repeated docs) -> ~ In y (top_repeated docs) ->
  snd y <= snd x.
Proof.
  unfold top_repeated. intros Hx Hy Hny.
  pose proof (sorted_sorted (fun x : option str * Z => - snd x) (repeated docs)) as H.
  rewrite <- (firstn_skipn 5 (sorted _ (repeated docs))) in H.
  apply StronglySorted_app_inv in H. destruct H as [_ H].
  assert (Hy' : In y (skipn 5 (sorted (fun x : option str * Z => - snd x) (repeated docs)))).
  { apply (Permutation_in _ (Permutation_sym (sorted_perm (fun x : option str * Z => - snd x) _))) in Hy.
    rewrite <- (firstn_skipn 5 (sorted _ (repeated docs))) in Hy.
    apply in_app_or in Hy. destruct Hy as [Hy|Hy]; [contradiction | exact Hy]. }
  specialize (H x y Hx Hy'). unfold key_le in H. simpl in H. lia.
Qed.

Lemma enumerate_nth_from {A : Type} (l : list A) (s i : nat) (x : A) :
  nth_error l i = Some x ->
  nth_error (combine (seq s (length l)) l) i = Some ((s + i)%nat, x).
Proof.
  revert s i. induction l as [|a l IH]; intros s [|i] H; simpl in *; try discriminate.
  - inversion H. rewrite Nat.add_0_r. reflexivity.
  - rewrite (IH (S s) i H). f_equal. f_equal. lia.
Qed.

Lemma enumerate_nth {A : Type} (l : list A) (i : nat) (x : A) :
  nth_error l i = Some x -> nth_error (enumerate l) i = Some (i, x).
Proof. intros H. unfold enumerate. rewrite (enumerate_nth_from l 0 i x H). reflexivity. Qed.

Lemma preview_of_length (s : str) : (length (preview_of s) <= 120)%nat.
Proof. unfold preview_of. apply firstn_le_length. Qed.

Lemma preview_of_single_line (s : str) : ~ In NEWLINE (preview_of s).
Proof.
  unfold preview_of, replace. intros H. apply In_firstn in H.
  apply in_map_iff in H. destruct H as [c [E _]].
  destruct (Z.eqb_spec c NEWLINE) as [Heq|Hc]; [discriminate | contradiction].
Qed.

(** A list of items with distinct keys, all equal to [k], has at most
    one element. *)
Lemma single_key {K V : Type} (k : K) (l : list (K * V)) :
  NoDup (map fst l) -> (forall x, In x l -> fst x = k) ->
  forall v, In (k, v) l -> l = [(k, v)].
Proof.
  intros Hnd Hk v Hin. destruct l as [|[k1 v1] l]; [contradiction|].
  destruct l as [|[k2 v2] l].
  - destruct Hin as [E|[]]. rewrite E. reflexivity.
  - exfalso. inversion Hnd as [|? ? Hn _]; subst. apply Hn.
    pose proof (Hk (k1, v1) (or_introl eq_refl)) as E1.
    pose proof (Hk (k2, v2) (or_intror (or_introl eq_refl))) as E2.
    simpl in *. subst. left. reflexivity.
Qed.

(** ** The run, part by part *)

Lemma report_complete docs :
  docs <> [] -> ~ In None (map fst (top_repeated docs)) ->
  exists es ds,
    entropies docs = Ok es
    /\ Res.mapM (fun d => punctuation_density (content_or_empty d)) docs = Ok ds
    /\ report docs =
       [Banner] ++ printed length_stats docs
       ++ (DupHeader :: dup_lines docs)
       ++ (EntropyHeader :: entropy_lines es)
       ++ (CharsHeader :: chars_lines (tally docs))
       ++ (StructureHeader :: structure_lines docs ds (lengths_of docs))
       ++ near_empty_lines (lengths_of docs)
       ++ closing_lines.
Proof.
  intros Hne Hnone.
  destruct (entropies_ok docs) as [es He].
  destruct (exec_structure_checks docs (lengths_of docs)) as (ds & Hds & Hst).
  exists es, ds. repeat split; try assumption.
  rewrite report_exec, exec_validate_docs_completes by assumption.
  unfold printed at 2 3 4 5 6 7.
  rewrite (exec_duplicate_detection docs Hnone), (exec_entropy_analysis docs es He),
    exec_char_checks, Hst, exec_near_empty_chunks, exec_closing.
  reflexivity.
Qed.

Lemma report_interrupted docs :
  docs <> [] -> In None (map fst (top_repeated docs)) ->
  exists dups,
    all_of PDuplicates dups
    /\ report docs = [Banner] ++ printed length_stats docs ++ dups.
Proof.
  intros Hne Hnone.
  destruct (exec_duplicate_detection_raises docs Hnone) as (ls & Hd & Hls).
  exists (DupHeader :: ls). split.
  - apply all_of_cons; [reflexivity | exact Hls].
  - rewrite report_exec, exec_validate_docs_raises by assumption.
    unfold printed at 2. rewrite Hd. reflexivity.
Qed.

Lemma report_stats docs :
  docs <> [] -> lines_of PStats (report docs) = printed length_stats docs.
Proof.
  intros Hne. destruct (printed_length_stats docs Hne) as (_ & Hs & _).
  destruct (In_None_dec docs) as [Hn|Hn].
  - destruct (report_interrupted docs Hne Hn) as (dups & Hd & ->).
    rewrite !lines_of_app.
    rewrite (lines_of_other PStats PBanner [Banner] all_of_banner) by discriminate.
    rewrite (lines_of_all PStats _ Hs).
    rewrite (lines_of_other PStats PDuplicates dups Hd) by discriminate.
    rewrite app_nil_r. reflexivity.
  - destruct (report_complete docs Hne Hn) as (es & ds & _ & _ & ->).
    apply pick_stats.
    + exact Hs.
    + apply all_of_cons; [reflexivity | apply all_of_dup_lines].
    + apply all_of_cons; [reflexivity | apply all_of_entropy_lines].
    + apply all_of_cons; [reflexivity | apply all_of_chars_lines].
    + apply all_of_cons; [reflexivity | apply all_of_structure_lines].
    + apply all_of_near_empty_lines.
Qed.

Lemma printed_length_stats_lines docs :
  docs <> [] ->
  exists mn mx avg med,
    printed length_stats docs
    = [StatsHeader; StatsCount (len docs); StatsMin mn; StatsMax mx;
       StatsAvg avg; StatsMedian med] ++ stats_warnings (lengths_of docs).
Proof.
  intros Hne. destruct (exec_length_stats docs Hne) as (mn & mx & avg & med & El).
  exists mn, mx, avg, med. unfold printed. rewrite El. reflexivity.
Qed.

(** ** The scan on rounded entropies *)

Lemma shannon_entropy_in_exact : shannon_entropy_in exact = shannon_entropy.
Proof. reflexivity. Qed.

Lemma validate_docs_in_exact : validate_docs_in exact = validate_docs.
Proof. reflexivity. Qed.

Lemma shannon_entropy_in_total (F : arith) (text : str) :
  exists e, shannon_entropy_in F text = Ok e.
Proof.
  unfold shannon_entropy_in. destruct (is_empty text) eqn:E; [eexists; reflexivity|].
  apply is_empty_false_len in E. cbv zeta.
  rewrite (mapM_ok _ (fun count => fdiv F count (len text))).
  - cbn [Res.bind].
    rewrite (mapM_ok _ (fun p => fmul F p (flog2 F p))).
    + eexists. reflexivity.
    + intros p Hp. apply filter_In in Hp. destruct Hp as [_ Hp].
      unfold math_log2_in. rewrite Hp. reflexivity.
  - intros count _. unfold truediv_in.
    destruct (Z.eqb_spec (len text) 0); [lia | reflexivity].
Qed.

Lemma entropies_in_ok (F : arith) docs : exists es, entropies_in F docs = Ok es.
Proof. apply mapM_total. intros d. apply shannon_entropy_in_total. Qed.

Lemma entropies_in_nth (F : arith) docs es :
  entropies_in F docs = Ok es ->
  forall i e, nth_error es i = Some e
    <-> exists d, nth_error docs i = Some d
                  /\ shannon_entropy_in F (content_or_empty d) = Ok e.
Proof.
  intros E i e. unfold entropies_in in E. split.
  - intros Hi.
    destruct (nth_error docs i) as [d|] eqn:Hd.
    + destruct (mapM_nth _ _ _ E i d Hd) as [e' [He' Hs]].
      exists d. split; [reflexivity|]. congruence.
    + apply nth_error_None in Hd. apply mapM_length in E.
      assert (Hn : nth_error es i = None) by (apply nth_error_None; lia).
      congruence.
  - intros [d [Hd Hs]].
    destruct (mapM_nth _ _ _ E i d Hd) as [e' [He' Hs']]. congruence.
Qed.

Lemma reads_only_entropy_analysis_in (F : arith) : reads_only (entropy_analysis_in F).
Proof. unfold entropy_analysis_in. reads_only_tac. Qed.

Ltac reads_only_stage_in :=
  repeat first
    [ apply reads_only_length_stats
    | apply reads_only_duplicate_detection
    | apply reads_only_entropy_analysis_in
    | apply reads_only_char_checks
    | apply reads_only_structure_checks
    | apply reads_only_near_empty_chunks
    | apply reads_only_closing
    | apply reads_only_print
    | apply reads_only_get_docs
    | apply reads_only_if
    | apply reads_only_bind; [ | intros ? ] ].

Lemma exec_entropy_analysis_in (F : arith) docs es :
  entropies_in F docs = Ok es ->
  exec (entropy_analysis_in F) docs = (Ok tt, EntropyHeader :: entropy_lines es).
Proof.
  intros E. unfold entropy_analysis_in, entropy_lines.
  exec_step. exec_step. exec_step. rewrite E. cbv zeta.
  destruct (negb (is_empty (low_entropy_indices es))); reflexivity.
Qed.

Lemma report_in_complete (F : arith) docs es :
  docs <> [] -> ~ In None (map fst (top_repeated docs)) ->
  entropies_in F docs = Ok es ->
  exists ds,
    outcome_in F docs = Ok tt
    /\ report_in F docs =
       [Banner] ++ printed length_stats docs
       ++ (DupHeader :: dup_lines docs)
       ++ (EntropyHeader :: entropy_lines es)
       ++ (CharsHeader :: chars_lines (tally docs))
       ++ (StructureHeader :: structure_lines docs ds (lengths_of docs))
       ++ near_empty_lines (lengths_of docs)
       ++ closing_lines.
Proof.
  intros Hne Hnone He.
  destruct (printed_length_stats docs Hne) as (Hs & _ & _).
  pose proof (exec_duplicate_detection docs Hnone) as Hd.
  pose proof (exec_entropy_analysis_in F docs es He) as Hen.
  pose proof (exec_char_checks docs) as Hc.
  destruct (exec_structure_checks docs (lengths_of docs)) as (ds & _ & Hst).
  pose proof (exec_near_empty_chunks docs (lengths_of docs)) as Hn.
  exists ds.
  assert (E : exec (validate_docs_in F) docs
            = (Ok tt,
               [Banner] ++ printed length_stats docs
               ++ (DupHeader :: dup_lines docs)
               ++ (EntropyHeader :: entropy_lines es)
               ++ (CharsHeader :: chars_lines (tally docs))
               ++ (StructureHeader :: structure_lines docs ds (lengths_of docs))
               ++ near_empty_lines (lengths_of docs)
               ++ closing_lines)).
  { unfold validate_docs_in.
    rewrite exec_print_bind by (intros; reads_only_stage_in).
    rewrite exec_get_docs_bind by (intros; reads_only_stage_in).
    destruct docs as [|d docs]; [congruence|]. cbn [is_empty].
    rewrite exec_bind; [| reads_only_stage_in | intros; reads_only_stage_in].
    rewrite (surjective_pairing (exec length_stats (d :: docs))), Hs.
    rewrite (exec_then _ _ _ _ _ Hd) by (intros; reads_only_stage_in).
    rewrite (exec_then _ _ _ _ _ Hen) by (intros; reads_only_stage_in).
    rewrite (exec_then _ _ _ _ _ Hc) by (intros; reads_only_stage_in).
    rewrite (exec_then _ _ _ _ _ Hst) by (intros; reads_only_stage_in).
    rewrite (exec_then _ _ _ _ _ Hn) by (intros; reads_only_stage_in).
    rewrite exec_closing. reflexivity. }
  unfold outcome_in, report_in.
  change (fst (run (validate_docs_in F) docs))
    with (fst (exec (validate_docs_in F) docs)).
  change (stdout (snd (run (validate_docs_in F) docs)))
    with (snd (exec (validate_docs_in F) docs)).
  rewrite E. split; reflexivity.
Qed.

(** * Statements of the specification *)

(** C1.  A missing content is not treated as the empty string by the
    duplicate detection, which counts the raw [page_content]: with four
    documents whose content is missing, [validate_docs] raises
    [AttributeError] when it builds the preview; and two documents with a
    missing content and two with an empty one are not grouped, whereas
    four documents with an empty content are reported as one text
    repeated four times. *)
Theorem missing_content_in_duplicate_detection :
  outcome [missing; missing; missing; missing] = Raised AttributeError
  /\ lines_of PDuplicates (report [missing; missing; blank; blank])
     = [DupHeader; DupNone]
  /\ lines_of PDuplicates (report [blank; blank; blank; blank])
     = [DupHeader; DupFound 1; DupHint; DupEntry 1 4 []].
Proof.
  split; [|split].
  - apply report_raises; [discriminate|]. vm_compute. left. reflexivity.
  - destruct (report_parts [missing; missing; blank; blank]) as (? & ? & ? & H);
      [discriminate | vm_compute; tauto |].
    destruct H as (_ & _ & _ & _ & -> & _). reflexivity.
  - destruct (report_parts [blank; blank; blank; blank]) as (? & ? & ? & H);
      [discriminate | vm_compute; intros [E|[]]; discriminate |].
    destruct H as (_ & _ & _ & _ & -> & _). reflexivity.
Qed.

(** C2, as stated, fails: on a collection of one empty document the
    empty/near-empty warning is printed after the headers of the
    duplicate, entropy, character and structure parts. *)
Lemma near_empty_flag_follows_structure_checks :
  exists pre post,
    report [blank] = pre ++ WarnNearEmpty 1 [0%nat] :: post
    /\ In DupHeader pre /\ In EntropyHeader pre
    /\ In CharsHeader pre /\ In StructureHeader pre.
Proof.
  destruct (report_segments [blank]) as (stats & es & ds & _ & _ & _ & _ & Hr);
    [discriminate | vm_compute; tauto |].
  change (near_empty_lines (lengths_of [blank])) with [WarnNearEmpty 1 [0%nat]] in Hr.
  exists ([Banner] ++ stats
          ++ (DupHeader :: dup_lines [blank])
          ++ (EntropyHeader :: entropy_lines es)
          ++ (CharsHeader :: chars_lines (tally [blank]))
          ++ (StructureHeader :: structure_lines [blank] ds (lengths_of [blank]))),
         closing_lines.
  split.
  - rewrite Hr. rewrite <- !app_assoc. reflexivity.
  - rewrite !in_app_iff. simpl. tauto.
Qed.

(** C2, amended.  The lines of every report come in the order banner,
    length statistics, duplicates, entropy, characters, structure,
    empty/near-empty warning, closing text.  On a non-empty collection
    the statistics part is the header, the count, the minimum, the
    maximum, the mean and the median, in this order, followed by the
    very-short and then the very-long warning.  When the run completes
    the report is the banner followed by these parts, each of the next
    four opened by its header, and the empty/near-empty warning (indices
    of length below 5, first 10 shown) stands between the structure part
    and the closing text. *)
Theorem report_parts_in_order (docs : list Document) :
  StronglySorted rank_le (report docs)
  /\ (docs <> [] ->
      exists mn mx avg med,
        lines_of PStats (report docs)
        = [StatsHeader; StatsCount (len docs); StatsMin mn; StatsMax mx;
           StatsAvg avg; StatsMedian med]
          ++ stats_warnings (lengths_of docs))
  /\ (docs <> [] -> ~ In None (map fst (top_repeated docs)) ->
      (exists mn mx avg med dups ents chars structs,
         report docs =
           [Banner]
           ++ ([StatsHeader; StatsCount (len docs); StatsMin mn; StatsMax mx;
                StatsAvg avg; StatsMedian med]
               ++ stats_warnings (lengths_of docs))
           ++ (DupHeader :: dups)
           ++ (EntropyHeader :: ents)
           ++ (CharsHeader :: chars)
           ++ (StructureHeader :: structs)
           ++ near_empty_lines (lengths_of docs)
           ++ closing_lines
         /\ all_of PDuplicates dups /\ all_of PEntropy ents
         /\ all_of PChars chars /\ all_of PStructure structs)
      /\ lines_of PNearEmpty (report docs) = near_empty_lines (lengths_of docs)
      /\ In StatsHeader (report docs) /\ In DupHeader (report docs)
      /\ In EntropyHeader (report docs) /\ In CharsHeader (report docs)
      /\ In StructureHeader (report docs) /\ In Complete (report docs)).
Proof.
  split; [apply report_sorted|]. split.
  - intros Hne.
    destruct (printed_length_stats_lines docs Hne) as (mn & mx & avg & med & Hp).
    exists mn, mx, avg, med. rewrite <- Hp. apply report_stats, Hne.
  - intros Hne Hnone.
    destruct (printed_length_stats_lines docs Hne) as (mn & mx & avg & med & Hp).
    destruct (report_complete docs Hne Hnone) as (es & ds & _ & _ & Hr).
    rewrite Hp in Hr.
    destruct (report_parts docs Hne Hnone) as (stats & es' & ds' & _ & _ & _ & _ & _ & _ & _ & _ & Hn & _).
    split; [|split; [exact Hn|]].
    + exists mn, mx, avg, med, (dup_lines docs), (entropy_lines es),
        (chars_lines (tally docs)), (structure_lines docs ds (lengths_of docs)).
      split; [exact Hr|].
      split; [apply all_of_dup_lines|]. split; [apply all_of_entropy_lines|].
      split; [apply all_of_chars_lines | apply all_of_structure_lines].
    + rewrite Hr, !in_app_iff. unfold closing_lines. simpl. tauto.
Qed.

(** The amended C2 on a collection of two documents. *)
Lemma report_parts_in_order_witness :
  exists mn mx avg med rest,
    report [blank; doc [97; 98; 99]]
    = Banner :: StatsHeader :: StatsCount 2 :: StatsMin mn :: StatsMax mx
      :: StatsAvg avg :: StatsMedian med :: WarnVeryShort 2 [0%nat; 1%nat]
      :: DupHeader :: rest
    /\ StronglySorted rank_le (report [blank; doc [97; 98; 99]])
    /\ lines_of PNearEmpty (report [blank; doc [97; 98; 99]])
       = [WarnNearEmpty 2 [0%nat; 1%nat]].
Proof.
  destruct (report_parts_in_order [blank; doc [97; 98; 99]]) as (Hs & _ & Hp).
  destruct Hp as (Hr & Hn & _); [discriminate | vm_compute; tauto |].
  destruct Hr as (mn & mx & avg & med & dups & ents & chars & structs & Hr & _).
  exists mn, mx, avg, med.
  eexists. split; [rewrite Hr; reflexivity|]. split; [exact Hs | exact Hn].
Defined.

(** C3.  On an empty collection [validate_docs] returns without raising
    after printing the banner and one warning line: the report has exactly
    one warning and no line of statistics. *)
Theorem validate_docs_empty_collection :
  outcome [] = Ok tt
  /\ report [] = [Banner; WarnNoDocs]
  /\ length (filter is_warning (report [])) = 1%nat
  /\ filter is_statistic (report []) = [].
Proof. repeat split. Qed.

(** C4.  The entropy of the empty text is 0; the entropy of every text is
    computed without raising and is at least 0; and the entropy of a
    non-empty text made of one repeated character, [repeat c (S n)], is
    exactly 0. *)
Theorem shannon_entropy_properties :
  shannon_entropy [] = Ok 0%R
  /\ (forall T : str, exists e : R, shannon_entropy T = Ok e /\ (e >= 0)%R)
  /\ (forall (c : char) (n : nat), shannon_entropy (repeat c (S n)) = Ok 0%R).
Proof.
  split; [reflexivity|]. split.
  - intros T. destruct (shannon_entropy_total T) as [e [He Hpos]].
    exists e. split; [assumption | lra].
  - intros c n. apply shannon_entropy_repeat.
Qed.

(** C5.  When at most three documents lack a content, the items of
    [repeated] are exactly the content strings that occur more than 3
    times, each once and with its number of occurrences; the entries
    shown are the first 5 of them by decreasing count, any item left out
    having a count no greater; each entry shows its rank, its count and
    the first 120 characters of the text with newlines replaced by
    spaces; and for 10 documents where one text occurs exactly 5 times
    and no other more than 3 times, the part is the header, the count 1,
    the hint and one entry of count 5. *)
Theorem duplicate_detection_reports (docs : list Document) :
  docs <> [] ->
  occurrences content_eqb None (contents docs) <= 3 ->
  (forall txt c,
      In (txt, c) (repeated docs)
      <-> exists s, txt = Some s
                    /\ c = occurrences content_eqb (Some s) (contents docs)
                    /\ 3 < c)
  /\ NoDup (map fst (repeated docs))
  /\ StronglySorted (fun a b => snd b <= snd a) (top_repeated docs)
  /\ length (top_repeated docs) = Nat.min 5 (length (repeated docs))
  /\ (forall x, In x (top_repeated docs) -> In x (repeated docs))
  /\ (forall x y, In x (top_repeated docs) -> In y (repeated docs) ->
                  ~ In y (top_repeated docs) -> snd y <= snd x)
  /\ outcome docs = Ok tt
  /\ lines_of PDuplicates (report docs)
     = DupHeader ::
       (if is_empty (repeated docs) then [DupNone]
        else DupFound (len (repeated docs)) :: DupHint
             :: map entry_line (enumerate (top_repeated docs)))
  /\ (forall i txt c,
        nth_error (top_repeated docs) i = Some (txt, c) ->
        exists s, txt = Some s
                  /\ nth_error (map entry_line (enumerate (top_repeated docs))) i
                     = Some (DupEntry (S i) c (firstn 120 (replace NEWLINE SPACE s))))
  /\ (forall s, (length (firstn 120 (replace NEWLINE SPACE s)) <= 120)%nat
                /\ ~ In NEWLINE (firstn 120 (replace NEWLINE SPACE s)))
  /\ (forall s,
        len docs = 10 ->
        occurrences content_eqb (Some s) (contents docs) = 5 ->
        (forall t c, In (t, c) (items (content_counts docs)) -> t <> Some s -> c <= 3) ->
        lines_of PDuplicates (report docs)
        = [DupHeader; DupFound 1; DupHint;
           DupEntry 1 5 (firstn 120 (replace NEWLINE SPACE s))]).
Proof.
  intros Hne Hnone.
  pose proof (top_repeated_no_None docs Hnone) as Hcomp.
  destruct (report_parts docs Hne Hcomp) as (stats & es & ds & _ & _ & Ho & _ & Hd & _).
  assert (Hrep : forall txt c,
      In (txt, c) (repeated docs)
      <-> exists s, txt = Some s
                    /\ c = occurrences content_eqb (Some s) (contents docs)
                    /\ 3 < c).
  { intros txt c. rewrite repeated_spec. split.
    - intros [Hc H3]. destruct txt as [s|]; [exists s; auto | lia].
    - intros [s [-> [Hc H3]]]. auto. }
  split; [exact Hrep|].
  split; [apply repeated_NoDup|].
  split; [apply top_repeated_sorted|].
  split; [apply top_repeated_length|].
  split; [apply top_repeated_incl|].
  split; [apply top_repeated_top|].
  split; [exact Ho|].
  split; [exact Hd|].
  split; [|split].
  - intros i txt c Hi.
    assert (Hin : In (txt, c) (repeated docs)).
    { apply top_repeated_incl. apply nth_error_In with (n := i). exact Hi. }
    apply Hrep in Hin. destruct Hin as [s [-> _]]. exists s. split; [reflexivity|].
    rewrite nth_error_map, (enumerate_nth _ _ _ Hi). reflexivity.
  - intros s. split; [apply preview_of_length | apply preview_of_single_line].
  - intros s _ H5 Hothers.
    assert (Hin : In (Some s, 5) (repeated docs)).
    { apply repeated_spec. split; [symmetry; exact H5 | lia]. }
    assert (Hsingle : repeated docs = [(Some s, 5)]).
    { apply single_key; [apply repeated_NoDup | | exact Hin].
      intros [t c] Hx. simpl.
      destruct (content_eqb_spec t (Some s)) as [E|E]; [exact E|].
      exfalso. unfold repeated in Hx. apply filter_In in Hx. destruct Hx as [Hx H3].
      simpl in H3. apply Z.ltb_lt in H3.
      pose proof (Hothers t c Hx E). lia. }
    rewrite Hd. unfold dup_lines, top_repeated. rewrite Hsingle. reflexivity.
Qed.

(** C5 on ten documents: one text five times, one three times, one
    twice. *)
Lemma duplicate_detection_reports_witness :
  let a := doc [104; 101; 97; 100; 10; 101; 114] in
  let b := doc [98] in
  let c := doc [99] in
  let docs := [a; b; a; c; a; b; a; b; a; c] in
  outcome docs = Ok tt
  /\ lines_of PDuplicates (report docs)
     = [DupHeader; DupFound 1; DupHint;
        DupEntry 1 5 [104; 101; 97; 100; 32; 101; 114]].
Proof.
  intros a b c docs.
  destruct (duplicate_detection_reports docs) as (_ & _ & _ & _ & _ & _ & Ho & _ & _ & _ & Hex).
  - discriminate.
  - vm_compute. discriminate.
  - split; [exact Ho|].
    apply (Hex [104; 101; 97; 100; 10; 101; 114]).
    + reflexivity.
    + reflexivity.
    + intros t n Hin Ht. vm_compute in Hin.
      destruct Hin as [E|[E|[E|[]]]]; inversion E; subst; try lia.
      exfalso. apply Ht. reflexivity.
Defined.

(** C6.  Whatever the rounding of the arithmetic of [shannon_entropy]
    ([F] is arbitrary), in a run that reaches the entropy scan the
    flagged indices are exactly the positions of the documents whose
    computed entropy [e] satisfies [0 < e < 2.5]; a document of entropy
    0, and so every empty document, is not flagged; the indices are in
    increasing order; and the scan prints, after its header, the number
    of flagged documents with the first 10 flagged indices, or the line
    saying that none was detected.  These are the lines of the entropy
    part of the report. *)
Theorem entropy_scan_flags (F : arith) (docs : list Document) :
  docs <> [] -> ~ In None (map fst (top_repeated docs)) ->
  exists es,
    entropies_in F docs = Ok es
    /\ (forall i, In i (low_entropy_indices es)
        <-> exists d e, nth_error docs i = Some d
                        /\ shannon_entropy_in F (content_or_empty d) = Ok e
                        /\ (0 < e < 2.5)%R)
    /\ (forall i d, nth_error docs i = Some d ->
        shannon_entropy_in F (content_or_empty d) = Ok 0%R ->
        ~ In i (low_entropy_indices es))
    /\ (forall i d, nth_error docs i = Some d -> content_or_empty d = [] ->
        ~ In i (low_entropy_indices es))
    /\ StronglySorted lt (low_entropy_indices es)
    /\ printed (entropy_analysis_in F) docs
       = [EntropyHeader;
          if is_empty (low_entropy_indices es) then EntropyNone
          else EntropyLow (len (low_entropy_indices es))
                          (firstn 10 (low_entropy_indices es))]
    /\ lines_of PEntropy (report_in F docs)
       = [EntropyHeader;
          if is_empty (low_entropy_indices es) then EntropyNone
          else EntropyLow (len (low_entropy_indices es))
                          (firstn 10 (low_entropy_indices es))].
Proof.
  intros Hne Hnone.
  destruct (entropies_in_ok F docs) as [es He].
  exists es. split; [exact He|].
  destruct (report_in_complete F docs es Hne Hnone He) as (ds & _ & Hr).
  assert (Hiff : forall i, In i (low_entropy_indices es)
        <-> exists d e, nth_error docs i = Some d
                        /\ shannon_entropy_in F (content_or_empty d) = Ok e
                        /\ (0 < e < 2.5)%R).
  { intros i. rewrite low_entropy_indices_In. split.
    - intros [e [Hi Hb]]. apply (entropies_in_nth F docs es He) in Hi.
      destruct Hi as [d [Hd Hs]]. exists d, e. auto.
    - intros [d [e [Hd [Hs Hb]]]]. exists e. split; [|exact Hb].
      apply (entropies_in_nth F docs es He). exists d. auto. }
  assert (Hzero : forall i d, nth_error docs i = Some d ->
        shannon_entropy_in F (content_or_empty d) = Ok 0%R ->
        ~ In i (low_entropy_indices es)).
  { intros i d Hd Hs Hin. apply Hiff in Hin.
    destruct Hin as [d' [e [Hd' [Hs' Hb]]]].
    assert (d' = d) by congruence. subst d'.
    assert (e = 0%R) by congruence. subst e. lra. }
  split; [exact Hiff|]. split; [exact Hzero|]. split; [|split; [|split]].
  - intros i d Hd Hempty. apply (Hzero i d Hd).
    unfold shannon_entropy_in. rewrite Hempty. reflexivity.
  - apply indices_where_sorted.
  - unfold printed. rewrite (exec_entropy_analysis_in F docs es He).
    unfold entropy_lines. cbv zeta. cbn [snd].
    destruct (is_empty (low_entropy_indices es)); reflexivity.
  - rewrite Hr.
    destruct (printed_length_stats docs Hne) as (_ & Hs & _).
    rewrite (pick_entropy (printed length_stats docs) (DupHeader :: dup_lines docs)
               (EntropyHeader :: entropy_lines es)
               (CharsHeader :: chars_lines (tally docs))
               (StructureHeader :: structure_lines docs ds (lengths_of docs))
               (near_empty_lines (lengths_of docs))).
    + unfold entropy_lines. cbv zeta.
      destruct (is_empty (low_entropy_indices es)); reflexivity.
    + exact Hs.
    + apply all_of_cons; [reflexivity | apply all_of_dup_lines].
    + apply all_of_cons; [reflexivity | apply all_of_entropy_lines].
    + apply all_of_cons; [reflexivity | apply all_of_chars_lines].
    + apply all_of_cons; [reflexivity | apply all_of_structure_lines].
    + apply all_of_near_empty_lines.
Qed.

(** C6 in exact arithmetic, on an empty document followed by a document
    of one repeated character: none is flagged. *)
Lemma entropy_scan_flags_witness :
  lines_of PEntropy (report_in exact [blank; doc [97; 97; 97]])
  = [EntropyHeader; EntropyNone].
Proof.
  destruct (entropy_scan_flags exact [blank; doc [97; 97; 97]])
    as (es & _ & Hiff & Hzero & _ & _ & _ & Hl).
  - discriminate.
  - vm_compute. tauto.
  - rewrite Hl.
    assert (Hall : forall i, ~ In i (low_entropy_indices es)).
    { intros i Hin. pose proof Hin as Hin'. apply Hiff in Hin'.
      destruct Hin' as (d & e & Hd & _).
      apply (Hzero i d Hd); [|exact Hin].
      destruct i as [|[|i]]; simpl in Hd.
      - injection Hd as <-. reflexivity.
      - injection Hd as <-. apply (shannon_entropy_repeat 97 2).
      - destruct i; discriminate. }
    destruct (low_entropy_indices es) as [|i l]; [reflexivity|].
    exfalso. apply (Hall i). left. reflexivity.
Defined.

(** C7.  [is_non_ascii_heavy] returns false on the empty string for every
    threshold; on the ten characters of "cafe naive" written with e-acute
    and i-diaeresis (two of them above code point 127) it returns true
    with threshold 0.05 and false with threshold 0.5. *)
Theorem is_non_ascii_heavy_examples :
  (forall threshold : R, is_non_ascii_heavy [] threshold = Ok false)
  /\ is_non_ascii_heavy cafe_naive 0.05 = Ok true
  /\ is_non_ascii_heavy cafe_naive 0.5 = Ok false.
Proof.
  split; [reflexivity|].
  assert (E : forall t, is_non_ascii_heavy cafe_naive t = Ok (Rltb t (IZR 2 / IZR 10))).
  { intros t. reflexivity. }
  rewrite !E. split; f_equal.
  - apply Rltb_true. lra.
  - apply Rltb_false. lra.
Qed.

(** C8.  In a run that reaches the character checks, each of the four
    counters is the number of documents on which its detector trips; a
    document that contains the replacement character adds exactly 1 to
    [replacement_hits], however many times it contains it, and a document
    without it adds nothing; and when no document trips any detector the
    part is its header followed by the line saying that no issue was
    detected. *)
Theorem char_artifact_scan_tallies (docs : list Document) :
  docs <> [] -> ~ In None (map fst (top_repeated docs)) ->
  scan_docs no_hits docs =
    Ok {| ligature_hits := len (filter trips_ligature docs);
          replacement_hits := len (filter trips_replacement docs);
          hyphen_break_hits := len (filter trips_hyphen_break docs);
          non_ascii_heavy_hits := len (filter trips_non_ascii docs) |}
  /\ lines_of PChars (report docs) = CharsHeader :: chars_lines (tally docs)
  /\ (forall (h : hits) (d : Document),
        In REPLACEMENT (content_or_empty d) ->
        exists h', scan_doc h d = Ok h'
                   /\ replacement_hits h' = replacement_hits h + 1)
  /\ (forall (h : hits) (d : Document),
        ~ In REPLACEMENT (content_or_empty d) ->
        exists h', scan_doc h d = Ok h'
                   /\ replacement_hits h' = replacement_hits h)
  /\ ((forall d, In d docs ->
         trips_ligature d = false /\ trips_replacement d = false
         /\ trips_hyphen_break d = false /\ trips_non_ascii d = false) ->
      lines_of PChars (report docs) = [CharsHeader; CharsNone]).
Proof.
  intros Hne Hnone.
  destruct (report_parts docs Hne Hnone) as (stats & es & ds & _ & _ & _ & _ & _ & _ & Hc & _).
  split; [apply scan_docs_tally|]. split; [exact Hc|]. split; [|split].
  - intros h d Hin. eexists. split; [apply scan_doc_spec|]. simpl.
    rewrite (proj2 (trips_replacement_In d) Hin). reflexivity.
  - intros h d Hin. eexists. split; [apply scan_doc_spec|]. simpl.
    destruct (trips_replacement d) eqn:E; [|lia].
    apply trips_replacement_In in E. contradiction.
  - intros Hall. rewrite Hc. f_equal.
    assert (Ht : tally docs = no_hits).
    { unfold tally, no_hits.
      rewrite !count_docs_none; [reflexivity | | | |]; intros d Hd; apply (Hall d Hd). }
    rewrite Ht. reflexivity.
Qed.

(** C8 on two clean documents, and on a document with three
    replacement characters. *)
Lemma char_artifact_scan_tallies_witness :
  lines_of PChars (report [doc [97; 98; 99]; blank]) = [CharsHeader; CharsNone]
  /\ (exists h', scan_doc no_hits (doc [REPLACEMENT; 97; REPLACEMENT; REPLACEMENT]) = Ok h'
                 /\ replacement_hits h' = 1).
Proof.
  destruct (char_artifact_scan_tallies [doc [97; 98; 99]; blank])
    as (_ & _ & Hr & _ & Hn).
  - discriminate.
  - vm_compute. tauto.
  - split.
    + apply Hn. intros d [<-|[<-|[]]]; repeat split; try reflexivity.
      change (trips_non_ascii (doc [97; 98; 99])) with (Rltb 0.05 (IZR 0 / IZR 3)).
      apply Rltb_false. lra.
    + apply (Hr no_hits (doc [REPLACEMENT; 97; REPLACEMENT; REPLACEMENT])).
      left. reflexivity.
Defined.

(** C9.  [validate_docs] never assigns to the collection it is given:
    whatever was printed before, and whether the call returns or raises,
    the documents are after the call what they were before, content and
    metadata alike. *)
Theorem validate_docs_never_mutates :
  (forall w : world, heap (snd (validate_docs w)) = heap w)
  /\ (forall docs : list Document,
        docs_after docs = docs
        /\ map page_content (docs_after docs) = map page_content docs
        /\ map metadata (docs_after docs) = map metadata docs).
Proof.
  assert (H : forall w : world, heap (snd (validate_docs w)) = heap w).
  { intros w. rewrite (reads_only_validate_docs w). reflexivity. }
  split; [exact H|].
  intros docs. unfold docs_after, run. rewrite H. auto.
Qed.

(** C10.  A document made of one repeated character, [repeat c (S n)],
    has entropy 0, so its index is never among the low-entropy indices
    nor among the examples printed by the entropy scan. *)
Theorem single_character_document_never_flagged
    (docs : list Document) (i : nat) (d : Document) (c : char) (n : nat) :
  nth_error docs i = Some d ->
  page_content d = Some (repeat c (S n)) ->
  exists es,
    entropies docs = Ok es
    /\ nth_error es i = Some 0%R
    /\ ~ In i (low_entropy_indices es)
    /\ (forall k examples, In (EntropyLow k examples) (report docs) -> ~ In i examples).
Proof.
  intros Hd Hc.
  destruct (entropies_ok docs) as [es He]. exists es. split; [exact He|].
  assert (Hs : shannon_entropy (content_or_empty d) = Ok 0%R).
  { unfold content_or_empty. rewrite Hc. cbn [is_empty repeat].
    change (c :: repeat c n) with (repeat c (S n)). apply shannon_entropy_repeat. }
  assert (Hi : nth_error es i = Some 0%R).
  { apply (entropies_nth docs es He). exists d. auto. }
  assert (Hlow : ~ In i (low_entropy_indices es)).
  { intros Hin. apply low_entropy_indices_In in Hin. destruct Hin as [e [Hi' Hb]].
    assert (e = 0%R) by congruence. subst e. lra. }
  split; [exact Hi|]. split; [exact Hlow|].
  intros k examples Hin Hex.
  assert (Hne : docs <> []) by (intros ->; destruct i; discriminate).
  assert (Hp : In (EntropyLow k examples) (lines_of PEntropy (report docs))).
  { apply filter_In. split; [exact Hin | reflexivity]. }
  destruct (In_None_dec docs) as [Hn|Hn].
  - destruct (report_raises docs Hne Hn) as (_ & stats & dups & Hst & Hdu & Hr).
    rewrite Hr, !lines_of_app in Hp.
    rewrite (lines_of_other PEntropy PBanner [Banner] all_of_banner) in Hp by discriminate.
    rewrite (lines_of_other PEntropy PStats stats Hst) in Hp by discriminate.
    rewrite (lines_of_other PEntropy PDuplicates dups Hdu) in Hp by discriminate.
    exact Hp.
  - destruct (report_parts docs Hne Hn) as (stats & es' & ds & He' & _ & _ & _ & _ & Hl & _).
    assert (es' = es) by congruence. subst es'.
    rewrite Hl in Hp. unfold entropy_lines in Hp. cbv zeta in Hp.
    destruct Hp as [Hp|[Hp|[]]]; [discriminate|].
    destruct (negb (is_empty (low_entropy_indices es))); [|discriminate].
    assert (Ee : examples = firstn 10 (low_entropy_indices es)) by congruence.
    rewrite Ee in Hex. apply Hlow. apply In_firstn in Hex. exact Hex.
Qed.

(** C10 on a document of 4000 identical characters. *)
Lemma single_character_document_never_flagged_witness :
  exists es,
    entropies [doc [97; 98]; doc (repeat 120 (S 3999))] = Ok es
    /\ nth_error es 1 = Some 0%R
    /\ ~ In 1%nat (low_entropy_indices es).
Proof.
  destruct (single_character_document_never_flagged
              [doc [97; 98]; doc (repeat 120 (S 3999))] 1
              (doc (repeat 120 (S 3999))) 120 3999 eq_refl eq_refl)
    as (es & He & Hi & Hl & _).
  exists es. auto.
Defined.

(** * Further properties of the code *)

(** ** Counting with [sum(1 for ...)] *)

Lemma isum_from (l : list Z) (a : Z) : fold_left Z.add l a = a + isum l.
Proof.
  unfold isum. revert a. induction l as [|x l IH]; intros a; simpl.
  - lia.
  - rewrite IH, (IH x). lia.
Qed.

Lemma isum_cons (x : Z) (l : list Z) : isum (x :: l) = x + isum l.
Proof. unfold isum at 1. simpl. apply isum_from. Qed.

Lemma isum_ones {A : Type} (l : list A) : isum (map (fun _ => 1) l) = len l.
Proof.
  induction l as [|x l IH].
  - reflexivity.
  - simpl map. rewrite isum_cons, IH, len_cons. lia.
Qed.

Lemma len_filter_le {A : Type} (f : A -> bool) (l : list A) : len (filter f l) <= len l.
Proof. unfold len. pose proof (filter_length_le f l). lia. Qed.

Lemma len_filter_zero {A : Type} (f : A -> bool) (l : list A) :
  len (filter f l) = 0 <-> forall x, In x l -> f x = false.
Proof.
  induction l as [|a l IH]; simpl.
  - split; [intros _ x [] | reflexivity].
  - destruct (f a) eqn:E.
    + rewrite len_cons. pose proof (len_nonneg (filter f l)) as Hpos. split; [lia|].
      intros H. specialize (H a (or_introl eq_refl)). congruence.
    + rewrite IH. split.
      * intros H x [<-|Hx]; auto.
      * intros H x Hx. apply H. right. exact Hx.
Qed.

Lemma len_filter_all {A : Type} (f : A -> bool) (l : list A) :
  len (filter f l) = len l <-> forall x, In x l -> f x = true.
Proof.
  induction l as [|a l IH]; simpl.
  - split; [intros _ x [] | reflexivity].
  - destruct (f a) eqn:E.
    + rewrite !len_cons. split.
      * intros H x [<-|Hx]; [exact E|]. apply IH; [lia | exact Hx].
      * intros H. f_equal. apply IH. intros x Hx. apply H. right. exact Hx.
    + rewrite len_cons. pose proof (len_filter_le f l) as Hle. split; [lia|].
      intros H. specialize (H a (or_introl eq_refl)). congruence.
Qed.

(** ** Ratios *)

Lemma is_non_ascii_heavy_eq (text : str) (t : R) :
  is_non_ascii_heavy text t =
  Ok (if is_empty text then false
      else Rltb t (IZR (non_ascii_count text) / IZR (len text))).
Proof.
  unfold is_non_ascii_heavy, non_ascii_count. destruct (is_empty text) eqn:E; [reflexivity|].
  apply is_empty_false_len in E. rewrite isum_ones. unfold truediv.
  destruct (Z.eqb_spec (len text) 0); [lia | reflexivity].
Qed.

Lemma ratio_gt (t : R) (k n : Z) :
  0 < n -> (t < IZR k / IZR n <-> t * IZR n < IZR k)%R.
Proof.
  intros Hn. assert (Hr : (0 < IZR n)%R) by (apply IZR_lt; exact Hn).
  split; intros H.
  - apply (Rmult_lt_compat_r (IZR n)) in H; [|exact Hr].
    unfold Rdiv in H. rewrite Rmult_assoc, Rinv_l, Rmult_1_r in H by lra. exact H.
  - apply (Rmult_lt_reg_r (IZR n)); [exact Hr|].
    unfold Rdiv. rewrite Rmult_assoc, Rinv_l, Rmult_1_r by lra. exact H.
Qed.

(** X1.  [is_non_ascii_heavy] never raises.  With the default threshold it
    is true exactly when 20 times the number of characters above code
    point 127 exceeds the length.  A text flagged at a threshold is
    flagged at every lower one; a text flagged at a threshold that is
    not negative holds a character above code point 127; no text is
    flagged at a threshold of 1 or more; and every non-empty text is
    flagged at a negative threshold. *)
Theorem is_non_ascii_heavy_criterion (text : str) :
  is_non_ascii_heavy text default_threshold_ratio
    = Ok (len text <? 20 * non_ascii_count text)
  /\ (forall t : R,
        is_non_ascii_heavy text t = Ok true \/ is_non_ascii_heavy text t = Ok false)
  /\ (forall t1 t2 : R,
        (t1 <= t2)%R -> is_non_ascii_heavy text t2 = Ok true ->
        is_non_ascii_heavy text t1 = Ok true)
  /\ (forall t : R,
        (0 <= t)%R -> is_non_ascii_heavy text t = Ok true ->
        0 < non_ascii_count text)
  /\ (forall t : R, (1 <= t)%R -> is_non_ascii_heavy text t = Ok false)
  /\ (forall t : R, (t < 0)%R -> text <> [] -> is_non_ascii_heavy text t = Ok true).
Proof.
  assert (Hgen : forall t : R,
        is_non_ascii_heavy text t = Ok true
        <-> text <> [] /\ (t * IZR (len text) < IZR (non_ascii_count text))%R).
  { intros t. rewrite is_non_ascii_heavy_eq. destruct (is_empty text) eqn:E.
    - destruct text; [|discriminate]. split; [discriminate | intros [H _]; congruence].
    - pose proof (proj1 (is_empty_false_len text) E) as Hlen.
      split.
      + intros H. split; [intros ->; discriminate|].
        apply ratio_gt; [exact Hlen|]. apply Rltb_true. congruence.
      + intros [_ H]. f_equal. apply Rltb_true. apply ratio_gt; assumption. }
  assert (Hbool : forall t : R,
        is_non_ascii_heavy text t = Ok true \/ is_non_ascii_heavy text t = Ok false).
  { intros t. rewrite is_non_ascii_heavy_eq.
    destruct (if is_empty text then false else _); auto. }
  assert (Hlen : (0 <= IZR (len text))%R) by (apply IZR_le, len_nonneg).
  assert (Hcount : (0 <= IZR (non_ascii_count text) <= IZR (len text))%R).
  { unfold non_ascii_count. split; apply IZR_le; [apply len_nonneg | apply len_filter_le]. }
  split; [|split; [exact Hbool|split; [|split; [|split]]]].
  - rewrite is_non_ascii_heavy_eq. f_equal. destruct (is_empty text) eqn:E.
    + destruct text; [reflexivity | discriminate].
    + pose proof (proj1 (is_empty_false_len text) E) as Hpos.
      unfold default_threshold_ratio.
      destruct (Z.ltb_spec (len text) (20 * non_ascii_count text)) as [H|H].
      * apply Rltb_true. apply ratio_gt; [exact Hpos|].
        apply IZR_lt in H. rewrite mult_IZR in H. lra.
      * apply Rltb_false.
        assert (Hn : ~ (0.05 < IZR (non_ascii_count text) / IZR (len text))%R).
        { intros Hc. apply ratio_gt in Hc; [|exact Hpos].
          apply IZR_le in H. rewrite mult_IZR in H. lra. }
        lra.
  - intros t1 t2 Ht H2. apply Hgen in H2. apply Hgen. destruct H2 as [Hne H2].
    split; [exact Hne|].
    assert (t1 * IZR (len text) <= t2 * IZR (len text))%R
      by (apply Rmult_le_compat_r; assumption).
    lra.
  - intros t Ht H. apply Hgen in H. destruct H as [_ H].
    apply lt_IZR.
    assert (0 <= t * IZR (len text))%R by (apply Rmult_le_pos; assumption).
    lra.
  - intros t Ht. destruct (Hbool t) as [H|H]; [|exact H].
    apply Hgen in H. destruct H as [_ H].
    assert (1 * IZR (len text) <= t * IZR (len text))%R
      by (apply Rmult_le_compat_r; assumption).
    lra.
  - intros t Ht Hne. apply Hgen. split; [exact Hne|].
    assert (Hpos : (0 < IZR (len text))%R).
    { apply IZR_lt. destruct text as [|c text]; [congruence|].
      rewrite len_cons. pose proof (len_nonneg text). lia. }
    assert (t * IZR (len text) < 0)%R.
    { rewrite <- (Rmult_0_l (IZR (len text))). apply Rmult_lt_compat_r; assumption. }
    lra.
Qed.

(** An instance of [is_non_ascii_heavy_criterion]. *)
Lemma is_non_ascii_heavy_criterion_witness :
  is_non_ascii_heavy cafe_naive default_threshold_ratio = Ok true
  /\ 0 < non_ascii_count cafe_naive.
Proof.
  destruct (is_non_ascii_heavy_criterion cafe_naive) as (Hd & _ & _ & Hpos & _).
  assert (H : is_non_ascii_heavy cafe_naive default_threshold_ratio = Ok true)
    by (rewrite Hd; reflexivity).
  split; [exact H|].
  apply (Hpos default_threshold_ratio); [unfold default_threshold_ratio; lra | exact H].
Defined.

Lemma punctuation_density_eq (text : str) :
  punctuation_density text =
  Ok (if is_empty text then 0 else IZR (punct_count text) / IZR (len text))%R.
Proof.
  unfold punctuation_density, punct_count. destruct (is_empty text) eqn:E; [reflexivity|].
  apply is_empty_false_len in E. rewrite isum_ones. unfold truediv.
  destruct (Z.eqb_spec (len text) 0); [lia | reflexivity].
Qed.

Lemma ratio_bounds (k n : Z) :
  0 <= k <= n -> 0 < n -> (0 <= IZR k / IZR n <= 1)%R.
Proof.
  intros [Hk Hkn] Hn.
  assert (Hn' : (0 < IZR n)%R) by (apply IZR_lt; exact Hn).
  assert (Hk' : (0 <= IZR k)%R) by (apply IZR_le; exact Hk).
  assert (Hkn' : (IZR k <= IZR n)%R) by (apply IZR_le; exact Hkn).
  assert (Hi : (0 < / IZR n)%R) by (apply Rinv_0_lt_compat; exact Hn').
  unfold Rdiv. split.
  - apply Rmult_le_pos; lra.
  - apply (Rmult_le_reg_r (IZR n)); [exact Hn'|].
    rewrite Rmult_assoc, Rinv_l by lra. lra.
Qed.

Lemma ratio_zero (k n : Z) : 0 < n -> (IZR k / IZR n = 0)%R <-> k = 0.
Proof.
  intros Hn. assert (Hn' : (0 < IZR n)%R) by (apply IZR_lt; exact Hn).
  split.
  - intros H. apply (Rmult_eq_compat_r (IZR n)) in H.
    unfold Rdiv in H. rewrite Rmult_assoc, Rinv_l, Rmult_1_r, Rmult_0_l in H by lra.
    apply eq_IZR. exact H.
  - intros ->. unfold Rdiv. lra.
Qed.

Lemma ratio_one (k n : Z) : 0 < n -> (IZR k / IZR n = 1)%R <-> k = n.
Proof.
  intros Hn. assert (Hn' : (0 < IZR n)%R) by (apply IZR_lt; exact Hn).
  split.
  - intros H. apply (Rmult_eq_compat_r (IZR n)) in H.
    unfold Rdiv in H. rewrite Rmult_assoc, Rinv_l, Rmult_1_r, Rmult_1_l in H by lra.
    apply eq_IZR. exact H.
  - intros ->. unfold Rdiv. rewrite Rinv_r by lra. reflexivity.
Qed.

(** X2.  [punctuation_density] never raises; its value lies between 0
    and 1, is 0 exactly when the text has no punctuation character (the
    empty text included) and is 1 exactly when the text is non-empty and
    made of punctuation characters only. *)
Theorem punctuation_density_bounds (text : str) :
  exists d : R,
    punctuation_density text = Ok d
    /\ (0 <= d <= 1)%R
    /\ (d = 0%R <-> forall c, In c text -> char_in c punctuation = false)
    /\ (d = 1%R <-> text <> [] /\ forall c, In c text -> char_in c punctuation = true).
Proof.
  rewrite punctuation_density_eq. eexists. split; [reflexivity|].
  destruct (is_empty text) eqn:E.
  - destruct text; [|discriminate]. split; [lra|]. split.
    + split; [intros _ c [] | reflexivity].
    + split; [intros H; lra | intros [H _]; congruence].
  - pose proof (proj1 (is_empty_false_len text) E) as Hlen.
    assert (Hb : 0 <= punct_count text <= len text).
    { unfold punct_count. split; [apply len_nonneg | apply len_filter_le]. }
    split; [apply ratio_bounds; assumption|]. split.
    + rewrite (ratio_zero _ _ Hlen). unfold punct_count. apply len_filter_zero.
    + rewrite (ratio_one _ _ Hlen). unfold punct_count. rewrite len_filter_all.
      split; [intros H; split; [intros ->; discriminate | exact H] | intros [_ H]; exact H].
Qed.

(** X3.  [newline_count] adds up over concatenation, lies between 0 and
    the length of the text, is 0 exactly when the text has no newline,
    and is 0 on a text whose newlines were replaced by spaces. *)
Theorem newline_count_properties :
  (forall a b : str, newline_count (a ++ b) = newline_count a + newline_count b)
  /\ (forall s : str, 0 <= newline_count s <= len s)
  /\ (forall s : str, newline_count s = 0 <-> ~ In NEWLINE s)
  /\ (forall s : str, newline_count (replace NEWLINE SPACE s) = 0)
  /\ newline_count [97; NEWLINE; 98; NEWLINE; 99] = 2.
Proof.
  split; [|split; [|split; [|split]]].
  - intros a b. unfold newline_count. rewrite filter_app, len_app. reflexivity.
  - intros s. unfold newline_count. split; [apply len_nonneg | apply len_filter_le].
  - intros s. unfold newline_count. rewrite len_filter_zero. split.
    + intros H Hin. specialize (H NEWLINE Hin). discriminate.
    + intros H x Hx. destruct (Z.eqb_spec NEWLINE x) as [<-|Hne]; [contradiction | reflexivity].
  - intros s. unfold newline_count. apply len_filter_zero. intros x Hx.
    unfold replace in Hx. apply in_map_iff in Hx. destruct Hx as [c [E _]].
    destruct (Z.eqb_spec c NEWLINE) as [Hc|Hc].
    + subst x. reflexivity.
    + subst x. destruct (Z.eqb_spec NEWLINE c); [congruence | reflexivity].
  - reflexivity.
Qed.

(** ** Sums *)

Lemma fsum_from (l : list R) (a : R) : (fold_left Rplus l a = a + fsum l)%R.
Proof.
  unfold fsum. revert a. induction l as [|x l IH]; intros a; simpl.
  - lra.
  - rewrite IH, (IH (0 + x)%R). lra.
Qed.

Lemma fsum_cons (x : R) (l : list R) : (fsum (x :: l) = x + fsum l)%R.
Proof. unfold fsum at 1. simpl. rewrite fsum_from. lra. Qed.

Lemma fsum_nil : fsum [] = 0%R.
Proof. reflexivity. Qed.

Lemma fsum_map_le {A : Type} (f g : A -> R) (l : list A) :
  (forall x, In x l -> (f x <= g x)%R) -> (fsum (map f l) <= fsum (map g l))%R.
Proof.
  induction l as [|x l IH]; intros H; simpl map.
  - lra.
  - rewrite !fsum_cons.
    pose proof (H x (or_introl eq_refl)).
    pose proof (IH (fun y Hy => H y (or_intror Hy))). lra.
Qed.

Lemma fsum_map_scal {A : Type} (c : R) (f : A -> R) (l : list A) :
  (fsum (map (fun x => f x * c) l) = fsum (map f l) * c)%R.
Proof.
  induction l as [|x l IH]; simpl map.
  - rewrite !fsum_nil. lra.
  - rewrite !fsum_cons, IH. lra.
Qed.

Lemma fsum_map_IZR (c : R) (l : list Z) :
  (fsum (map (fun v => IZR v * c) l) = IZR (isum l) * c)%R.
Proof.
  induction l as [|x l IH]; simpl map.
  - rewrite fsum_nil. change (isum []) with 0. lra.
  - rewrite fsum_cons, isum_cons, IH, plus_IZR. lra.
Qed.

Lemma fsum_nonpos_zero {A : Type} (f : A -> R) (l : list A) :
  (forall x, In x l -> (f x <= 0)%R) ->
  fsum (map f l) = 0%R -> forall x, In x l -> f x = 0%R.
Proof.
  induction l as [|a l IH]; intros Hle Hs x Hx; [contradiction|].
  simpl map in Hs. rewrite fsum_cons in Hs.
  pose proof (Hle a (or_introl eq_refl)) as Ha.
  assert (Hl : (fsum (map f l) <= 0)%R).
  { replace 0%R with (fsum (map (fun _ : A => 0%R) l)).
    - apply fsum_map_le. intros y Hy. apply Hle. right. exact Hy.
    - clear. induction l as [|b l IH]; [reflexivity|].
      simpl map. rewrite fsum_cons, IH. lra. }
  destruct Hx as [<-|Hx]; [lra|].
  apply IH; [intros y Hy; apply Hle; right; exact Hy | lra | exact Hx].
Qed.

(** ** The counts of a Counter add up to the length *)

Section CounterSum.
Context {K : Type} (eqb : K -> K -> bool).

Lemma isum_values_incr_K (x : K) (c : list (K * Z)) :
  isum (values (counter_incr eqb x c)) = isum (values c) + 1.
Proof.
  unfold values. induction c as [|[k n] c IH]; simpl.
  - reflexivity.
  - destruct (eqb x k); simpl map; rewrite !isum_cons; simpl; [lia|].
    rewrite IH. lia.
Qed.

Lemma isum_values_Counter_K (l : list K) :
  isum (values (Counter eqb l)) = len l.
Proof.
  induction l as [|x l IH] using rev_ind.
  - reflexivity.
  - unfold Counter. rewrite fold_left_app. simpl.
    fold (Counter eqb l). rewrite isum_values_incr_K, IH, len_app. reflexivity.
Qed.
End CounterSum.

Lemma isum_values_Counter (text : str) :
  isum (values (Counter Z.eqb text)) = len text.
Proof. apply isum_values_Counter_K. Qed.

Lemma Counter_keys_In (text : str) (c : char) :
  In c (map fst (Counter Z.eqb text)) <-> In c text.
Proof.
  split.
  - intros H. apply in_map_iff in H. destruct H as [[k n] [E H]]. simpl in E. subst k.
    apply (Counter_items Z.eqb Z_eqb_reflect) in H. destruct H as [-> H].
    apply (occurrences_pos_In Z.eqb Z_eqb_reflect). exact H.
  - intros H. apply (occurrences_pos_In Z.eqb Z_eqb_reflect) in H.
    apply in_map_iff. exists (c, occurrences Z.eqb c text).
    split; [reflexivity|]. apply (Counter_items Z.eqb Z_eqb_reflect). auto.
Qed.

(** ** Entropy: when it is zero *)

Lemma occurrences_two (a b : char) (l : str) :
  a <> b -> occurrences Z.eqb a l + occurrences Z.eqb b l <= len l.
Proof.
  intros Hab. unfold occurrences. induction l as [|x l IH]; simpl.
  - reflexivity.
  - rewrite len_cons.
    destruct (Z.eqb_spec a x) as [Ea|Ea], (Z.eqb_spec b x) as [Eb|Eb];
      rewrite ?len_cons; lia.
Qed.

Lemma all_equal_repeat (x : char) (l : str) :
  (forall y, In y l -> y = x) -> l = repeat x (length l).
Proof.
  induction l as [|y l IH]; intros H; simpl; [reflexivity|].
  rewrite (H y (or_introl eq_refl)). f_equal. apply IH. intros z Hz. apply H. right. exact Hz.
Qed.

Lemma some_other (x : char) (l : str) :
  (forall y, In y l -> y = x) \/ exists y, In y l /\ y <> x.
Proof.
  induction l as [|z l [IH|[y [Hy Hn]]]].
  - left. intros y [].
  - destruct (Z.eq_dec z x) as [->|Hz].
    + left. intros y [<-|Hy]; [reflexivity | apply IH, Hy].
    + right. exists z. split; [left; reflexivity | exact Hz].
  - right. exists y. split; [right; exact Hy | exact Hn].
Qed.

Lemma term_zero (p : R) : (0 < p)%R -> (p * (ln p / ln 2) = 0)%R -> p = 1%R.
Proof.
  intros Hp H.
  assert (H2 : (0 < ln 2)%R) by (rewrite <- ln_1; apply ln_increasing; lra).
  apply Rmult_integral in H. destruct H as [H|H]; [lra|].
  unfold Rdiv in H. apply Rmult_integral in H. destruct H as [H|H].
  - apply ln_inv; [exact Hp | lra | rewrite ln_1; exact H].
  - assert (0 < / ln 2)%R by (apply Rinv_0_lt_compat; exact H2). lra.
Qed.

Lemma entropy_zero_all_equal (T : str) :
  is_empty T = false ->
  shannon_entropy T = Ok 0%R ->
  forall a b, In a T -> In b T -> a = b.
Proof.
  intros Hne He a b Ha Hb.
  pose proof (proj1 (is_empty_false_len T) Hne) as Hlen.
  rewrite (shannon_entropy_eq T Hne) in He.
  set (t := fun v : Z => let p := (IZR v / IZR (len T))%R in (p * (ln p / ln 2))%R) in He.
  assert (Hs : fsum (map t (values (Counter Z.eqb T))) = 0%R).
  { injection He as He. lra. }
  assert (Hle : forall w, In w (values (Counter Z.eqb T)) -> (t w <= 0)%R).
  { intros w Hw. unfold t. cbv zeta.
    apply log2_term_nonpos, prob_bounds, Counter_values_bounds, Hw. }
  assert (Hall : forall v, In v (values (Counter Z.eqb T)) -> v = len T).
  { intros v Hv.
    pose proof (Counter_values_bounds T v Hv) as Hb'.
    pose proof (prob_bounds v (len T) Hb') as Hp.
    pose proof (fsum_nonpos_zero t _ Hle Hs v Hv) as Ht.
    unfold t in Ht. cbv zeta in Ht. apply term_zero in Ht; [|lra].
    apply (ratio_one v (len T) Hlen). exact Ht. }
  assert (Hocc : forall c, In c T -> occurrences Z.eqb c T = len T).
  { intros c Hc. apply Hall. unfold values. apply in_map_iff.
    exists (c, occurrences Z.eqb c T). split; [reflexivity|].
    apply (Counter_items Z.eqb Z_eqb_reflect). split; [reflexivity|].
    apply (occurrences_pos_In Z.eqb Z_eqb_reflect). exact Hc. }
  destruct (Z.eq_dec a b) as [E|E]; [exact E|].
  pose proof (occurrences_two a b T E). rewrite (Hocc a Ha), (Hocc b Hb) in *. lia.
Qed.

(** X4.  The entropy of a text is 0 exactly when all its characters are
    equal (the empty text included), and positive exactly when it holds
    two different characters. *)
Theorem entropy_zero_iff_one_symbol (T : str) :
  exists e : R,
    shannon_entropy T = Ok e
    /\ (e = 0%R <-> forall a b, In a T -> In b T -> a = b)
    /\ ((0 < e)%R <-> exists a b, In a T /\ In b T /\ a <> b).
Proof.
  destruct (shannon_entropy_total T) as [e [He Hpos]]. exists e.
  split; [exact He|].
  assert (Hz : e = 0%R <-> forall a b, In a T -> In b T -> a = b).
  { destruct T as [|x T].
    - split; [intros _ a b [] | intros _; unfold shannon_entropy in He; simpl in He; congruence].
    - split.
      + intros ->. apply entropy_zero_all_equal; [reflexivity | exact He].
      + intros Hall.
        assert (Hr : x :: T = repeat x (S (length T))).
        { apply (all_equal_repeat x (x :: T)). intros y Hy.
          apply (Hall y x); [exact Hy | left; reflexivity]. }
        rewrite Hr, shannon_entropy_repeat in He. congruence. }
  split; [exact Hz|]. split.
  - intros Hlt. destruct T as [|x T].
    + unfold shannon_entropy in He. simpl in He. injection He as He. lra.
    + destruct (some_other x (x :: T)) as [Hall|[y [Hy Hn]]].
      * exfalso. assert (e = 0%R); [|lra]. apply Hz. intros a b Ha Hb.
        rewrite (Hall a Ha), (Hall b Hb). reflexivity.
      * exists y, x. repeat split; [exact Hy | left; reflexivity | exact Hn].
  - intros [a [b [Ha [Hb Hab]]]].
    destruct (Req_dec e 0) as [E|E]; [|lra].
    exfalso. apply Hab. apply (proj1 Hz E); assumption.
Qed.

(** ** Entropy: upper bound *)

Lemma ln_le_sub1 (x : R) : (0 < x)%R -> (ln x <= x - 1)%R.
Proof.
  intros Hx. pose proof (exp_ineq1_le (ln x)) as H. rewrite (exp_ln x Hx) in H. lra.
Qed.

Lemma ln_monotone (x y : R) : (0 < x)%R -> (x <= y)%R -> (ln x <= ln y)%R.
Proof.
  intros Hx [Hlt | Heq]; [|rewrite Heq; lra]. left. apply ln_increasing; assumption.
Qed.

(** One term of the sum against the uniform distribution on [K] symbols. *)
Lemma term_bound (p K : R) :
  (0 < p)%R -> (0 < K)%R -> (- (p * ln p) <= p * (ln K - 1) + / K)%R.
Proof.
  intros Hp HK.
  assert (HKp : (0 < K * p)%R) by (apply Rmult_lt_0_compat; assumption).
  assert (Hi : (0 < / (K * p))%R) by (apply Rinv_0_lt_compat; exact HKp).
  pose proof (ln_le_sub1 _ Hi) as H.
  rewrite ln_Rinv, ln_mult in H by assumption.
  assert (Hm : (p * (- (ln K + ln p)) <= p * (/ (K * p) - 1))%R)
    by (apply Rmult_le_compat_l; lra).
  replace (p * (/ (K * p) - 1))%R with (/ K - p)%R in Hm by (field; lra).
  lra.
Qed.

Lemma fsum_affine (a b : R) (l : list Z) :
  (fsum (map (fun v => IZR v * a + b) l) = IZR (isum l) * a + IZR (len l) * b)%R.
Proof.
  induction l as [|x l IH]; simpl map.
  - rewrite fsum_nil. change (isum []) with 0. change (len (@nil Z)) with 0. lra.
  - rewrite fsum_cons, isum_cons, len_cons, IH, !plus_IZR. lra.
Qed.

Lemma shannon_entropy_le_log2_distinct (T : str) :
  is_empty T = false ->
  exists e, shannon_entropy T = Ok e
            /\ (e <= ln (IZR (len (Counter Z.eqb T))) / ln 2)%R.
Proof.
  intros Hne. rewrite (shannon_entropy_eq T Hne). eexists. split; [reflexivity|].
  pose proof (proj1 (is_empty_false_len T) Hne) as Hlen.
  set (vs := values (Counter Z.eqb T)).
  set (N := IZR (len T)).
  assert (HN : (0 < N)%R) by (apply IZR_lt; exact Hlen).
  assert (Hk : len (Counter Z.eqb T) = len vs).
  { unfold vs, values, len. rewrite length_map. reflexivity. }
  assert (Hvpos : forall v, In v vs -> 0 < v).
  { intros v Hv. apply (Counter_values_bounds T v Hv). }
  assert (Hkpos : 0 < len vs).
  { destruct vs as [|v vs'] eqn:E.
    - exfalso. pose proof (isum_values_Counter T) as Hs. fold vs in Hs. rewrite E in Hs.
      change (isum []) with 0 in Hs. lia.
    - rewrite len_cons. pose proof (len_nonneg vs'). lia. }
  rewrite Hk. set (K := IZR (len vs)).
  assert (HK : (0 < K)%R) by (apply IZR_lt; exact Hkpos).
  assert (H2 : (0 < ln 2)%R) by (rewrite <- ln_1; apply ln_increasing; lra).
  (* the natural-log sum *)
  assert (Hnat : (- fsum (map (fun v => IZR v / N * ln (IZR v / N)) vs) <= ln K)%R).
  { assert (Hle : (fsum (map (fun v => - (IZR v / N * ln (IZR v / N))) vs)
                   <= fsum (map (fun v => IZR v * (/ N * (ln K - 1)) + / K) vs))%R).
    { apply fsum_map_le. intros v Hv.
      pose proof (prob_bounds v (len T) (Counter_values_bounds T v Hv)) as Hp.
      fold N in Hp.
      pose proof (term_bound (IZR v / N) K (proj1 Hp) HK) as Hb.
      unfold Rdiv in *. lra. }
    rewrite fsum_affine in Hle.
    unfold vs in Hle at 2. rewrite isum_values_Counter in Hle. fold N K in Hle.
    replace (fsum (map (fun v => - (IZR v / N * ln (IZR v / N))) vs))%R
      with (- fsum (map (fun v => IZR v / N * ln (IZR v / N)) vs))%R in Hle.
    - replace (N * (/ N * (ln K - 1)) + K * / K)%R with (ln K) in Hle by (field; lra).
      exact Hle.
    - clear. induction vs as [|x l IH]; simpl map.
      + rewrite !fsum_nil. lra.
      + rewrite !fsum_cons, <- IH. lra. }
  assert (Escal : fsum (map (fun v => let p := (IZR v / N)%R in
                                      (p * (ln p / ln 2))%R) vs)
                  = (fsum (map (fun v => IZR v / N * ln (IZR v / N)) vs) * / ln 2)%R).
  { rewrite <- fsum_map_scal. f_equal. apply map_ext. intros v. cbv zeta.
    unfold Rdiv. lra. }
  rewrite Escal.
  assert (Hi : (0 < / ln 2)%R) by (apply Rinv_0_lt_compat; exact H2).
  pose proof (Rmult_le_compat_r (/ ln 2) _ _ (Rlt_le _ _ Hi) Hnat) as Hfin.
  unfold Rdiv at 3. lra.
Qed.

Lemma log2_5_lt : (ln 5 / ln 2 < 2.5)%R.
Proof.
  assert (H2 : (0 < ln 2)%R) by (rewrite <- ln_1; apply ln_increasing; lra).
  assert (H25 : (ln 25 < ln 32)%R) by (apply ln_increasing; lra).
  replace 25%R with (5 * 5)%R in H25 by lra.
  replace 32%R with (2 * (2 * (2 * (2 * 2))))%R in H25 by lra.
  rewrite !ln_mult in H25 by lra.
  apply (Rmult_lt_reg_r (ln 2)); [exact H2|].
  unfold Rdiv. rewrite Rmult_assoc, Rinv_l by lra. lra.
Qed.

Lemma distinct_le_alphabet (T : str) (alphabet : list char) :
  (forall c, In c T -> In c alphabet) ->
  len (Counter Z.eqb T) <= len alphabet.
Proof.
  intros H. unfold len.
  rewrite <- (length_map fst (Counter Z.eqb T)).
  apply Nat2Z.inj_le. apply NoDup_incl_length.
  - apply (Counter_NoDup Z.eqb Z_eqb_reflect).
  - intros c Hc. apply H. apply Counter_keys_In. exact Hc.
Qed.

Lemma distinct_pos (T : str) : is_empty T = false -> 0 < len (Counter Z.eqb T).
Proof.
  intros Hne. destruct T as [|x T]; [discriminate|].
  assert (Hin : In x (map fst (Counter Z.eqb (x :: T))))
    by (apply Counter_keys_In; left; reflexivity).
  destruct (Counter Z.eqb (x :: T)); [contradiction|].
  rewrite len_cons. pose proof (len_nonneg l). lia.
Qed.

Lemma entropy_log2_bound (T : str) (n : Z) :
  is_empty T = false -> len (Counter Z.eqb T) <= n ->
  exists e : R, shannon_entropy T = Ok e /\ (e <= ln (IZR n) / ln 2)%R.
Proof.
  intros Hemp Hn.
  destruct (shannon_entropy_le_log2_distinct T Hemp) as [e [He Hb]].
  exists e. split; [exact He|].
  assert (H2 : (0 < ln 2)%R) by (rewrite <- ln_1; apply ln_increasing; lra).
  assert (Hi : (0 < / ln 2)%R) by (apply Rinv_0_lt_compat; exact H2).
  pose proof (distinct_pos T Hemp) as Hk.
  assert (HK : (0 < IZR (len (Counter Z.eqb T)))%R) by (apply IZR_lt; exact Hk).
  apply IZR_le in Hn.
  pose proof (ln_monotone _ _ HK Hn) as Hl.
  pose proof (Rmult_le_compat_r (/ ln 2) _ _ (Rlt_le _ _ Hi) Hl) as Hm.
  unfold Rdiv in *. lra.
Qed.

Lemma entropy_small_alphabet (T : str) (alphabet : list char) :
  T <> [] -> (forall c, In c T -> In c alphabet) -> len alphabet <= 5 ->
  exists e : R, shannon_entropy T = Ok e /\ (e < 2.5)%R.
Proof.
  intros Hne Hin H5.
  assert (Hemp : is_empty T = false) by (destruct T; [congruence | reflexivity]).
  destruct (entropy_log2_bound T 5 Hemp) as [e [He Hb]].
  { pose proof (distinct_le_alphabet T alphabet Hin). lia. }
  exists e. split; [exact He|]. pose proof log2_5_lt. lra.
Qed.

Lemma entropy_pos_two_symbols (T : str) (a b : char) :
  In a T -> In b T -> a <> b ->
  exists e : R, shannon_entropy T = Ok e /\ (0 < e)%R.
Proof.
  intros Ha Hb Hab. destruct (shannon_entropy_total T) as [e [He Hpos]].
  exists e. split; [exact He|].
  destruct (Req_dec e 0) as [E|E]; [|lra]. subst e. exfalso. apply Hab.
  apply (entropy_zero_all_equal T); try assumption.
  destruct T; [contradiction | reflexivity].
Qed.

(** X6.  A document that holds two different characters and draws all its
    characters from an alphabet of at most 5 is among the low-entropy
    indices, whatever the other documents are. *)
Theorem small_alphabet_document_flagged
    (docs : list Document) (i : nat) (d : Document) (alphabet : list char) (a b : char) :
  nth_error docs i = Some d ->
  (forall c, In c (content_or_empty d) -> In c alphabet) ->
  len alphabet <= 5 ->
  In a (content_or_empty d) -> In b (content_or_empty d) -> a <> b ->
  exists es, entropies docs = Ok es /\ In i (low_entropy_indices es).
Proof.
  intros Hd Hal H5 Ha Hb Hab.
  destruct (entropies_ok docs) as [es He]. exists es. split; [exact He|].
  assert (Hne : content_or_empty d <> []) by (intros E; rewrite E in Ha; exact Ha).
  destruct (entropy_small_alphabet (content_or_empty d) alphabet Hne Hal H5)
    as (e & Hs & Hlt).
  destruct (entropy_pos_two_symbols (content_or_empty d) a b Ha Hb Hab)
    as (e' & Hs' & Hpos).
  assert (e' = e) by congruence. subst e'.
  apply low_entropy_indices_In. exists e. split.
  - apply (entropies_nth docs es He). exists d. auto.
  - lra.
Qed.

(** An instance of [small_alphabet_document_flagged]. *)
Lemma small_alphabet_document_flagged_witness :
  exists es,
    entropies [blank; doc [49; 48; 49; 49; 48; 48; 49]] = Ok es
    /\ In 1%nat (low_entropy_indices es).
Proof.
  apply (small_alphabet_document_flagged
           [blank; doc [49; 48; 49; 49; 48; 48; 49]] 1
           (doc [49; 48; 49; 49; 48; 48; 49]) [48; 49] 49 48).
  - reflexivity.
  - intros c Hc. simpl in *. tauto.
  - vm_compute. discriminate.
  - simpl. tauto.
  - simpl. tauto.
  - discriminate.
Defined.

(** ** The figures of the length statistics *)

Lemma fold_min_spec (l : list Z) (x : Z) :
  In (fold_left Z.min l x) (x :: l)
  /\ forall y, In y (x :: l) -> fold_left Z.min l x <= y.
Proof.
  revert x. induction l as [|a l IH]; intros x; simpl.
  - split; [left; reflexivity | intros y [<-|[]]; lia].
  - destruct (IH (Z.min x a)) as [Hin Hle]. split.
    + destruct Hin as [E|Hin]; [|right; right; exact Hin].
      rewrite <- E. destruct (Z.min_spec x a) as [[_ ->]|[_ ->]]; auto.
    + intros y Hy.
      assert (Hm : fold_left Z.min l (Z.min x a) <= Z.min x a) by (apply Hle; left; reflexivity).
      destruct Hy as [<-|[<-|Hy]]; [lia | lia | apply Hle; right; exact Hy].
Qed.

Lemma fold_max_spec (l : list Z) (x : Z) :
  In (fold_left Z.max l x) (x :: l)
  /\ forall y, In y (x :: l) -> y <= fold_left Z.max l x.
Proof.
  revert x. induction l as [|a l IH]; intros x; simpl.
  - split; [left; reflexivity | intros y [<-|[]]; lia].
  - destruct (IH (Z.max x a)) as [Hin Hle]. split.
    + destruct Hin as [E|Hin]; [|right; right; exact Hin].
      rewrite <- E. destruct (Z.max_spec x a) as [[_ ->]|[_ ->]]; auto.
    + intros y Hy.
      assert (Hm : Z.max x a <= fold_left Z.max l (Z.max x a)) by (apply Hle; left; reflexivity).
      destruct Hy as [<-|[<-|Hy]]; [lia | lia | apply Hle; right; exact Hy].
Qed.

Lemma py_min_spec (l : list Z) (m : Z) :
  py_min l = Ok m -> In m l /\ forall y, In y l -> m <= y.
Proof.
  destruct l as [|x l]; simpl; intros H; [discriminate|].
  injection H as <-. apply fold_min_spec.
Qed.

Lemma py_max_spec (l : list Z) (m : Z) :
  py_max l = Ok m -> In m l /\ forall y, In y l -> y <= m.
Proof.
  destruct l as [|x l]; simpl; intros H; [discriminate|].
  injection H as <-. apply fold_max_spec.
Qed.

Lemma isum_bounds (l : list Z) (lo hi : Z) :
  (forall y, In y l -> lo <= y <= hi) ->
  lo * len l <= isum l <= hi * len l.
Proof.
  induction l as [|x l IH]; intros H.
  - change (isum []) with 0. change (len (@nil Z)) with 0. lia.
  - rewrite isum_cons, len_cons.
    pose proof (H x (or_introl eq_refl)).
    pose proof (IH (fun y Hy => H y (or_intror Hy))). lia.
Qed.

Lemma mean_bounds (l : list Z) (lo hi : Z) :
  l <> [] -> (forall y, In y l -> lo <= y <= hi) ->
  (IZR lo <= IZR (isum l) / IZR (len l) <= IZR hi)%R.
Proof.
  intros Hne H. pose proof (isum_bounds l lo hi H) as [H1 H2].
  assert (Hlen : 0 < len l).
  { destruct l; [congruence|]. rewrite len_cons. pose proof (len_nonneg l). lia. }
  assert (Hn : (0 < IZR (len l))%R) by (apply IZR_lt; exact Hlen).
  apply IZR_le in H1, H2. rewrite mult_IZR in H1, H2.
  split.
  - apply (Rmult_le_reg_r (IZR (len l))); [exact Hn|].
    unfold Rdiv. rewrite Rmult_assoc, Rinv_l by lra. lra.
  - apply (Rmult_le_reg_r (IZR (len l))); [exact Hn|].
    unfold Rdiv. rewrite Rmult_assoc, Rinv_l by lra. lra.
Qed.

Lemma median_bounds (l : list Z) (lo hi : Z) (m : R) :
  (forall y, In y l -> lo <= y <= hi) ->
  median l = Ok m -> (IZR lo <= m <= IZR hi)%R.
Proof.
  intros H. unfold median.
  set (s := sorted (fun x => x) l).
  assert (Hs : forall y, In y s -> lo <= y <= hi).
  { intros y Hy. apply H. apply (Permutation_in _ (sorted_perm (fun x => x) l)). exact Hy. }
  destruct (length s) as [|n] eqn:En; [discriminate|].
  cbn [Nat.eqb].
  assert (Hnth : forall i, (i < length s)%nat -> lo <= nth i s 0 <= hi).
  { intros i Hi. apply Hs. apply nth_In. exact Hi. }
  destruct (Nat.eqb_spec (S n mod 2) 1) as [Hodd|Heven].
  - intros E. injection E as <-.
    assert (Hi : (S n / 2 < length s)%nat).
    { rewrite En. apply Nat.div_lt; lia. }
    destruct (Hnth _ Hi) as [H1 H2]. split; apply IZR_le; assumption.
  - intros E. cbv zeta in E. injection E as <-.
    assert (Hi : (S n / 2 < length s)%nat).
    { rewrite En. apply Nat.div_lt; lia. }
    assert (Hj : (S n / 2 - 1 < length s)%nat)
      by (apply Nat.le_lt_trans with (S n / 2)%nat; [apply Nat.le_sub_l | exact Hi]).
    destruct (Hnth _ Hi) as [H1 H2]. destruct (Hnth _ Hj) as [H3 H4].
    rewrite plus_IZR. apply IZR_le in H1, H2, H3, H4.
    change (fst (Nat.divmod n 1 0 0)) with (S n / 2)%nat. lra.
Qed.

Lemma printed_length_stats_values docs :
  docs <> [] ->
  exists mn mx avg med,
    py_min (lengths_of docs) = Ok mn
    /\ py_max (lengths_of docs) = Ok mx
    /\ avg = (IZR (isum (lengths_of docs)) / IZR (len docs))%R
    /\ median (lengths_of docs) = Ok med
    /\ printed length_stats docs =
       [StatsHeader; StatsCount (len docs); StatsMin mn; StatsMax mx;
        StatsAvg avg; StatsMedian med] ++ stats_warnings (lengths_of docs).
Proof.
  intros Hne.
  assert (Hl : lengths_of docs <> []).
  { destruct docs; [congruence | discriminate]. }
  destruct (median_ok _ Hl) as [med Hmed].
  assert (Hmin : exists mn, py_min (lengths_of docs) = Ok mn).
  { destruct (lengths_of docs); [congruence | eexists; reflexivity]. }
  assert (Hmax : exists mx, py_max (lengths_of docs) = Ok mx).
  { destruct (lengths_of docs); [congruence | eexists; reflexivity]. }
  destruct Hmin as [mn Hmin]. destruct Hmax as [mx Hmax].
  assert (Hlen : len (lengths_of docs) = len docs).
  { unfold lengths_of, len. rewrite length_map. reflexivity. }
  assert (Havg : truediv (isum (lengths_of docs)) (len (lengths_of docs))
                 = Ok (IZR (isum (lengths_of docs)) / IZR (len docs))%R).
  { unfold truediv. rewrite Hlen.
    destruct (Z.eqb_spec (len docs) 0) as [E|E]; [|reflexivity].
    unfold len in E. destruct docs; [congruence | simpl in E; lia]. }
  exists mn, mx, (IZR (isum (lengths_of docs)) / IZR (len docs))%R, med.
  repeat split; try assumption.
  unfold printed, length_stats.
  exec_step. cbv zeta.
  exec_step. rewrite Hmin.
  exec_step. rewrite Hmax.
  exec_step. rewrite Havg.
  exec_step. rewrite Hmed.
  repeat exec_step.
  rewrite exec_ret. unfold stats_warnings. cbn [fst snd app].
  rewrite app_nil_r. reflexivity.
Qed.

(** X7.  On a non-empty collection the statistics part is the header, the
    count, the four figures and the two warnings on extreme lengths, also
    when the run raises later; the minimum and the maximum shown are
    lengths of documents and bound every length, and the mean and the
    median lie between the minimum and the maximum. *)
Theorem length_statistics_figures (docs : list Document) :
  docs <> [] ->
  exists (mn mx : Z) (avg med : R),
    lines_of PStats (report docs) =
      [StatsHeader; StatsCount (len docs); StatsMin mn; StatsMax mx;
       StatsAvg avg; StatsMedian med] ++ stats_warnings (lengths_of docs)
    /\ In mn (lengths_of docs) /\ In mx (lengths_of docs)
    /\ (forall d, In d docs -> mn <= len (content_or_empty d) <= mx)
    /\ (IZR mn <= avg <= IZR mx)%R
    /\ (IZR mn <= med <= IZR mx)%R.
Proof.
  intros Hne.
  destruct (printed_length_stats_values docs Hne) as (mn & mx & avg & med & Hmn & Hmx & Ha & Hmed & Hp).
  exists mn, mx, avg, med.
  destruct (py_min_spec _ _ Hmn) as [Hmin1 Hmin2].
  destruct (py_max_spec _ _ Hmx) as [Hmax1 Hmax2].
  assert (Hb : forall y, In y (lengths_of docs) -> mn <= y <= mx).
  { intros y Hy. split; [apply Hmin2 | apply Hmax2]; exact Hy. }
  assert (Hl : lengths_of docs <> []) by (destruct docs; [congruence | discriminate]).
  assert (Hlen : len (lengths_of docs) = len docs).
  { unfold lengths_of, len. rewrite length_map. reflexivity. }
  split; [rewrite report_stats by exact Hne; exact Hp|].
  split; [exact Hmin1|]. split; [exact Hmax1|]. split; [|split].
  - intros d Hd. apply Hb. unfold lengths_of. apply in_map_iff. exists d. auto.
  - subst avg. rewrite <- Hlen. apply mean_bounds; assumption.
  - apply (median_bounds _ _ _ _ Hb Hmed).
Qed.

(** An instance of [length_statistics_figures]. *)
Lemma length_statistics_figures_witness :
  exists (mn mx : Z) (avg med : R),
    lines_of PStats (report [doc [97; 98; 99]; blank; doc [97]]) =
      [StatsHeader; StatsCount 3; StatsMin mn; StatsMax mx;
       StatsAvg avg; StatsMedian med; WarnVeryShort 3 [0%nat; 1%nat; 2%nat]]
    /\ In mn [3; 0; 1] /\ In mx [3; 0; 1]
    /\ (IZR mn <= avg <= IZR mx)%R /\ (IZR mn <= med <= IZR mx)%R.
Proof.
  destruct (length_statistics_figures [doc [97; 98; 99]; blank; doc [97]])
    as (mn & mx & avg & med & Hr & H1 & H2 & _ & H3 & H4).
  - discriminate.
  - exists mn, mx, avg, med. split; [exact Hr|]. auto.
Defined.

(** ** More on comprehensions over enumerate *)

Lemma indices_from_length {A : Type} (f : A -> bool) (l : list A) (s : nat) :
  length (map fst (filter (fun p => f (snd p)) (combine (seq s (length l)) l)))
  = length (filter f l).
Proof.
  revert s. induction l as [|x l IH]; intros s; simpl; [reflexivity|].
  destruct (f x); simpl; rewrite IH; reflexivity.
Qed.

Lemma indices_where_len {A : Type} (f : A -> bool) (l : list A) :
  len (indices_where f l) = len (filter f l).
Proof. unfold len, indices_where, enumerate. rewrite indices_from_length. reflexivity. Qed.

Lemma filter_length_mono {A : Type} (f g : A -> bool) (l : list A) :
  (forall x, f x = true -> g x = true) ->
  (length (filter f l) <= length (filter g l))%nat.
Proof.
  intros H. induction l as [|x l IH]; simpl; [lia|].
  destruct (f x) eqn:Ef.
  - rewrite (H x Ef). simpl. lia.
  - destruct (g x); simpl; lia.
Qed.

Lemma indices_where_lengths docs (f : Z -> bool) (i : nat) :
  In i (indices_where f (lengths_of docs))
  <-> exists d, nth_error docs i = Some d /\ f (len (content_or_empty d)) = true.
Proof.
  rewrite indices_where_In. unfold lengths_of. split.
  - intros [L [Hn Hf]]. rewrite nth_error_map in Hn.
    destruct (nth_error docs i) as [d|]; [|discriminate].
    injection Hn as <-. exists d. auto.
  - intros [d [Hn Hf]]. exists (len (content_or_empty d)).
    rewrite nth_error_map, Hn. auto.
Qed.

Lemma In_report_part docs (l : line) :
  In l (report docs) <-> In l (lines_of (part_of l) (report docs)).
Proof.
  unfold lines_of. rewrite filter_In. rewrite Nat.eqb_refl. tauto.
Qed.

Lemma report_near_empty docs :
  lines_of PNearEmpty (report docs) = []
  \/ (docs <> [] /\ lines_of PNearEmpty (report docs) = near_empty_lines (lengths_of docs)).
Proof.
  destruct docs as [|d docs]; [left; reflexivity|].
  assert (Hne : d :: docs <> []) by discriminate.
  destruct (In_None_dec (d :: docs)) as [Hn|Hn].
  - left. destruct (report_interrupted _ Hne Hn) as (dups & Hd & ->).
    destruct (printed_length_stats _ Hne) as (_ & Hs & _).
    rewrite !lines_of_app.
    rewrite (lines_of_other PNearEmpty PBanner [Banner] all_of_banner) by discriminate.
    rewrite (lines_of_other PNearEmpty PStats _ Hs) by discriminate.
    rewrite (lines_of_other PNearEmpty PDuplicates dups Hd) by discriminate.
    reflexivity.
  - right. split; [exact Hne|].
    destruct (report_parts _ Hne Hn) as (? & ? & ? & H). apply H.
Qed.

Lemma In_stats_warnings (lengths : list Z) (l : line) :
  In l (stats_warnings lengths)
  <-> (indices_where (fun L => L <? 50) lengths <> []
       /\ l = WarnVeryShort (len (indices_where (fun L => L <? 50) lengths))
                            (firstn 10 (indices_where (fun L => L <? 50) lengths)))
      \/ (indices_where (fun L => 8000 <? L) lengths <> []
          /\ l = WarnVeryLong (len (indices_where (fun L => 8000 <? L) lengths))
                              (firstn 10 (indices_where (fun L => 8000 <? L) lengths))).
Proof.
  unfold stats_warnings. cbv zeta. rewrite in_app_iff.
  destruct (indices_where (fun L => L <? 50) lengths) as [|i s];
    destruct (indices_where (fun L => 8000 <? L) lengths) as [|j t];
    cbn [is_empty negb In]; split.
  - intros [[]|[]].
  - intros [[H _]|[H _]]; congruence.
  - intros [[]|[<-|[]]]. right. split; [discriminate | reflexivity].
  - intros [[H _]|[_ ->]]; [congruence | right; left; reflexivity].
  - intros [[<-|[]]|[]]. left. split; [discriminate | reflexivity].
  - intros [[_ ->]|[H _]]; [left; left; reflexivity | congruence].
  - intros [[<-|[]]|[<-|[]]]; [left | right]; (split; [discriminate | reflexivity]).
  - intros [[_ ->]|[_ ->]]; [left | right]; left; reflexivity.
Qed.

Lemma In_stats_part docs (l : line) :
  docs <> [] ->
  (forall n ex, l = WarnVeryShort n ex \/ l = WarnVeryLong n ex ->
                (In l (report docs) <-> In l (stats_warnings (lengths_of docs)))).
Proof.
  intros Hne n ex Hl.
  destruct (printed_length_stats_values docs Hne) as (mn & mx & avg & med & _ & _ & _ & _ & Hp).
  rewrite In_report_part.
  replace (part_of l) with PStats by (destruct Hl as [->| ->]; reflexivity).
  rewrite (report_stats docs Hne), Hp, in_app_iff.
  split; [|intros H; right; exact H].
  intros [H|H]; [|exact H]. exfalso.
  destruct Hl as [->| ->]; cbn [In] in H;
    repeat (destruct H as [H|H]; [discriminate|]); exact H.
Qed.

(** X8.  On a non-empty collection the very-short warning is printed
    exactly when some document is shorter than 50 characters, with the
    number of such documents and their first 10 positions, and likewise
    the very-long warning above 8000 characters; when every length is
    between 50 and 8000 neither is printed; and whenever the
    empty/near-empty warning is printed the very-short warning is too,
    with a count at least as large. *)
Theorem extreme_length_warnings (docs : list Document) :
  docs <> [] ->
  (forall n ex,
      In (WarnVeryShort n ex) (report docs)
      <-> indices_where (fun L => L <? 50) (lengths_of docs) <> []
          /\ n = len (filter (fun L => L <? 50) (lengths_of docs))
          /\ ex = firstn 10 (indices_where (fun L => L <? 50) (lengths_of docs)))
  /\ (forall n ex,
      In (WarnVeryLong n ex) (report docs)
      <-> indices_where (fun L => 8000 <? L) (lengths_of docs) <> []
          /\ n = len (filter (fun L => 8000 <? L) (lengths_of docs))
          /\ ex = firstn 10 (indices_where (fun L => 8000 <? L) (lengths_of docs)))
  /\ (forall i,
      In i (indices_where (fun L => L <? 50) (lengths_of docs))
      <-> exists d, nth_error docs i = Some d /\ len (content_or_empty d) < 50)
  /\ (forall i,
      In i (indices_where (fun L => 8000 <? L) (lengths_of docs))
      <-> exists d, nth_error docs i = Some d /\ 8000 < len (content_or_empty d))
  /\ ((forall d, In d docs -> 50 <= len (content_or_empty d) <= 8000) ->
      forall n ex, ~ In (WarnVeryShort n ex) (report docs)
                   /\ ~ In (WarnVeryLong n ex) (report docs))
  /\ (forall n ex,
      In (WarnNearEmpty n ex) (report docs) ->
      exists n' ex', In (WarnVeryShort n' ex') (report docs) /\ n <= n').
Proof.
  intros Hne.
  set (short := indices_where (fun L => L <? 50) (lengths_of docs)) in *.
  set (long := indices_where (fun L => 8000 <? L) (lengths_of docs)) in *.
  assert (Hshort : forall n ex,
      In (WarnVeryShort n ex) (report docs)
      <-> short <> [] /\ n = len (filter (fun L => L <? 50) (lengths_of docs))
          /\ ex = firstn 10 short).
  { intros n ex.
    rewrite (In_stats_part docs _ Hne n ex (or_introl eq_refl)), In_stats_warnings.
    fold short long. rewrite <- (indices_where_len _ (lengths_of docs)). fold short.
    split.
    - intros [[Hs E]|[_ E]]; [|discriminate]. injection E as -> ->. auto.
    - intros (Hs & -> & ->). left. auto. }
  assert (Hlong : forall n ex,
      In (WarnVeryLong n ex) (report docs)
      <-> long <> [] /\ n = len (filter (fun L => 8000 <? L) (lengths_of docs))
          /\ ex = firstn 10 long).
  { intros n ex.
    rewrite (In_stats_part docs _ Hne n ex (or_intror eq_refl)), In_stats_warnings.
    fold short long. rewrite <- (indices_where_len _ (lengths_of docs)). fold long.
    split.
    - intros [[_ E]|[Hs E]]; [discriminate|]. injection E as -> ->. auto.
    - intros (Hs & -> & ->). right. auto. }
  assert (Hsi : forall i, In i short
      <-> exists d, nth_error docs i = Some d /\ len (content_or_empty d) < 50).
  { intros i. unfold short. rewrite indices_where_lengths.
    split; intros [d [Hd Hl]]; exists d; split; auto; apply Z.ltb_lt; exact Hl. }
  assert (Hli : forall i, In i long
      <-> exists d, nth_error docs i = Some d /\ 8000 < len (content_or_empty d)).
  { intros i. unfold long. rewrite indices_where_lengths.
    split; intros [d [Hd Hl]]; exists d; split; auto; apply Z.ltb_lt; exact Hl. }
  split; [exact Hshort|]. split; [exact Hlong|]. split; [exact Hsi|]. split; [exact Hli|].
  split.
  - intros Hall n ex. split; intros Hin.
    + apply Hshort in Hin. destruct Hin as [Hs _].
      destruct short as [|i short'] eqn:E; [congruence|].
      assert (Hi : In i (i :: short')) by (left; reflexivity).
      apply Hsi in Hi. destruct Hi as [d [Hd Hl]].
      apply nth_error_In in Hd. specialize (Hall d Hd). lia.
    + apply Hlong in Hin. destruct Hin as [Hs _].
      destruct long as [|i long'] eqn:E; [congruence|].
      assert (Hi : In i (i :: long')) by (left; reflexivity).
      apply Hli in Hi. destruct Hi as [d [Hd Hl]].
      apply nth_error_In in Hd. specialize (Hall d Hd). lia.
  - intros n ex Hin. apply In_report_part in Hin. cbn [part_of] in Hin.
    destruct (report_near_empty docs) as [E|[_ E]]; rewrite E in Hin; [contradiction|].
    unfold near_empty_lines in Hin. cbv zeta in Hin.
    set (tiny := indices_where (fun L => L <? 5) (lengths_of docs)) in *.
    destruct tiny as [|i tiny'] eqn:Et; cbn [is_empty negb In] in Hin; [contradiction|].
    destruct Hin as [Hin|[]]. injection Hin as <- _.
    assert (Hsub : forall j, In j tiny -> In j short).
    { intros j Hj. unfold tiny in Hj. apply indices_where_lengths in Hj.
      destruct Hj as [d [Hd Hl]]. apply Hsi. exists d. split; [exact Hd|].
      apply Z.ltb_lt in Hl. lia. }
    exists (len (filter (fun L => L <? 50) (lengths_of docs))), (firstn 10 short).
    split.
    + apply Hshort. repeat split. intros Es.
      assert (Hi : In i short) by (apply Hsub; rewrite Et; left; reflexivity).
      rewrite Es in Hi. exact Hi.
    + rewrite <- Et. unfold tiny. rewrite indices_where_len. unfold len.
      apply Nat2Z.inj_le. apply filter_length_mono.
      intros L HL. apply Z.ltb_lt in HL. apply Z.ltb_lt. lia.
Qed.

(** An instance of [extreme_length_warnings]. *)
Lemma extreme_length_warnings_witness :
  ~ In (WarnVeryShort 1 [0%nat]) (report [doc (repeat 97 60)])
  /\ ~ In (WarnVeryLong 1 [0%nat]) (report [doc (repeat 97 60)]).
Proof.
  destruct (extreme_length_warnings [doc (repeat 97 60)]) as (_ & _ & _ & _ & H & _).
  - discriminate.
  - apply H. intros d [<-|[]]. vm_compute. split; discriminate.
Defined.

(** ** Structure checks in integers *)

Lemma indices_from_map {A B : Type} (f : B -> bool) (h : A -> B) (l : list A) (s : nat) :
  map fst (filter (fun p => f (snd p)) (combine (seq s (length (map h l))) (map h l)))
  = map fst (filter (fun p => f (h (snd p))) (combine (seq s (length l)) l)).
Proof.
  revert s. induction l as [|x l IH]; intros s; simpl; [reflexivity|].
  destruct (f (h x)); simpl; rewrite IH; reflexivity.
Qed.

Lemma indices_where_map {A B : Type} (f : B -> bool) (h : A -> B) (l : list A) :
  indices_where f (map h l) = indices_where (fun x => f (h x)) l.
Proof. unfold indices_where, enumerate. apply indices_from_map. Qed.

Lemma indices_from_ext {A : Type} (f g : A -> bool) (l : list A) (s : nat) :
  (forall x, In x l -> f x = g x) ->
  map fst (filter (fun p => f (snd p)) (combine (seq s (length l)) l))
  = map fst (filter (fun p => g (snd p)) (combine (seq s (length l)) l)).
Proof.
  revert s. induction l as [|x l IH]; intros s H; simpl; [reflexivity|].
  rewrite (H x (or_introl eq_refl)).
  destruct (g x); simpl; rewrite (IH (S s) (fun y Hy => H y (or_intror Hy))); reflexivity.
Qed.

Lemma indices_where_ext {A : Type} (f g : A -> bool) (l : list A) :
  (forall x, In x l -> f x = g x) -> indices_where f l = indices_where g l.
Proof. unfold indices_where, enumerate. apply indices_from_ext. Qed.

Lemma combine_map2 {A B C : Type} (f : A -> B) (g : A -> C) (l : list A) :
  combine (map f l) (map g l) = map (fun x => (f x, g x)) l.
Proof. induction l as [|x l IH]; simpl; [reflexivity | rewrite IH; reflexivity]. Qed.

Lemma densities_eq docs ds :
  Res.mapM (fun d => punctuation_density (content_or_empty d)) docs = Ok ds ->
  ds = map (fun d => if is_empty (content_or_empty d) then 0%R
                     else (IZR (punct_count (content_or_empty d))
                           / IZR (len (content_or_empty d)))%R) docs.
Proof.
  intros H. rewrite (mapM_ok _ (fun d => if is_empty (content_or_empty d) then 0%R
                     else (IZR (punct_count (content_or_empty d))
                           / IZR (len (content_or_empty d)))%R)) in H.
  - congruence.
  - intros d _. apply punctuation_density_eq.
Qed.

Lemma low_punct_test (d : Document) :
  (let '(dens, L) :=
     (if is_empty (content_or_empty d) then 0%R
      else (IZR (punct_count (content_or_empty d)) / IZR (len (content_or_empty d)))%R,
      len (content_or_empty d)) in
   (300 <? L) && Rltb dens 0.001) = low_punct d.
Proof.
  unfold low_punct. cbv beta iota.
  destruct (Z.ltb_spec 300 (len (content_or_empty d))) as [H3|H3]; [|reflexivity].
  cbn [andb].
  assert (Hemp : is_empty (content_or_empty d) = false).
  { apply is_empty_false_len. lia. }
  rewrite Hemp.
  assert (Hl : 0 < len (content_or_empty d)) by lia.
  destruct (Z.ltb_spec (1000 * punct_count (content_or_empty d)) (len (content_or_empty d)))
    as [H|H].
  - apply Rltb_true. apply IZR_lt in H. rewrite mult_IZR in H.
    assert (Hn : (0 < IZR (len (content_or_empty d)))%R) by (apply IZR_lt; exact Hl).
    apply (Rmult_lt_reg_r (IZR (len (content_or_empty d)))); [exact Hn|].
    unfold Rdiv. rewrite Rmult_assoc, Rinv_l by lra. lra.
  - apply Rltb_false. apply IZR_le in H. rewrite mult_IZR in H.
    assert (Hn : (0 < IZR (len (content_or_empty d)))%R) by (apply IZR_lt; exact Hl).
    apply (Rmult_le_reg_r (IZR (len (content_or_empty d)))); [exact Hn|].
    unfold Rdiv. rewrite Rmult_assoc, Rinv_l by lra. lra.
Qed.

Lemma structure_lines_int docs ds :
  Res.mapM (fun d => punctuation_density (content_or_empty d)) docs = Ok ds ->
  structure_lines docs ds (lengths_of docs) =
  (if is_empty (indices_where many_newlines docs) then []
   else [WarnManyNewlines (len (indices_where many_newlines docs))
                          (firstn 10 (indices_where many_newlines docs))])
  ++ [if is_empty (indices_where low_punct docs) then PunctNormal
      else WarnLowPunct (len (indices_where low_punct docs))
                        (firstn 10 (indices_where low_punct docs))].
Proof.
  intros Hds. unfold structure_lines. cbv zeta.
  rewrite (densities_eq docs ds Hds). unfold lengths_of.
  rewrite combine_map2, !indices_where_map.
  match goal with
  | |- context [indices_where ?f docs] =>
      lazymatch f with
      | context [Rltb] =>
          rewrite (indices_where_ext f low_punct docs)
            by (intros d _; apply low_punct_test)
      end
  end.
  change (fun x : Document => 30 <? newline_count (content_or_empty x)) with many_newlines.
  destruct (indices_where many_newlines docs), (indices_where low_punct docs); reflexivity.
Qed.

(** X9.  In a run that completes, the structure part is decided by integer
    tests: a document is flagged for newlines when it has more than 30 of
    them, and for punctuation when it has more than 300 characters and
    1000 times its number of punctuation characters is below its length;
    the part prints the low-punctuation warning or the line saying that
    punctuation looks normal, never both; and a document of at most 1000
    characters is flagged for punctuation exactly when it has more than
    300 characters and no punctuation character at all. *)
Theorem structure_checks_in_integers (docs : list Document) :
  docs <> [] -> ~ In None (map fst (top_repeated docs)) ->
  lines_of PStructure (report docs) =
    StructureHeader ::
    (if is_empty (indices_where many_newlines docs) then []
     else [WarnManyNewlines (len (indices_where many_newlines docs))
                            (firstn 10 (indices_where many_newlines docs))])
    ++ [if is_empty (indices_where low_punct docs) then PunctNormal
        else WarnLowPunct (len (indices_where low_punct docs))
                          (firstn 10 (indices_where low_punct docs))]
  /\ (forall i, In i (indices_where many_newlines docs)
       <-> exists d, nth_error docs i = Some d
                     /\ 30 < newline_count (content_or_empty d))
  /\ (forall i, In i (indices_where low_punct docs)
       <-> exists d, nth_error docs i = Some d
                     /\ 300 < len (content_or_empty d)
                     /\ 1000 * punct_count (content_or_empty d) < len (content_or_empty d))
  /\ (forall d, len (content_or_empty d) <= 1000 ->
       (low_punct d = true
        <-> 300 < len (content_or_empty d)
            /\ forall c, In c (content_or_empty d) -> char_in c punctuation = false)).
Proof.
  intros Hne Hnone.
  destruct (report_parts docs Hne Hnone) as (stats & es & ds & _ & Hds & _ & _ & _ & _ & _ & Hst & _).
  split; [rewrite Hst, (structure_lines_int docs ds Hds); reflexivity|].
  split; [|split].
  - intros i. rewrite indices_where_In. unfold many_newlines.
    split; intros [d [Hd H]]; exists d; split; auto; apply Z.ltb_lt; exact H.
  - intros i. rewrite indices_where_In. unfold low_punct.
    split; intros [d [Hd H]]; exists d; split; auto.
    + apply andb_true_iff in H. destruct H as [H1 H2].
      apply Z.ltb_lt in H1. apply Z.ltb_lt in H2. auto.
    + apply andb_true_iff. destruct H as [H1 H2]. split; apply Z.ltb_lt; assumption.
  - intros d H1000. unfold low_punct. rewrite andb_true_iff, !Z.ltb_lt.
    unfold punct_count at 1. rewrite <- len_filter_zero. fold (punct_count (content_or_empty d)).
    pose proof (len_nonneg (filter (fun c => char_in c punctuation) (content_or_empty d))) as Hp.
    fold (punct_count (content_or_empty d)) in Hp.
    split; intros [H3 H]; split; try exact H3; lia.
Qed.

(** An instance of [structure_checks_in_integers]. *)
Lemma structure_checks_in_integers_witness :
  lines_of PStructure (report [doc (repeat 97 400); doc [97; 46]])
  = [StructureHeader; WarnLowPunct 1 [0%nat]].
Proof.
  destruct (structure_checks_in_integers [doc (repeat 97 400); doc [97; 46]]) as (H & _).
  - discriminate.
  - vm_compute. tauto.
  - rewrite H. vm_compute. reflexivity.
Defined.

(** ** Example indices *)

Lemma StronglySorted_firstn {A : Type} (R : A -> A -> Prop) (n : nat) (l : list A) :
  StronglySorted R l -> StronglySorted R (firstn n l).
Proof.
  intros H. rewrite <- (firstn_skipn n l) in H.
  apply StronglySorted_app_inv in H. apply H.
Qed.

Lemma indices_examples {A : Type} (f : A -> bool) (l : list A) (n : nat) :
  (length l <= n)%nat ->
  Forall (fun i => (i < n)%nat) (firstn 10 (indices_where f l))
  /\ StronglySorted lt (firstn 10 (indices_where f l))
  /\ len (firstn 10 (indices_where f l)) = Z.min 10 (len (indices_where f l))
  /\ 0 <= len (indices_where f l) <= Z.of_nat n.
Proof.
  intros Hn. split; [|split; [|split]].
  - apply Forall_forall. intros i Hi. apply In_firstn in Hi.
    apply indices_where_In in Hi. destruct Hi as [a [Ha _]].
    assert (i < length l)%nat by (apply nth_error_Some; congruence). lia.
  - apply StronglySorted_firstn, indices_where_sorted.
  - unfold len. rewrite length_firstn. lia.
  - rewrite indices_where_len. unfold len.
    pose proof (filter_length_le f l). lia.
Qed.

Lemma examples_ok_plain (n : nat) (l : line) :
  examples_of l = [] -> flagged_of l = 0 -> examples_ok n l.
Proof.
  intros H1 H2. unfold examples_ok. rewrite H1, H2.
  repeat split; try constructor; try reflexivity; lia.
Qed.

Lemma examples_ok_part (n : nat) (p : part) (ls : list line) :
  all_of p ls ->
  p = PBanner \/ p = PDuplicates \/ p = PChars \/ p = PClosing ->
  Forall (examples_ok n) ls.
Proof.
  intros Hall Hp. unfold all_of in Hall. rewrite Forall_forall in *.
  intros l Hl. specialize (Hall l Hl).
  apply examples_ok_plain; destruct l; try reflexivity;
    simpl in Hall; subst p; destruct Hp as [E|[E|[E|E]]]; discriminate.
Qed.

Lemma examples_ok_if (n : nat) (b : bool) (l1 l2 : list line) :
  Forall (examples_ok n) l1 -> Forall (examples_ok n) l2 ->
  Forall (examples_ok n) (if b then l1 else l2).
Proof. destruct b; auto. Qed.

Lemma Forall_one {A : Type} (P : A -> Prop) (x : A) : P x -> Forall P [x].
Proof. intros H. constructor; [exact H | constructor]. Qed.

Lemma examples_ok_stats docs :
  docs <> [] -> Forall (examples_ok (length docs)) (printed length_stats docs).
Proof.
  intros Hne.
  destruct (printed_length_stats_values docs Hne) as (mn & mx & avg & med & _ & _ & _ & _ & ->).
  assert (Hl : (length (lengths_of docs) <= length docs)%nat)
    by (unfold lengths_of; rewrite length_map; lia).
  apply Forall_app. split.
  - repeat (apply Forall_cons; [apply examples_ok_plain; reflexivity|]).
    apply Forall_nil.
  - unfold stats_warnings. cbv zeta. apply Forall_app. split;
      (apply examples_ok_if; [apply Forall_one | apply Forall_nil]);
      apply (indices_examples _ (lengths_of docs) _ Hl).
Qed.

Lemma examples_ok_entropy docs es :
  entropies docs = Ok es ->
  Forall (examples_ok (length docs)) (EntropyHeader :: entropy_lines es).
Proof.
  intros He. apply mapM_length in He.
  constructor; [apply examples_ok_plain; reflexivity|].
  unfold entropy_lines. cbv zeta. apply Forall_one.
  destruct (negb (is_empty (low_entropy_indices es))).
  - apply (indices_examples _ es). lia.
  - apply examples_ok_plain; reflexivity.
Qed.

Lemma examples_ok_structure docs ds :
  Res.mapM (fun d => punctuation_density (content_or_empty d)) docs = Ok ds ->
  Forall (examples_ok (length docs))
         (StructureHeader :: structure_lines docs ds (lengths_of docs)).
Proof.
  intros Hds. apply mapM_length in Hds.
  constructor; [apply examples_ok_plain; reflexivity|].
  unfold structure_lines. cbv zeta. apply Forall_app. split.
  - apply examples_ok_if; [apply Forall_one | apply Forall_nil].
    apply (indices_examples _ (map _ docs)). rewrite length_map. lia.
  - apply Forall_one.
    match goal with |- examples_ok _ (if ?b then _ else _) => destruct b end.
    + apply (indices_examples _ (combine ds (lengths_of docs))).
      rewrite length_combine. lia.
    + apply examples_ok_plain; reflexivity.
Qed.

Lemma examples_ok_near_empty docs :
  Forall (examples_ok (length docs)) (near_empty_lines (lengths_of docs)).
Proof.
  unfold near_empty_lines. cbv zeta.
  apply examples_ok_if; [apply Forall_one | apply Forall_nil].
  apply (indices_examples _ (lengths_of docs)).
  unfold lengths_of. rewrite length_map. lia.
Qed.

Lemma report_examples_ok docs : Forall (examples_ok (length docs)) (report docs).
Proof.
  destruct docs as [|d docs].
  - change (report []) with [Banner; WarnNoDocs].
    repeat (apply Forall_cons; [apply examples_ok_plain; reflexivity|]).
    apply Forall_nil.
  - assert (Hne : d :: docs <> []) by discriminate.
    destruct (In_None_dec (d :: docs)) as [Hn|Hn].
    + destruct (report_interrupted _ Hne Hn) as (dups & Hd & ->).
      repeat (apply Forall_app; split).
      * apply (examples_ok_part _ PBanner); [apply all_of_banner | auto].
      * apply examples_ok_stats, Hne.
      * apply (examples_ok_part _ PDuplicates); [exact Hd | auto].
    + destruct (report_complete _ Hne Hn) as (es & ds & He & Hds & ->).
      repeat (apply Forall_app; split).
      * apply (examples_ok_part _ PBanner); [apply all_of_banner | auto].
      * apply examples_ok_stats, Hne.
      * apply (examples_ok_part _ PDuplicates); [|auto].
        apply all_of_cons; [reflexivity | apply all_of_dup_lines].
      * apply examples_ok_entropy, He.
      * apply (examples_ok_part _ PChars); [|auto].
        apply all_of_cons; [reflexivity | apply all_of_chars_lines].
      * apply examples_ok_structure, Hds.
      * apply examples_ok_near_empty.
      * apply (examples_ok_part _ PClosing); [apply all_of_closing_lines | auto].
Qed.

(** X10.  In every report, complete or interrupted, the example indices of
    a line are positions of documents of the collection, in increasing
    order, and there are as many of them as flagged documents announced
    by the line, up to 10; the number announced is at most the number of
    documents. *)
Theorem report_examples_are_positions (docs : list Document) (l : line) :
  In l (report docs) ->
  Forall (fun i => exists d, nth_error docs i = Some d) (examples_of l)
  /\ StronglySorted lt (examples_of l)
  /\ len (examples_of l) = Z.min 10 (flagged_of l)
  /\ 0 <= flagged_of l <= len docs.
Proof.
  intros Hl. pose proof (report_examples_ok docs) as H.
  rewrite Forall_forall in H. destruct (H l Hl) as (H1 & H2 & H3 & H4).
  split; [|auto].
  eapply Forall_impl; [|exact H1]. intros i Hi. cbv beta in Hi.
  destruct (nth_error docs i) as [d|] eqn:E; [exists d; reflexivity|].
  apply nth_error_None in E. lia.
Qed.

(** An instance of [report_examples_are_positions]. *)
Lemma report_examples_are_positions_witness :
  Forall (fun i => exists d, nth_error [blank] i = Some d) [0%nat]
  /\ StronglySorted lt [0%nat].
Proof.
  destruct (report_examples_are_positions [blank] (WarnNearEmpty 1 [0%nat]))
    as (H1 & H2 & _).
  - apply In_report_part. cbn [part_of].
    destruct (report_parts [blank]) as (? & ? & ? & H);
      [discriminate | vm_compute; tauto |].
    destruct H as (_ & _ & _ & _ & _ & _ & _ & _ & -> & _).
    left. reflexivity.
  - split; assumption.
Defined.

(** ** Repeated texts and the size of the collection *)

Lemma isum_filter_lower (c : list (option str * Z)) :
  Forall (fun kv => 0 < snd kv) c ->
  4 * len (filter (fun x => 3 <? snd x) c) <= isum (map snd c).
Proof.
  induction 1 as [|[k n] c Hn Hc IH]; cbn [filter map snd].
  - change (isum []) with 0. change (len (@nil (option str * Z))) with 0. lia.
  - rewrite isum_cons. cbn [snd] in Hn. destruct (Z.ltb_spec 3 n).
    + rewrite len_cons. lia.
    + lia.
Qed.

Lemma repeated_quarter docs : 4 * len (repeated docs) <= len docs.
Proof.
  unfold repeated, items, content_counts.
  pose proof (isum_filter_lower _ (Counter_pos content_eqb (map page_content docs))) as H.
  fold (values (Counter content_eqb (map page_content docs))) in H.
  rewrite isum_values_Counter_K in H. unfold len in H at 2. rewrite length_map in H.
  exact H.
Qed.

(** X11.  The texts repeated more than 3 times are at most a quarter of the
    documents; on a non-empty collection of fewer than 4 documents the
    run completes and the duplicates part says that no repeated chunk was
    found, whatever the contents, missing ones included. *)
Theorem few_documents_no_duplicates (docs : list Document) :
  4 * len (repeated docs) <= len docs
  /\ (docs <> [] -> len docs < 4 ->
      outcome docs = Ok tt
      /\ lines_of PDuplicates (report docs) = [DupHeader; DupNone]).
Proof.
  split; [apply repeated_quarter|].
  intros Hne H4.
  assert (Hr : repeated docs = []).
  { pose proof (repeated_quarter docs) as Hq.
    pose proof (len_nonneg (repeated docs)) as Hpos.
    assert (Hz : len (repeated docs) = 0) by lia.
    destruct (repeated docs) as [|x r]; [reflexivity|].
    rewrite len_cons in Hz. pose proof (len_nonneg r). lia. }
  assert (Hn : ~ In None (map fst (top_repeated docs))).
  { unfold top_repeated. rewrite Hr. intros []. }
  destruct (report_parts docs Hne Hn) as (? & ? & ? & _ & _ & Ho & _ & Hd & _).
  split; [exact Ho|]. rewrite Hd. unfold dup_lines. rewrite Hr. reflexivity.
Qed.

(** An instance of [few_documents_no_duplicates]. *)
Lemma few_documents_no_duplicates_witness :
  outcome [missing; missing; missing] = Ok tt
  /\ lines_of PDuplicates (report [missing; missing; missing]) = [DupHeader; DupNone].
Proof.
  destruct (few_documents_no_duplicates [missing; missing; missing]) as [_ H].
  apply H; [discriminate | vm_compute; reflexivity].
Defined.

(** ** How a run ends *)

Lemma top_repeated_None_count docs :
  In None (map fst (top_repeated docs)) ->
  3 < occurrences content_eqb None (contents docs).
Proof.
  intros H. apply in_map_iff in H. destruct H as [[txt c] [E H]]. simpl in E. subst txt.
  apply top_repeated_incl, repeated_spec in H. lia.
Qed.

Lemma report_run docs :
  (docs = [] /\ outcome docs = Ok tt /\ report docs = [Banner; WarnNoDocs])
  \/ (docs <> [] /\ In None (map fst (top_repeated docs))
      /\ outcome docs = Raised AttributeError
      /\ exists dups, all_of PDuplicates dups
                      /\ report docs = [Banner] ++ printed length_stats docs ++ dups)
  \/ (docs <> [] /\ ~ In None (map fst (top_repeated docs))
      /\ outcome docs = Ok tt
      /\ exists body, report docs = body ++ closing_lines
                      /\ Forall (fun l => part_of l <> PClosing) body).
Proof.
  destruct docs as [|d docs]; [left; repeat split|]. right.
  assert (Hne : d :: docs <> []) by discriminate.
  destruct (In_None_dec (d :: docs)) as [Hn|Hn]; [left | right].
  - destruct (report_raises _ Hne Hn) as [Ho _].
    destruct (report_interrupted _ Hne Hn) as (dups & Hd & Hr).
    repeat split; try assumption. exists dups. auto.
  - destruct (report_complete _ Hne Hn) as (es & ds & He & Hds & Hr).
    destruct (printed_length_stats _ Hne) as (_ & Hs & _).
    repeat split; try assumption; [apply outcome_Ok_iff; exact Hn|].
    eexists. split.
    + rewrite Hr. rewrite !app_assoc. reflexivity.
    + assert (Hp : forall p ls, all_of p ls -> p <> PClosing ->
                                Forall (fun l => part_of l <> PClosing) ls).
      { intros p ls Hall Hp. unfold all_of in Hall.
        eapply Forall_impl; [|exact Hall]. intros l Hl. cbv beta in Hl. congruence. }
      repeat (apply Forall_app; split).
      * apply (Hp PBanner); [apply all_of_banner | discriminate].
      * apply (Hp PStats); [exact Hs | discriminate].
      * apply (Hp PDuplicates); [|discriminate].
        apply all_of_cons; [reflexivity | apply all_of_dup_lines].
      * apply (Hp PEntropy); [|discriminate].
        apply all_of_cons; [reflexivity | apply all_of_entropy_lines].
      * apply (Hp PChars); [|discriminate].
        apply all_of_cons; [reflexivity | apply all_of_chars_lines].
      * apply (Hp PStructure); [|discriminate].
        apply all_of_cons; [reflexivity | apply all_of_structure_lines].
      * apply (Hp PNearEmpty); [apply all_of_near_empty_lines | discriminate].
Qed.

Lemma lines_of_absent (p : part) (ls : list line) :
  Forall (fun l => part_of l <> p) ls -> lines_of p ls = [].
Proof.
  induction 1 as [|l ls Hl Hls IH]; [reflexivity|].
  unfold lines_of in *. cbn [filter].
  destruct (Nat.eqb_spec (part_rank (part_of l)) (part_rank p)) as [E|E].
  - apply part_rank_inj in E. contradiction.
  - exact IH.
Qed.

(** X12.  [validate_docs] returns or raises [AttributeError], nothing else:
    no division by zero, no [min] of an empty list, no logarithm of 0.
    It raises exactly when a missing content is among the previewed
    repeated texts, which needs more than 3 documents without content,
    and then nothing is printed beyond the duplicates part. *)
Theorem validate_docs_raises_only_attribute_error (docs : list Document) :
  (outcome docs = Ok tt \/ outcome docs = Raised AttributeError)
  /\ (outcome docs = Raised AttributeError
      <-> In None (map fst (top_repeated docs)))
  /\ (outcome docs = Raised AttributeError ->
      3 < occurrences content_eqb None (contents docs)
      /\ forall l, In l (report docs) ->
           part_of l = PBanner \/ part_of l = PStats \/ part_of l = PDuplicates).
Proof.
  destruct (report_run docs) as [(-> & Ho & Hr)|[(Hne & Hn & Ho & dups & Hd & Hr)|(Hne & Hn & Ho & _)]].
  - split; [left; exact Ho|]. split.
    + split; [rewrite Ho; discriminate | intros []].
    + rewrite Ho. discriminate.
  - split; [right; exact Ho|]. split; [tauto|].
    intros _. split; [apply top_repeated_None_count, Hn|].
    intros l Hl. rewrite Hr in Hl.
    destruct (printed_length_stats _ Hne) as (_ & Hs & _).
    unfold all_of in *. rewrite Forall_forall in Hs, Hd.
    apply in_app_or in Hl. destruct Hl as [[<-|[]]|Hl]; [left; reflexivity|].
    apply in_app_or in Hl. destruct Hl as [Hl|Hl]; [right; left; apply Hs, Hl|].
    right. right. apply Hd, Hl.
  - split; [left; exact Ho|]. split.
    + split; [rewrite Ho; discriminate | intros H; contradiction].
    + rewrite Ho. discriminate.
Qed.

(** An instance of [validate_docs_raises_only_attribute_error]. *)
Lemma validate_docs_raises_only_attribute_error_witness :
  3 < occurrences content_eqb None (contents [missing; missing; missing; missing])
  /\ forall l, In l (report [missing; missing; missing; missing]) ->
       part_of l = PBanner \/ part_of l = PStats \/ part_of l = PDuplicates.
Proof.
  destruct (validate_docs_raises_only_attribute_error [missing; missing; missing; missing])
    as (_ & Hiff & H).
  apply H. apply Hiff. vm_compute. left. reflexivity.
Defined.

(** X13.  The closing text is printed exactly when a non-empty collection
    is validated to the end; it is then the last six lines of the report,
    the same for every collection, and no other line belongs to the
    closing part. *)
Theorem closing_text_ends_completed_runs (docs : list Document) :
  (docs <> [] /\ outcome docs = Ok tt
   /\ lines_of PClosing (report docs) = closing_lines
   /\ exists body, report docs = body ++ closing_lines
                   /\ Forall (fun l => part_of l <> PClosing) body)
  \/ ((docs = [] \/ outcome docs = Raised AttributeError)
      /\ lines_of PClosing (report docs) = []).
Proof.
  destruct (report_run docs) as [(-> & Ho & Hr)|[(Hne & Hn & Ho & dups & Hd & Hr)|(Hne & Hn & Ho & body & Hr & Hb)]].
  - right. split; [left; reflexivity | reflexivity].
  - right. split; [right; exact Ho|].
    destruct (printed_length_stats _ Hne) as (_ & Hs & _).
    rewrite Hr, !lines_of_app.
    rewrite (lines_of_other PClosing PBanner [Banner] all_of_banner) by discriminate.
    rewrite (lines_of_other PClosing PStats _ Hs) by discriminate.
    rewrite (lines_of_other PClosing PDuplicates dups Hd) by discriminate.
    reflexivity.
  - left. repeat split; try assumption.
    + rewrite Hr, lines_of_app, (lines_of_all PClosing _ all_of_closing_lines).
      rewrite (lines_of_absent PClosing body Hb). reflexivity.
    + exists body. auto.
Qed.

(** ** Stability of [sorted] *)

Section Stable.
Context {A : Type} (key : A -> Z) (k : Z).

Lemma filter_key_above (x : A) (l : list A) :
  Forall (fun z => key x < key z) l -> key x = k ->
  filter (fun z => key z =? k) l = [].
Proof.
  intros H E. induction H as [|z l Hz Hl IH]; simpl; [reflexivity|].
  destruct (Z.eqb_spec (key z) k); [lia | exact IH].
Qed.

Lemma insert_by_filter (x : A) (l : list A) :
  StronglySorted (key_le key) l ->
  filter (fun z => key z =? k) (insert_by key x l)
  = filter (fun z => key z =? k) l ++ (if key x =? k then [x] else []).
Proof.
  induction 1 as [|y l Hl IH Hy]; simpl.
  - destruct (key x =? k); reflexivity.
  - destruct (Z.ltb_spec (key x) (key y)) as [Hlt|Hge].
    + destruct (Z.eqb_spec (key x) k) as [E|E].
      * assert (Hall : Forall (fun z => key x < key z) (y :: l)).
        { constructor; [exact Hlt|]. eapply Forall_impl; [|exact Hy].
          intros z Hz. unfold key_le in Hz. lia. }
        cbn [filter]. rewrite E, Z.eqb_refl.
        pose proof (filter_key_above x (y :: l) Hall E) as Hf. cbn [filter] in Hf.
        rewrite Hf. reflexivity.
      * cbn [filter]. destruct (Z.eqb_spec (key x) k); [contradiction|].
        rewrite app_nil_r. reflexivity.
    + cbn [filter]. rewrite IH. destruct (key y =? k); reflexivity.
Qed.

Lemma fold_insert_filter (l acc : list A) :
  StronglySorted (key_le key) acc ->
  filter (fun z => key z =? k) (fold_left (fun acc x => insert_by key x acc) l acc)
  = filter (fun z => key z =? k) acc ++ filter (fun z => key z =? k) l.
Proof.
  revert acc. induction l as [|x l IH]; intros acc Hs; simpl.
  - rewrite app_nil_r. reflexivity.
  - rewrite IH by (apply insert_by_sorted; exact Hs).
    rewrite insert_by_filter by exact Hs. rewrite <- app_assoc.
    destruct (key x =? k); reflexivity.
Qed.

Lemma sorted_stable (l : list A) :
  filter (fun z => key z =? k) (sorted key l) = filter (fun z => key z =? k) l.
Proof. unfold sorted. rewrite fold_insert_filter by constructor. reflexivity. Qed.
End Stable.

Lemma Counter_keys_prefix {K : Type} (eqb : K -> K -> bool) (l more : list K) :
  exists rest, map fst (Counter eqb (l ++ more)) = map fst (Counter eqb l) ++ rest.
Proof.
  induction more as [|x more [rest IH]] using rev_ind.
  - exists []. rewrite !app_nil_r. reflexivity.
  - rewrite app_assoc. unfold Counter at 1. rewrite fold_left_app. cbn [fold_left].
    fold (Counter eqb (l ++ more)). rewrite keys_incr, IH.
    destruct (existsb (eqb x) (map fst (Counter eqb l) ++ rest)).
    + exists rest. reflexivity.
    + exists (rest ++ [x]). rewrite app_assoc. reflexivity.
Qed.

(** X14.  Sorting the repeated texts by decreasing count keeps the texts of
    equal count in the order of [content_counts], which lists the
    contents in the order they are first seen: adding documents at the
    end only adds keys at the end.  The sorted list is a permutation of
    the repeated texts. *)
Theorem repeated_ties_keep_first_seen_order (docs : list Document) :
  (forall c : Z,
      filter (fun x => snd x =? c) (sorted (fun x => - snd x) (repeated docs))
      = filter (fun x => snd x =? c) (repeated docs))
  /\ (forall more : list Document,
        exists rest,
          map fst (content_counts (docs ++ more)) = map fst (content_counts docs) ++ rest)
  /\ Permutation (sorted (fun x => - snd x) (repeated docs)) (repeated docs).
Proof.
  split; [|split].
  - intros c.
    pose proof (sorted_stable (fun x : option str * Z => - snd x) (- c) (repeated docs)) as H.
    assert (E : forall l : list (option str * Z),
               filter (fun x => snd x =? c) l = filter (fun x => - snd x =? - c) l).
    { intros l. apply filter_ext. intros x.
      destruct (Z.eqb_spec (snd x) c), (Z.eqb_spec (- snd x) (- c)); try reflexivity; lia. }
    rewrite !E. exact H.
  - intros more. unfold content_counts. rewrite map_app. apply Counter_keys_prefix.
  - apply sorted_perm.
Qed.

(** ** Pattern detectors *)

Lemma starts_with_spec (p s : str) :
  starts_with p s = true <-> exists post, s = p ++ post.
Proof.
  revert s. induction p as [|a p IH]; intros s; simpl.
  - split; [intros _; exists s; reflexivity | reflexivity].
  - destruct s as [|b s].
    + split; [discriminate | intros [post H]; discriminate].
    + rewrite andb_true_iff, Z.eqb_eq, IH. split.
      * intros [-> [post ->]]. exists post. reflexivity.
      * intros [post H]. injection H as -> ->. split; [reflexivity | exists post; reflexivity].
Qed.

Lemma find_literal_spec (p s : str) :
  find_literal p s = true <-> exists pre post, s = pre ++ p ++ post.
Proof.
  induction s as [|b s IH]; simpl; rewrite orb_true_iff, starts_with_spec.
  - split.
    + intros [[post H]|H]; [exists [], post; exact H | discriminate].
    + intros [pre [post H]]. left. destruct pre; [exists post; exact H | discriminate].
  - rewrite IH. split.
    + intros [[post H]|[pre [post H]]].
      * exists [], post. exact H.
      * exists (b :: pre), post. rewrite H. reflexivity.
    + intros [pre [post H]]. destruct pre as [|c pre].
      * left. exists post. exact H.
      * right. injection H as -> ->. exists pre, post. reflexivity.
Qed.

(** X15.  The ligature detector trips exactly on a text that contains
    U+FB01 or U+FB02, and the hyphen-break detector exactly on a text
    that contains a hyphen immediately followed by a newline; such a text
    has at least one newline and at least one punctuation character. *)
Theorem pattern_detectors (d : Document) :
  (trips_ligature d = true
   <-> In LIGATURE_FI (content_or_empty d) \/ In LIGATURE_FL (content_or_empty d))
  /\ (trips_hyphen_break d = true
      <-> exists pre post, content_or_empty d = pre ++ [HYPHEN; NEWLINE] ++ post)
  /\ (trips_hyphen_break d = true ->
      1 <= newline_count (content_or_empty d)
      /\ 1 <= punct_count (content_or_empty d)).
Proof.
  assert (Hh : trips_hyphen_break d = true
      <-> exists pre post, content_or_empty d = pre ++ [HYPHEN; NEWLINE] ++ post).
  { unfold trips_hyphen_break, hyphen_break_pattern, re_search. apply find_literal_spec. }
  split; [|split; [exact Hh|]].
  - unfold trips_ligature, ligature_pattern, re_search, char_in.
    rewrite existsb_exists. split.
    + intros [c [Hc E]]. simpl in E. rewrite orb_false_r in E.
      apply orb_true_iff in E. destruct E as [E|E]; apply Z.eqb_eq in E; subst c; auto.
    + intros [H|H]; [exists LIGATURE_FI | exists LIGATURE_FL]; (split; [exact H | reflexivity]).
  - intros H. apply Hh in H. destruct H as [pre [post E]]. rewrite E.
    unfold newline_count, punct_count. rewrite !filter_app, !len_app.
    change (len (filter (Z.eqb NEWLINE) [HYPHEN; NEWLINE])) with 1.
    change (len (filter (fun c => char_in c punctuation) [HYPHEN; NEWLINE])) with 1.
    assert (L : forall a b, 0 <= a -> 0 <= b -> 1 <= a + (1 + b)) by (intros; lia).
    split; apply L; apply len_nonneg.
Qed.

(** An instance of [pattern_detectors]. *)
Lemma pattern_detectors_witness :
  1 <= newline_count [119; 111; 114; HYPHEN; NEWLINE; 100]
  /\ 1 <= punct_count [119; 111; 114; HYPHEN; NEWLINE; 100].
Proof.
  destruct (pattern_detectors (doc [119; 111; 114; HYPHEN; NEWLINE; 100])) as (_ & _ & H).
  apply H. reflexivity.
Defined.

(** ** The script *)

Lemma run_validate_docs docs :
  run validate_docs docs = (outcome docs, {| heap := docs; stdout := report docs |}).
Proof.
  unfold run. rewrite (reads_only_validate_docs {| heap := docs; stdout := [] |}).
  reflexivity.
Qed.

(** X16.  Run as a script on the loaded documents, the module finishes
    without exception exactly when the validation completes and at least
    17 documents were loaded; with fewer, a completed validation is
    followed by [IndexError]; an exception of the validation escapes
    after its partial report; and the contents printed at the end are
    those of the documents loaded at positions 8 and 16. *)
Theorem main_needs_seventeen_documents (loaded : list Document) :
  (fst (main loaded) = None
   <-> outcome loaded = Ok tt /\ (17 <= length loaded)%nat)
  /\ (outcome loaded = Ok tt -> (length loaded < 17)%nat ->
      fst (main loaded) = Some IndexError)
  /\ (forall e, outcome loaded = Raised e ->
      main loaded = (Some (Propagated e), Loaded (len loaded) :: map Report (report loaded)))
  /\ (forall d8 d16,
      outcome loaded = Ok tt ->
      nth_error loaded 8 = Some d8 -> nth_error loaded 16 = Some d16 ->
      snd (main loaded)
      = Loaded (len loaded) :: map Report (report loaded)
        ++ [Content (page_content d8); Content (page_content d16)]).
Proof.
  unfold main. rewrite run_validate_docs. cbn [heap stdout]. unfold getitem.
  split; [|split; [|split]].
  - destruct (outcome loaded) as [[]|e] eqn:Ho.
    + destruct (nth_error loaded 8) as [d8|] eqn:E8.
      * destruct (nth_error loaded 16) as [d16|] eqn:E16; cbn [fst].
        -- split; [intros _; split; [reflexivity|] | reflexivity].
           assert (16 < length loaded)%nat by (apply nth_error_Some; congruence). lia.
        -- apply nth_error_None in E16. split; [discriminate | intros [_ H]; lia].
      * cbn [fst]. apply nth_error_None in E8. split; [discriminate | intros [_ H]; lia].
    + cbn [fst]. split; [discriminate | intros [H _]; discriminate].
  - intros Ho Hlt. rewrite Ho.
    destruct (nth_error loaded 8) as [d8|] eqn:E8; [|reflexivity].
    destruct (nth_error loaded 16) as [d16|] eqn:E16; [|reflexivity].
    assert (16 < length loaded)%nat by (apply nth_error_Some; congruence). lia.
  - intros e Ho. rewrite Ho. reflexivity.
  - intros d8 d16 Ho E8 E16. rewrite Ho, E8, E16. cbn [snd app].
    rewrite <- app_assoc. reflexivity.
Qed.

(** An instance of [main_needs_seventeen_documents]. *)
Lemma main_needs_seventeen_documents_witness :
  fst (main [blank; blank; blank]) = Some IndexError.
Proof.
  destruct (main_needs_seventeen_documents [blank; blank; blank]) as (_ & H & _).
  apply H.
  - apply outcome_Ok_iff. vm_compute. tauto.
  - simpl. lia.
Defined.

(** ** Missing contents outside the duplicate detection *)

Lemma content_or_empty_fill (d : Document) :
  content_or_empty (fill d) = content_or_empty d.
Proof.
  unfold fill, content_or_empty. cbn [page_content].
  destruct (page_content d) as [s|]; [|reflexivity].
  destruct s; reflexivity.
Qed.

Lemma map_content_fill docs :
  map content_or_empty (map fill docs) = map content_or_empty docs.
Proof. rewrite map_map. apply map_ext. intros d. apply content_or_empty_fill. Qed.

Lemma lengths_of_fill docs : lengths_of (map fill docs) = lengths_of docs.
Proof.
  unfold lengths_of. rewrite map_map. apply map_ext. intros d.
  rewrite content_or_empty_fill. reflexivity.
Qed.

Lemma mapM_map {A B C : Type} (f : B -> result C) (h : A -> B) (l : list A) :
  Res.mapM f (map h l) = Res.mapM (fun a => f (h a)) l.
Proof.
  induction l as [|a l IH]; simpl; [reflexivity|]. rewrite IH. reflexivity.
Qed.

Lemma mapM_ext {A B : Type} (f g : A -> result B) (l : list A) :
  (forall a, f a = g a) -> Res.mapM f l = Res.mapM g l.
Proof.
  intros H. induction l as [|a l IH]; simpl; [reflexivity|]. rewrite H, IH. reflexivity.
Qed.

Lemma entropies_fill docs : entropies (map fill docs) = entropies docs.
Proof.
  unfold entropies. rewrite mapM_map. apply mapM_ext. intros d.
  rewrite content_or_empty_fill. reflexivity.
Qed.

Lemma densities_fill docs :
  Res.mapM (fun d => punctuation_density (content_or_empty d)) (map fill docs)
  = Res.mapM (fun d => punctuation_density (content_or_empty d)) docs.
Proof.
  rewrite mapM_map. apply mapM_ext. intros d. rewrite content_or_empty_fill. reflexivity.
Qed.

Lemma count_docs_fill (f : Document -> bool) docs :
  (forall d, f (fill d) = f d) -> count_docs f (map fill docs) = count_docs f docs.
Proof.
  intros H. induction docs as [|d docs IH]; [reflexivity|].
  cbn [map]. rewrite !count_docs_cons, H, IH. reflexivity.
Qed.

Lemma tally_fill docs : tally (map fill docs) = tally docs.
Proof.
  unfold tally.
  rewrite !count_docs_fill; [reflexivity | | | |]; intros d;
    unfold trips_non_ascii, trips_hyphen_break, trips_replacement, trips_ligature;
    rewrite content_or_empty_fill; reflexivity.
Qed.

Lemma structure_lines_fill docs ds lengths :
  structure_lines (map fill docs) ds lengths = structure_lines docs ds lengths.
Proof.
  unfold structure_lines. cbv zeta. rewrite map_map.
  rewrite (map_ext (fun x => newline_count (content_or_empty (fill x)))
                   (fun d => newline_count (content_or_empty d)))
    by (intros d; rewrite content_or_empty_fill; reflexivity).
  reflexivity.
Qed.

Lemma printed_length_stats_fill docs :
  docs <> [] -> printed length_stats (map fill docs) = printed length_stats docs.
Proof.
  intros Hne.
  assert (Hne' : map fill docs <> []) by (destruct docs; [congruence | discriminate]).
  destruct (printed_length_stats_values docs Hne)
    as (mn & mx & avg & med & Hmn & Hmx & Ha & Hmed & ->).
  destruct (printed_length_stats_values (map fill docs) Hne')
    as (mn' & mx' & avg' & med' & Hmn' & Hmx' & Ha' & Hmed' & ->).
  rewrite lengths_of_fill in *.
  assert (Hlen : len (map fill docs) = len docs) by (unfold len; rewrite length_map; reflexivity).
  rewrite Hlen in *.
  assert (mn' = mn) by congruence. assert (mx' = mx) by congruence.
  assert (med' = med) by congruence. subst. reflexivity.
Qed.

Lemma fill_no_None docs : ~ In None (map fst (top_repeated (map fill docs))).
Proof.
  apply top_repeated_no_None.
  assert (H : occurrences content_eqb None (contents (map fill docs)) = 0).
  { unfold occurrences, contents. apply len_filter_zero. intros x Hx.
    apply in_map_iff in Hx. destruct Hx as [d [<- Hd]].
    apply in_map_iff in Hd. destruct Hd as [d' [<- _]]. reflexivity. }
  rewrite H. lia.
Qed.

(** X17.  Replacing every missing content by the empty string changes
    nothing in the statistics, entropy, character, structure and
    empty/near-empty parts of a completed report: outside the duplicate
    detection a missing content is read as the empty string. *)
Theorem missing_content_read_as_empty (docs : list Document) :
  docs <> [] -> ~ In None (map fst (top_repeated docs)) ->
  outcome (map fill docs) = Ok tt
  /\ lines_of PStats (report (map fill docs)) = lines_of PStats (report docs)
  /\ lines_of PEntropy (report (map fill docs)) = lines_of PEntropy (report docs)
  /\ lines_of PChars (report (map fill docs)) = lines_of PChars (report docs)
  /\ lines_of PStructure (report (map fill docs)) = lines_of PStructure (report docs)
  /\ lines_of PNearEmpty (report (map fill docs)) = lines_of PNearEmpty (report docs).
Proof.
  intros Hne Hn.
  assert (Hne' : map fill docs <> []) by (destruct docs; [congruence | discriminate]).
  pose proof (fill_no_None docs) as Hn'.
  destruct (report_parts docs Hne Hn)
    as (stats & es & ds & He & Hds & _ & _ & _ & Hent & Hch & Hst & Hnear & _).
  destruct (report_parts (map fill docs) Hne' Hn')
    as (stats' & es' & ds' & He' & Hds' & Ho' & _ & _ & Hent' & Hch' & Hst' & Hnear' & _).
  rewrite entropies_fill in He'. rewrite densities_fill in Hds'.
  assert (es' = es) by congruence. assert (ds' = ds) by congruence. subst es' ds'.
  split; [exact Ho'|].
  split; [rewrite !report_stats by assumption; apply printed_length_stats_fill, Hne|].
  split; [rewrite Hent, Hent'; reflexivity|].
  split; [rewrite Hch, Hch', tally_fill; reflexivity|].
  split; [rewrite Hst, Hst', structure_lines_fill, lengths_of_fill; reflexivity|].
  rewrite Hnear, Hnear', lengths_of_fill. reflexivity.
Qed.

(** An instance of [missing_content_read_as_empty]. *)
Lemma missing_content_read_as_empty_witness :
  lines_of PNearEmpty (report [blank; doc [97]])
  = lines_of PNearEmpty (report [missing; doc [97]]).
Proof.
  destruct (missing_content_read_as_empty [missing; doc [97]]) as (_ & _ & _ & _ & _ & H).
  - discriminate.
  - vm_compute. tauto.
  - exact H.
Defined.

